(** * The authenticated request layer of [frontend/lib/apiClient.js]

    A shallow embedding of the [ApiClient] class: its token store
    ([setToken], [setRefreshToken], [clearToken]), the request executor
    ([request], lines 82-162), the refresh coordination
    ([subscribeTokenRefresh], [onTokenRefreshed], [attemptTokenRefresh])
    and [login].

    The client runs on one JavaScript event loop.  An [async] method runs
    without interruption from one [await] on the network to the next, so
    the embedding cuts every method at its network awaits: the piece that
    runs up to the await is a function on the state, the piece that runs
    when the awaited promise settles is another, and an interleaving of
    calls is a list of such events.

    Two awaits that follow each other on one response, [await fetch(..)]
    and then [await response.json()] or [await response.text()], are one
    event, the arrival of the response with its body: between the two the
    method touches no field of the client, and what it decides on the
    status alone (the 401 branch of line 111, the [ok] test of line 68)
    does not look at the body.  The await of line 115, on the promise of
    [attemptTokenRefresh], is an await of its own: the refresh running to
    its end and [request] resuming after it are two events, and other
    events may fall between them.  [console.error] is left out. *)

From stdpp Require Import gmap strings list fin_maps pretty.

Open Scope string_scope.
Open Scope list_scope.

#[local] Set Warnings "-register-all".

(** ** JavaScript values *)

(** A JSON value as [JSON.parse] returns it.  A number is carried by the
    text [String(n)] gives for it, which is all the client ever looks at
    (its truthiness and its rendering); zero renders as ["0"].  An object
    is the list of its own properties. *)
Inductive json : Type :=
  | JNull
  | JBool (b : bool)
  | JNum (shown : string)
  | JStr (s : string)
  | JArr (items : list json)
  | JObj (fields : list (string * json)).

(** A value that may also be [undefined] (the [None] here). *)
Abbreviation value := (option json).

Definition undefined : value := None.
Definition null : value := Some JNull.

(** The built-ins of the runtime the client calls and does not define. *)
Class Runtime := {
  JSON_parse : string -> option json;   (* [None]: throws SyntaxError *)
  JSON_stringify : json -> string
}.

(** ToBoolean. *)
Definition truthy_json (j : json) : bool :=
  match j with
  | JNull => false
  | JBool b => b
  | JNum shown => negb (String.eqb shown "0")
  | JStr s => negb (String.eqb s "")
  | JArr _ | JObj _ => true
  end.

Definition truthy (v : value) : bool :=
  match v with
  | None => false
  | Some j => truthy_json j
  end.

Fixpoint join_comma (l : list string) : string :=
  match l with
  | [] => ""
  | [s] => s
  | s :: rest => s +:+ "," +:+ join_comma rest
  end.

Fixpoint has_key (k : string) (fields : list (string * json)) : bool :=
  match fields with
  | [] => false
  | (k', _) :: rest => String.eqb k k' || has_key k rest
  end.

(** ToString, as a template literal, [new Error(x)] and
    [localStorage.setItem] apply it; [None] where it throws a TypeError.
    An object is converted by its [toString]: the one of
    [Object.prototype] gives ["[object Object]"], but an own [toString]
    key hides it, and no JSON value can be called, so the conversion
    finds nothing that returns a primitive.  An array joins the strings
    of its elements, [null] counting as empty, and throws where one of
    them does. *)
Fixpoint to_string_json (j : json) : option string :=
  match j with
  | JNull => Some "null"
  | JBool true => Some "true"
  | JBool false => Some "false"
  | JNum shown => Some shown
  | JStr s => Some s
  | JArr items =>
      join_comma <$>
        (fix each (l : list json) : option (list string) :=
           match l with
           | [] => Some []
           | x :: rest =>
               match (match x with
                      | JNull => Some ""
                      | _ => to_string_json x
                      end) with
               | Some s => cons s <$> each rest
               | None => None
               end
           end) items
  | JObj fields =>
      if has_key "toString" fields then None else Some "[object Object]"
  end.

(** ToString on a value that may be [undefined]. *)
Definition ToString (v : value) : option string :=
  match v with
  | None => Some "undefined"
  | Some j => to_string_json j
  end.

(** ToString returns. *)
Definition stringable (v : value) : bool :=
  match ToString v with
  | Some _ => true
  | None => false
  end.

(** The string of a value that has one.  Where ToString throws this is
    the empty string, which nothing reads: the methods below test
    [stringable] where the source converts. *)
Definition to_string (v : value) : string := default "" (ToString v).

(** [JSON.stringify(v)] followed by the ToString that
    [localStorage.setItem] applies: [JSON.stringify(undefined)] is
    [undefined]. *)
Definition stringify_stored `{Runtime} (v : value) : string :=
  match v with
  | None => "undefined"
  | Some j => JSON_stringify j
  end.

Fixpoint assoc (k : string) (fields : list (string * json)) : value :=
  match fields with
  | [] => None
  | (k', v) :: rest => if String.eqb k k' then Some v else assoc k rest
  end.

(** [data.k] for one of the property names the client reads ([detail],
    [message], [access_token], [refresh_token], [user]): none of them is
    on a prototype, so only an object can have it.  [JNull] is handled by
    the callers: reading a property of [null] throws. *)
Definition get (data : json) (k : string) : value :=
  match data with
  | JObj fields => assoc k fields
  | _ => None
  end.

(** [a || b] *)
Definition or_else (a b : value) : value := if truthy a then a else b.

(** [hay.includes(needle)] *)
Fixpoint includes (needle hay : string) : bool :=
  String.prefix needle hay ||
  match hay with
  | EmptyString => false
  | String _ rest => includes needle rest
  end.

(** ** Requests as [fetch] receives them *)

(** The [body] member of the options: absent, a plain value (a string, or
    an object or array the caller left to the client to serialise), or a
    [FormData] instance with its entries. *)
Inductive body : Type :=
  | BodyAbsent
  | BodyValue (j : json)
  | BodyFormData (entries : list (string * string)).

Record options := mkOptions {
  opt_method : option string;
  opt_headers : gmap string string;
  opt_body : body
}.

(** [typeof b === 'object'] on a JSON value. *)
Definition typeof_object (j : json) : bool :=
  match j with
  | JNull | JArr _ | JObj _ => true
  | _ => false
  end.

Definition is_FormData (b : body) : bool :=
  match b with
  | BodyFormData _ => true
  | _ => false
  end.

(** Lines 84-91: the default content type, overridden by the caller's
    headers, then the bearer token.  The names of an object's properties
    are compared letter by letter: [content-type] is another property
    than [Content-Type].  The template literal of line 90 is [to_string]
    where it returns; [request_begin] tests that it does. *)
Definition request_headers (token : value) (o : options) : gmap string string :=
  let headers := opt_headers o ∪ {["Content-Type" := "application/json"]} in
  if truthy token
  then <["Authorization" := "Bearer " +:+ to_string token]> headers
  else headers.

(** HTTP reads the name of a header without regard to the case of its
    letters. *)
Definition lower_ascii (c : Ascii.ascii) : Ascii.ascii :=
  let n := Ascii.nat_of_ascii c in
  if Nat.leb 65 n && Nat.leb n 90 then Ascii.ascii_of_nat (n + 32) else c.

Fixpoint lower (s : string) : string :=
  match s with
  | EmptyString => EmptyString
  | String c rest => String (lower_ascii c) (lower rest)
  end.

Definition names_content_type (k : string) : bool :=
  String.eqb (lower k) "content-type".

(** Lines 98-101. *)
Definition serialize_body `{Runtime} (b : body) : body :=
  match b with
  | BodyValue j =>
      if truthy_json j && typeof_object j
      then BodyValue (JStr (JSON_stringify j))
      else b
  | _ => b
  end.

(** Lines 83-105: what [fetch] is called with.  [config.headers] is the
    very object the [delete] of line 104 acts on. *)
Definition build_config `{Runtime} (token : value) (o : options) : options :=
  let headers := request_headers token o in
  let b := serialize_body (opt_body o) in
  mkOptions (opt_method o)
            (if is_FormData b then delete "Content-Type" headers else headers)
            b.

(** ** Responses and errors *)

(** A response whose body has arrived: the status line, what
    [response.headers.get('content-type')] returns ([None] is [null]) and
    the text of the body. *)
Record response := mkResponse {
  status : N;
  content_type : option string;
  body_text : string
}.

(** [response.ok] *)
Definition ok (r : response) : bool :=
  (200 <=? status r)%N && (status r <=? 299)%N.

(** How the promise of a [fetch] settles. *)
Inductive fetch_result : Type :=
  | FetchRejected
  | FetchResponse (r : response).

(** What a method of the client throws. *)
Inductive error : Type :=
  | FetchError                    (* what [fetch] itself rejected with *)
  | SyntaxError                   (* [JSON.parse], [response.json()] *)
  | TypeError                     (* a property read on [null]; ToString of
                                     a value without a string *)
  | Error (message : string).     (* [new Error(message)] *)

(** How the promise of an [async] method settles. *)
Inductive outcome : Type :=
  | Resolved (data : json)
  | Rejected (e : error).

(** [await response.json()] *)
Definition response_json `{Runtime} (r : response) : option json :=
  JSON_parse (body_text r).

(** Line 146: [contentType && contentType.includes('application/json')] *)
Definition announces_json (r : response) : bool :=
  match content_type r with
  | Some ct => negb (String.eqb ct "") && includes "application/json" ct
  | None => false
  end.

(** Lines 144-151. *)
Definition read_data `{Runtime} (r : response) : option json :=
  if announces_json r then response_json r
  else if String.eqb (body_text r) "" then Some (JObj [])
       else JSON_parse (body_text r).

(** Line 154: the argument of [new Error], the message it gives the
    error for a response that is not [ok], and what the line throws:
    the error, or the TypeError of the conversion to a message. *)
Definition api_error_value (data : json) (st : N) : value :=
  or_else (get data "detail")
    (or_else (get data "message")
       (Some (JStr ("API request failed: " +:+ pretty st)))).

Definition api_error_message (data : json) (st : N) : string :=
  to_string (api_error_value data st).

Definition api_error (data : json) (st : N) : error :=
  match ToString (api_error_value data st) with
  | Some message => Error message
  | None => TypeError
  end.

(** Lines 143-157: the result of [request] for a response that does not
    start or join a refresh. *)
Definition decode `{Runtime} (r : response) : outcome :=
  match read_data r with
  | None => Rejected SyntaxError
  | Some data =>
      if ok r then Resolved data
      else match data with
           | JNull => Rejected TypeError
           | _ => Rejected (api_error data (status r))
           end
  end.

(** ** The client and its surroundings *)

(** The callback of lines 131-138 closes over the arguments of the call
    that subscribed and over the [resolve] and [reject] of the promise
    that call returned. *)
Record waiter := mkWaiter {
  w_endpoint : string;
  w_options : options;
  w_promise : nat
}.

(** The fields of the [ApiClient] instance. *)
Record client := mkClient {
  baseURL : string;
  token : value;
  refreshToken : value;
  isRefreshing : bool;
  refreshSubscribers : list waiter
}.

(** [window], where there is one: the entries of [localStorage] and
    [window.location.href]. *)
Record browser := mkBrowser {
  localStorage : gmap string string;
  location_href : string
}.

(** Where a call of [request] stands. *)
Inductive stage : Type :=
  | AwaitFetch (retryOnUnauthorized : bool)   (* line 108 *)
  | AwaitRefresh                              (* line 115 *)
  | Subscribed                                (* lines 130-139 *)
  | Settled (o : outcome).

Record task := mkTask {
  t_endpoint : string;
  t_options : options;
  t_stage : stage
}.

(** A call of [fetch], with the call of [request] it was made for. *)
Inductive net_call : Type :=
  | OpFetch (owner : nat) (url : string) (config : options)
  | RefreshFetch (owner : nat) (url : string) (body : string).

(** The client, the browser, the calls of [request] made so far, the
    calls of [fetch] made so far and, by the call of [request] that
    awaits it at line 115, how the promise of [attemptTokenRefresh] has
    settled where [request] has not resumed yet. *)
Record world := mkWorld {
  cl : client;
  win : option browser;
  tasks : list task;
  net : list net_call;
  returned : gmap nat (error + value)
}.

Definition with_client (f : client -> client) (w : world) : world :=
  mkWorld (f (cl w)) (win w) (tasks w) (net w) (returned w).

Definition with_returned
    (f : gmap nat (error + value) -> gmap nat (error + value))
    (w : world) : world :=
  mkWorld (cl w) (win w) (tasks w) (net w) (f (returned w)).

Definition with_storage
    (f : gmap string string -> gmap string string) (w : world) : world :=
  mkWorld (cl w)
          ((fun b => mkBrowser (f (localStorage b)) (location_href b)) <$> win w)
          (tasks w) (net w) (returned w).

Definition set_stage (t : nat) (s : stage) (w : world) : world :=
  mkWorld (cl w) (win w)
          (alter (fun tk => mkTask (t_endpoint tk) (t_options tk) s) t (tasks w))
          (net w) (returned w).

Definition log (c : net_call) (w : world) : world :=
  mkWorld (cl w) (win w) (tasks w) (net w ++ [c]) (returned w).

(** [localStorage.getItem(k)], where there is a [window]. *)
Definition persisted (w : world) (k : string) : option string :=
  win w ≫= fun b => localStorage b !! k.

(** *** The token store, lines 18-40 *)

(** Lines 19 and 26 alone. *)
Definition assign_token (tok : value) : world -> world :=
  with_client (fun c => mkClient (baseURL c) tok (refreshToken c)
                                 (isRefreshing c) (refreshSubscribers c)).

Definition assign_refreshToken (tok : value) : world -> world :=
  with_client (fun c => mkClient (baseURL c) (token c) tok
                                 (isRefreshing c) (refreshSubscribers c)).

(** [localStorage.setItem(k, v)] of lines 21 and 28 throws: there is a
    [window], so the line runs, and [v] has no string. *)
Definition setItem_throws (v : value) (w : world) : bool :=
  match win w with
  | Some _ => negb (stringable v)
  | None => false
  end.

(** [setToken] and [setRefreshToken] where they return.  Where
    [setItem_throws], the call has made the assignment of its first line
    and throws a TypeError; the callers below test for it. *)
Definition setToken (tok : value) (w : world) : world :=
  with_storage (insert "accessToken" (to_string tok))
    (with_client (fun c => mkClient (baseURL c) tok (refreshToken c)
                                    (isRefreshing c) (refreshSubscribers c)) w).

Definition setRefreshToken (tok : value) (w : world) : world :=
  with_storage (insert "refreshToken" (to_string tok))
    (with_client (fun c => mkClient (baseURL c) (token c) tok
                                    (isRefreshing c) (refreshSubscribers c)) w).

Definition clearToken (w : world) : world :=
  with_storage (fun st => delete "user" (delete "refreshToken" (delete "accessToken" st)))
    (with_client (fun c => mkClient (baseURL c) null null
                                    (isRefreshing c) (refreshSubscribers c)) w).

Definition set_isRefreshing (b : bool) : world -> world :=
  with_client (fun c => mkClient (baseURL c) (token c) (refreshToken c)
                                 b (refreshSubscribers c)).

(** *** The waiter list, lines 43-51 *)

Definition subscribeTokenRefresh (cb : waiter) : world -> world :=
  with_client (fun c => mkClient (baseURL c) (token c) (refreshToken c)
                                 (isRefreshing c) (refreshSubscribers c ++ [cb])).

Definition clear_subscribers : world -> world :=
  with_client (fun c => mkClient (baseURL c) (token c) (refreshToken c)
                                 (isRefreshing c) []).

(** [window.location.href = url], where there is a [window]. *)
Definition redirect (url : string) (w : world) : world :=
  mkWorld (cl w) ((fun b => mkBrowser (localStorage b) url) <$> win w)
          (tasks w) (net w) (returned w).

(** ** [request], cut at its awaits *)

Section Methods.
Context `{Runtime}.

(** Line 90 returns: there is no token to convert, or the token has a
    string. *)
Definition sendable (tok : value) : bool := negb (truthy tok) || stringable tok.

(** Lines 83-108, up to the [await]: the call of [fetch] for the call [t]
    of [request], with the token of this moment.  Where line 90 throws,
    the promise of the call is rejected with the TypeError and [fetch] is
    not called. *)
Definition request_begin
    (t : nat) (endpoint : string) (o : options) (w : world) : world :=
  if sendable (token (cl w))
  then log (OpFetch t (baseURL (cl w) +:+ endpoint)
              (build_config (token (cl w)) o)) w
  else set_stage t (Settled (Rejected TypeError)) w.

(** [request(endpoint, options, retryOnUnauthorized)] called by the host:
    a new promise, numbered by its position. *)
Definition request
    (endpoint : string) (o : options) (retryOnUnauthorized : bool)
    (w : world) : world :=
  request_begin (length (tasks w)) endpoint o
    (mkWorld (cl w) (win w)
             (tasks w ++ [mkTask endpoint o (AwaitFetch retryOnUnauthorized)])
             (net w) (returned w)).

(** [this.request(endpoint, options, false)] of lines 119 and 133: the
    promise [t] now follows this inner call. *)
Definition request_again
    (t : nat) (endpoint : string) (o : options) (w : world) : world :=
  request_begin t endpoint o (set_stage t (AwaitFetch false) w).

(** Lines 48-51.  The callback of lines 131-138 drops the token it is
    handed and calls [request] again. *)
Definition onTokenRefreshed (newToken : value) (w : world) : world :=
  clear_subscribers
    (foldl (fun w' cb => request_again (w_promise cb) (w_endpoint cb) (w_options cb) w')
           w (refreshSubscribers (cl w))).

(** Lines 55-66 of [attemptTokenRefresh], up to the [await]. *)
Definition attemptTokenRefresh_begin (t : nat) (w : world) : error + world :=
  match refreshToken (cl w) with
  | Some rt =>
      if truthy_json rt
      then inr (log (RefreshFetch t (baseURL (cl w) +:+ "/auth/refresh")
                       (JSON_stringify (JObj [("refresh_token", rt)]))) w)
      else inl (Error "No refresh token available")
  | None => inl (Error "No refresh token available")
  end.

(** Lines 66-79 of [attemptTokenRefresh], from the moment the response
    (and then its body) has arrived, to the end of the method: the state
    it leaves and how its promise settles.  Where the [setItem] inside
    [setToken] throws, line 19 has run and the [catch] of line 75 takes
    over. *)
Definition attemptTokenRefresh_resume
    (r : fetch_result) (w : world) : world * (error + value) :=
  match r with
  | FetchRejected => (clearToken w, inl FetchError)
  | FetchResponse resp =>
      if negb (ok resp) then (clearToken w, inl (Error "Token refresh failed"))
      else match response_json resp with
           | None => (clearToken w, inl SyntaxError)
           | Some JNull => (clearToken w, inl TypeError)
           | Some data =>
               if setItem_throws (get data "access_token") w
               then (clearToken (assign_token (get data "access_token") w),
                     inl TypeError)
               else (setToken (get data "access_token") w,
                     inr (get data "access_token"))
           end
  end.

(** The response of the refresh that the call [t] awaits arrives:
    [attemptTokenRefresh] runs to its end, and its promise is settled for
    [request] to resume on. *)
Definition refresh_arrived (t : nat) (r : fetch_result) (w : world) : world :=
  match attemptTokenRefresh_resume r w with
  | (w1, res) => with_returned (insert t res) w1
  end.

(** Lines 120-127. *)
Definition refresh_failed (t : nat) (e : error) (w : world) : world :=
  set_stage t (Settled (Rejected e))
    (redirect "/login" (set_isRefreshing false w)).

(** Lines 116-127: [request] resumes after the [await] of line 115 on
    the settled promise of [attemptTokenRefresh]. *)
Definition request_refresh_resumed
    (t : nat) (tk : task) (res : error + value) (w : world) : world :=
  match res with
  | inr newToken =>
      request_again t (t_endpoint tk) (t_options tk)
        (onTokenRefreshed newToken (set_isRefreshing false w))
  | inl e => refresh_failed t e w
  end.

(** Lines 66-79 and then 116-127 with nothing between them. *)
Definition request_refresh_settled
    (t : nat) (tk : task) (r : fetch_result) (w : world) : world :=
  match attemptTokenRefresh_resume r w with
  | (w1, res) => request_refresh_resumed t tk res w1
  end.

(** Lines 108-161, from the moment [fetch] settles. *)
Definition request_fetch_settled
    (t : nat) (tk : task) (retryOnUnauthorized : bool)
    (r : fetch_result) (w : world) : world :=
  match r with
  | FetchRejected => set_stage t (Settled (Rejected FetchError)) w
  | FetchResponse resp =>
      if (status resp =? 401)%N && retryOnUnauthorized
         && truthy (refreshToken (cl w))
      then
        if negb (isRefreshing (cl w)) then
          let w1 := set_isRefreshing true w in
          match attemptTokenRefresh_begin t w1 with
          | inr w2 => set_stage t AwaitRefresh w2
          | inl e => refresh_failed t e w1
          end
        else
          set_stage t Subscribed
            (subscribeTokenRefresh
               (mkWaiter (t_endpoint tk) (t_options tk) t) w)
      else set_stage t (Settled (decode resp)) w
  end.

(** ** [login], lines 165-193, from the moment its response has arrived *)

(** Line 181: the argument of [new Error] and what the line throws. *)
Definition login_error_value (data : json) : value :=
  or_else (get data "detail") (Some (JStr "Login failed")).

Definition login_error (data : json) : error :=
  match ToString (login_error_value data) with
  | Some message => Error message
  | None => TypeError
  end.

(** Where the [setItem] of [setToken] or of [setRefreshToken] throws,
    [login] throws on with the assignments made so far in place. *)
Definition login_settled (r : fetch_result) (w : world) : world * outcome :=
  match r with
  | FetchRejected => (w, Rejected FetchError)
  | FetchResponse resp =>
      match response_json resp with
      | None => (w, Rejected SyntaxError)
      | Some JNull => (w, Rejected TypeError)
      | Some data =>
          if negb (ok resp)
          then (w, Rejected (login_error data))
          else if setItem_throws (get data "access_token") w
          then (assign_token (get data "access_token") w, Rejected TypeError)
          else
            let w1 := setToken (get data "access_token") w in
            if truthy (get data "refresh_token")
               && setItem_throws (get data "refresh_token") w1
            then (assign_refreshToken (get data "refresh_token") w1,
                  Rejected TypeError)
            else
              let w2 := if truthy (get data "refresh_token")
                        then setRefreshToken (get data "refresh_token") w1
                        else w1 in
              (with_storage (insert "user" (stringify_stored (get data "user"))) w2,
               Resolved data)
      end
  end.

(** ** The constructor, lines 4-16 *)

Definition getItem (b : browser) (k : string) : value :=
  match localStorage b !! k with
  | Some s => Some (JStr s)
  | None => null
  end.

Definition new_ApiClient (API_URL : string) (window : option browser) : world :=
  mkWorld
    (mkClient API_URL
       (match window with Some b => getItem b "accessToken" | None => null end)
       (match window with Some b => getItem b "refreshToken" | None => null end)
       false [])
    window [] [] ∅.

(** ** Interleavings *)

(** What can happen next: the host calls [request]; the [fetch] of a
    pending call settles; the response of the refresh a call is waiting
    for arrives and [attemptTokenRefresh] runs to its end; that call
    resumes after line 115; the two happen with nothing between them;
    the response of a [login] arrives; [clearToken] runs (the last line
    of [logout], or the host itself).

    [RefreshSettled] asks of the state only that the call is at line
    115.  Where [attemptTokenRefresh] has returned already it stands for
    a second answer to the same refresh, which no network delivers; what
    holds of every interleaving below holds of the ones without it. *)
Inductive event : Type :=
  | Request (endpoint : string) (o : options) (retryOnUnauthorized : bool)
  | FetchSettled (t : nat) (r : fetch_result)
  | RefreshArrived (t : nat) (r : fetch_result)
  | RefreshResumed (t : nat)
  | RefreshSettled (t : nat) (r : fetch_result)
  | LoginSettled (r : fetch_result)
  | ClearToken.

Definition step (w : world) (e : event) : option world :=
  match e with
  | Request endpoint o retry => Some (request endpoint o retry w)
  | FetchSettled t r =>
      match tasks w !! t with
      | Some tk =>
          match t_stage tk with
          | AwaitFetch retry => Some (request_fetch_settled t tk retry r w)
          | _ => None
          end
      | None => None
      end
  | RefreshArrived t r =>
      match tasks w !! t with
      | Some tk =>
          match t_stage tk, returned w !! t with
          | AwaitRefresh, None => Some (refresh_arrived t r w)
          | _, _ => None
          end
      | None => None
      end
  | RefreshResumed t =>
      match tasks w !! t with
      | Some tk =>
          match t_stage tk, returned w !! t with
          | AwaitRefresh, Some res =>
              Some (request_refresh_resumed t tk res
                      (with_returned (delete t) w))
          | _, _ => None
          end
      | None => None
      end
  | RefreshSettled t r =>
      match tasks w !! t with
      | Some tk =>
          match t_stage tk with
          | AwaitRefresh => Some (request_refresh_settled t tk r w)
          | _ => None
          end
      | None => None
      end
  | LoginSettled r => Some (fst (login_settled r w))
  | ClearToken => Some (clearToken w)
  end.

Fixpoint run (w : world) (trace : list event) : option world :=
  match trace with
  | [] => Some w
  | e :: rest =>
      match step w e with
      | Some w' => run w' rest
      | None => None
      end
  end.

(** ** The calls made so far *)

Definition is_refresh_call (c : net_call) : bool :=
  match c with
  | RefreshFetch _ _ _ => true
  | OpFetch _ _ _ => false
  end.

Definition count_calls (p : net_call -> bool) (calls : list net_call) : nat :=
  length (filter (fun c => p c = true) calls).

(** How often [/auth/refresh] was called. *)
Definition refresh_calls (w : world) : nat :=
  count_calls is_refresh_call (net w).

Definition sent_for (t : nat) (c : net_call) : bool :=
  match c with
  | OpFetch owner _ _ => Nat.eqb owner t
  | RefreshFetch _ _ _ => false
  end.

(** How often the operation of the call [t] was sent. *)
Definition sends_of (t : nat) (w : world) : nat :=
  count_calls (sent_for t) (net w).

Definition stage_of (w : world) (t : nat) : option stage :=
  t_stage <$> tasks w !! t.

End Methods.

(** ** The statements under study, as predicates on inputs *)

(** The three entries [clearToken] removes. *)
Definition session_keys : list string := ["accessToken"; "refreshToken"; "user"].

(** The message of an error carries [what]. *)
Definition carries (what : string) (o : outcome) : bool :=
  match o with
  | Rejected (Error m) => includes what m
  | _ => false
  end.

(** "The error carries both the status code and any server-supplied
    message field (detail or message)". *)
Definition carries_status_and_message `{Runtime} (r : response) (o : outcome) : Prop :=
  carries (pretty (status r)) o = true /\
  forall data k s,
    read_data r = Some data -> k ∈ ["detail"; "message"] ->
    get data k = Some (JStr s) -> carries s o = true.

(** "For every structured non-binary object body, the body is
    JSON-serialized and the content-type header is set accordingly". *)
Definition structured_body_sent_as_json `{Runtime} (tok : value) (o : options) : Prop :=
  forall j,
    opt_body o = BodyValue j -> truthy_json j = true -> typeof_object j = true ->
    opt_body (build_config tok o) = BodyValue (JStr (JSON_stringify j)) /\
    opt_headers (build_config tok o) !! "Content-Type" = Some "application/json".

(** "No explicit Content-Type header is present on the outgoing
    request". *)
Definition no_content_type_sent `{Runtime} (tok : value) (o : options) : Prop :=
  forall k, names_content_type k = true ->
            opt_headers (build_config tok o) !! k = None.

(** "For every request whose body is binary/multipart (FormData), the
    body is sent unmodified and no explicit Content-Type header is
    present". *)
Definition form_data_passed_through `{Runtime} (tok : value) (o : options) : Prop :=
  forall entries,
    opt_body o = BodyFormData entries ->
    opt_body (build_config tok o) = BodyFormData entries /\
    no_content_type_sent tok o.

(** The events in which the [fetch] of each listed call settles with the
    listed response, in this order. *)
Definition deliver (ds : list (nat * response)) : list event :=
  (fun d => FetchSettled (fst d) (FetchResponse (snd d))) <$> ds.

(** The callback a call subscribes, as line 131 builds it. *)
Definition waiter_of (w : world) (t : nat) : list waiter :=
  match tasks w !! t with
  | Some tk => [mkWaiter (t_endpoint tk) (t_options tk) t]
  | None => []
  end.

(** The call [fetch(url, config)] a resend of the waiter [cb] makes. *)
Definition resend `{Runtime} (c : client) (cb : waiter) : net_call :=
  OpFetch (w_promise cb) (baseURL c +:+ w_endpoint cb)
          (build_config (token c) (w_options cb)).

(** The stage a resend leaves its call at: at its [fetch], or rejected
    where line 90 throws. *)
Definition resent_stage (tok : value) : stage :=
  if sendable tok then AwaitFetch false else Settled (Rejected TypeError).

(** The calls of [fetch] that the resends of [cbs] make, in order. *)
Definition resends `{Runtime} (c : client) (cbs : list waiter) : list net_call :=
  if sendable (token c) then resend c <$> cbs else [].

(** What the resend of a call does to its entry in the table. *)
Definition resent (tok : value) (tk : task) : task :=
  mkTask (t_endpoint tk) (t_options tk) (resent_stage tok).

(** The [Authorization] header of a call as [fetch] received it. *)
Definition authorization (c : net_call) : option string :=
  match c with
  | OpFetch _ _ config => opt_headers config !! "Authorization"
  | RefreshFetch _ _ _ => None
  end.

(** The calls of [fetch] made on the way from [w] to [w']. *)
Definition calls_since (w w' : world) : list net_call :=
  drop (length (net w)) (net w').

(** "Every queued waiter plus the triggering operation is resent, each
    carrying Authorization: Bearer <new access token>". *)
Definition resent_with_bearer
    (newToken : value) (waiting : list waiter) (w w' : world) : Prop :=
  forall cb, cb ∈ waiting ->
    exists c, c ∈ calls_since w w' /\ sent_for (w_promise cb) c = true /\
              authorization c = Some ("Bearer " +:+ to_string newToken).

(** "That response is surfaced to the caller as an authentication
    failure", at the least: the caller receives an error of the API, as
    line 154 makes them. *)
Definition surfaced_as_api_error (o : outcome) : bool :=
  match o with
  | Rejected (Error _) => true
  | _ => false
  end.

(** What lines 116-119 do when they run in the state [w] with the token
    [tok] in the client and lead to [w']: the flag is cleared and the
    waiter list emptied; where line 90 returns for [tok], each of
    [waiting] is sent once more, in this order and nothing else, with
    [Bearer tok] where [tok] is truthy and with the caller's own
    [Authorization] otherwise, and is then at its [fetch] without a
    further retry; where line 90 throws, nothing is sent and each of
    them is rejected with the TypeError; and whatever happens afterwards,
    none of them is sent again. *)
Definition fanned_out `{Runtime}
    (tok : value) (waiting : list waiter) (w w' : world) : Prop :=
  token (cl w') = tok /\
  isRefreshing (cl w') = false /\
  refreshSubscribers (cl w') = [] /\
  (if sendable tok
   then
     net w' = net w ++ (resend (cl w') <$> waiting) /\
     forall cb, cb ∈ waiting ->
       opt_headers (build_config tok (w_options cb)) !! "Authorization"
       = (if truthy tok then Some ("Bearer " +:+ to_string tok)
          else opt_headers (w_options cb) !! "Authorization") /\
       sends_of (w_promise cb) w' = sends_of (w_promise cb) w + 1 /\
       stage_of w' (w_promise cb) = Some (AwaitFetch false)
   else
     net w' = net w /\
     forall cb, cb ∈ waiting ->
       sends_of (w_promise cb) w' = sends_of (w_promise cb) w /\
       stage_of w' (w_promise cb) = Some (Settled (Rejected TypeError))) /\
  forall cb rest w'',
    cb ∈ waiting -> run w' rest = Some w'' ->
    sends_of (w_promise cb) w'' = sends_of (w_promise cb) w'.

(** The stages from which [request] makes no further call. *)
Definition final (s : stage) : bool :=
  match s with
  | AwaitFetch false | Settled _ => true
  | _ => false
  end.

(** How often a call may have been sent, by its stage. *)
Definition send_bound (s : stage) : nat := if final s then 2 else 1.

(** What holds of the waiter list and of the calls made so far in every
    state the client reaches. *)
Record consistent (w : world) : Prop := mkConsistent {
  waiters_subscribed :
    forall cb, cb ∈ refreshSubscribers (cl w) ->
      tasks w !! w_promise cb
      = Some (mkTask (w_endpoint cb) (w_options cb) Subscribed);
  waiters_distinct : NoDup (w_promise <$> refreshSubscribers (cl w));
  sends_bounded :
    forall t tk, tasks w !! t = Some tk ->
      sends_of t w <= send_bound (t_stage tk);
  sends_none : forall t, length (tasks w) <= t -> sends_of t w = 0
}.

(** ** A concrete runtime and concrete inputs for the examples *)

Definition dquote : string := String (Ascii.ascii_of_nat 34) "".

(** [JSON.stringify] on values whose strings need no escaping. *)
Fixpoint show_json (j : json) : string :=
  match j with
  | JNull => "null"
  | JBool true => "true"
  | JBool false => "false"
  | JNum shown => shown
  | JStr s => dquote +:+ s +:+ dquote
  | JArr items => "[" +:+ join_comma (List.map show_json items) +:+ "]"
  | JObj fields =>
      "{" +:+ join_comma
                (List.map (fun kv => dquote +:+ fst kv +:+ dquote +:+ ":"
                                     +:+ show_json (snd kv)) fields)
          +:+ "}"
  end.

Definition not_found : json := JObj [("detail", JStr "Not found")].
Definition new_access : json := JObj [("access_token", JStr "A2")].
Definition payload : json := JObj [("name", JStr "laptop")].
Definition login_body : json :=
  JObj [("access_token", JStr "A1"); ("user", JObj [("id", JNum "7")])].

(** An object that hides the [toString] it would inherit, as
    [{"toString": 1}] parses, and bodies that carry it. *)
Definition no_string : json := JObj [("toString", JNum "1")].
Definition detail_no_string : json := JObj [("detail", no_string)].
Definition access_no_string : json := JObj [("access_token", no_string)].

(** [JSON.parse] on the texts of the values above; any other text is
    taken as malformed. *)
Definition parse_known (text : string) : option json :=
  snd <$> list_find (fun v => String.eqb (show_json v) text = true)
                    [not_found; new_access; payload; login_body; JObj [];
                     detail_no_string; access_no_string].

#[local] Instance demo_runtime : Runtime :=
  {| JSON_parse := parse_known; JSON_stringify := show_json |}.

Definition demo_browser : browser :=
  mkBrowser (<["user" := "u"]> (<["refreshToken" := "R1"]> (<["accessToken" := "A1"]> ∅))) "/".

(** A client that starts with access token [A1] and refresh token [R1]. *)
Definition demo_world : world := new_ApiClient "http://api" (Some demo_browser).

Definition plain_get : options := mkOptions None ∅ BodyAbsent.

Definition reply (st : N) (data : json) : response :=
  mkResponse st (Some "application/json") (show_json data).

Definition expired : response := reply 401 not_found.

(** An object body sent with a content type of the caller's own. *)
Definition post_as_text : options :=
  mkOptions (Some "POST") {["Content-Type" := "text/plain"]} (BodyValue payload).

Definition upload : options :=
  mkOptions (Some "POST") ∅ (BodyFormData [("file", "po.pdf")]).

(** An upload whose caller names a content type in small letters. *)
Definition upload_as_form : options :=
  mkOptions (Some "POST") {["content-type" := "multipart/form-data"]}
            (BodyFormData [("file", "po.pdf")]).

(** The client after the host has called [request('/assets/9')]. *)
Definition one_call : world := request "/assets/9" plain_get true demo_world.

(** The state an interleaving leads to from [demo_world]. *)
Definition after (trace : list event) : world :=
  default demo_world (run demo_world trace).

(** Two calls are pending. *)
Definition two_calls : list event :=
  [Request "/assets/" plain_get true; Request "/tickets/" plain_get true].

(** Two calls found the token expired: the first waits for the refresh it
    started, the second is on the waiter list. *)
Definition refresh_in_flight : list event :=
  two_calls ++ deliver [(0, expired); (1, expired)].

(** As [refresh_in_flight], with a third call still at its [fetch]. *)
Definition third_call_pending : list event :=
  two_calls ++ [Request "/users/" plain_get true]
  ++ deliver [(0, expired); (1, expired)].

(** One call found the token expired, the refresh succeeded and the call
    was sent again. *)
Definition retried_once : list event :=
  [Request "/assets/" plain_get true;
   FetchSettled 0 (FetchResponse expired);
   RefreshSettled 0 (FetchResponse (reply 200 new_access))].

(** A response without a body that reads as JSON. *)
Definition html_401 : response := mkResponse 401 (Some "text/html") "<html>".

(** As [refresh_in_flight]; then the refresh is answered 200 with
    [new_access] and [clearToken] runs before the call that started the
    refresh resumes. *)
Definition cleared_before_resuming : list event :=
  refresh_in_flight
  ++ [RefreshArrived 0 (FetchResponse (reply 200 new_access)); ClearToken].

(** Both pending calls are answered 401, the second one after the refresh
    that the first one starts has succeeded. *)
Definition late_replies : list event :=
  [FetchSettled 0 (FetchResponse expired);
   RefreshSettled 0 (FetchResponse (reply 200 new_access));
   FetchSettled 1 (FetchResponse expired)].

Definition late_401 : list event := two_calls ++ late_replies.

(** "The refresh endpoint is invoked exactly once" along [trace]. *)
Definition refreshed_once `{Runtime} (w : world) (trace : list event) : Prop :=
  exists w', run w trace = Some w' /\ refresh_calls w' = refresh_calls w + 1.

(** Two calls find the token expired, the second while the refresh of the
    first is in flight; the refresh endpoint then answers 401. *)
Definition refresh_rejected : list event :=
  refresh_in_flight ++ [RefreshSettled 0 (FetchResponse expired)].

(** As [third_call_pending]; then the refresh is answered 200 with
    [new_access], and the call that started it has not resumed yet. *)
Definition refresh_returned : list event :=
  third_call_pending ++ [RefreshArrived 0 (FetchResponse (reply 200 new_access))].

(** ** More of the client: [logout], [createAssetRelationship] *)

(** [a || b] where [b] is not [undefined]. *)
Definition or_json (a : value) (b : json) : json :=
  match a with
  | Some j => if truthy_json j then j else b
  | None => b
  end.

(** The options of line 208. *)
Definition logout_options : options := mkOptions (Some "POST") ∅ BodyAbsent.

(** The body of lines 608-614.  [3.0] is the number 3. *)
Definition relationship_body (targetAssetId relationshipType opts : json) : json :=
  JObj [("target_asset_id", targetAssetId);
        ("relationship_type", relationshipType);
        ("description", or_json (get opts "description") JNull);
        ("criticality", or_json (get opts "criticality") (JNum "3"));
        ("created_by", or_json (get opts "createdBy") JNull)].

Section MoreMethods.
Context `{Runtime}.

(** Line 208, up to the [await]. *)
Definition logout_begin (w : world) : world :=
  request "/auth/logout" logout_options true w.

(** Line 209, from the moment the call of [request] has settled.  An
    [async] method without [return] resolves with [undefined]: the [None]
    here; [Some e] is the error [logout] throws on. *)
Definition logout_resume (o : outcome) (w : world) : world * option error :=
  match o with
  | Resolved _ => (clearToken w, None)
  | Rejected e => (w, Some e)
  end.

(** Lines 605-616, up to the [await] inside [request].  The two ids and
    the type are given values (the page passes strings); [opts] is the
    fourth argument, [{}] when it is left out.  The template literal of
    line 606 throws for an id without a string, and reading a property of
    [null] throws as well, both before [request] is called. *)
Definition createAssetRelationship
    (sourceAssetId : value) (targetAssetId relationshipType opts : json)
    (w : world) : error + world :=
  if negb (stringable sourceAssetId) then inl TypeError
  else
    match opts with
    | JNull => inl TypeError
    | _ =>
        inr (request ("/assets/" +:+ to_string sourceAssetId +:+ "/relationships")
               (mkOptions (Some "POST") ∅
                  (BodyValue (relationship_body targetAssetId relationshipType opts)))
               true w)
    end.

End MoreMethods.

(** The responses with which [attemptTokenRefresh] throws in every
    state, lines 60-79: [fetch] rejected, a status outside the success
    range, a body that is not JSON, or the body [null].  With any other
    response it throws only where [setItem_throws]. *)
Definition refresh_fails `{Runtime} (r : fetch_result) : bool :=
  match r with
  | FetchRejected => true
  | FetchResponse resp =>
      negb (ok resp) ||
      match response_json resp with
      | None | Some JNull => true
      | Some _ => false
      end
  end.

(** ** [pages/assets/relationships.jsx] *)

(** Lines 22-29: value, label, colour. *)
Definition relationshipTypes : list (string * string * string) :=
  [("depends_on", "Depends On", "orange");
   ("parent_of", "Parent Of", "blue");
   ("child_of", "Child Of", "purple");
   ("connected_to", "Connected To", "cyan");
   ("runs_on", "Runs On", "green");
   ("backs_up_to", "Backs Up To", "yellow")].

(** [s === v] for a string [s]. *)
Definition is_string (s : string) (v : value) : bool :=
  match v with
  | Some (JStr s') => String.eqb s s'
  | _ => false
  end.

(** Lines 95-98. *)
Definition getTypeColor (type : value) : string :=
  match List.find (fun t => is_string (fst (fst t)) type) relationshipTypes with
  | Some found => snd found
  | None => "slate"
  end.

(** ** Refreshes by call, sessions, provenance *)

Definition refresh_for (t : nat) (c : net_call) : bool :=
  match c with
  | RefreshFetch owner _ _ => Nat.eqb owner t
  | OpFetch _ _ _ => false
  end.

(** How often the call [t] of [request] called [/auth/refresh]. *)
Definition refreshes_of (t : nat) (w : world) : nat :=
  count_calls (refresh_for t) (net w).

(** A call that has not asked for a refresh and still may. *)
Definition may_refresh (s : stage) : bool :=
  match s with
  | AwaitFetch true => true
  | _ => false
  end.

(** The three values of the session as code outside the client reads
    them: the two fields and the storage. *)
Definition session (w : world) : value * value * option (gmap string string) :=
  (token (cl w), refreshToken (cl w), localStorage <$> win w).

(** Where a logged call comes from: an operation is the one of its call of
    [request], sent to the base URL with some token; a refresh goes to
    [/auth/refresh] of the base URL. *)
Definition well_sourced `{Runtime} (w : world) (c : net_call) : Prop :=
  match c with
  | OpFetch t url config =>
      exists tk tok,
        tasks w !! t = Some tk /\
        url = baseURL (cl w) +:+ t_endpoint tk /\
        config = build_config tok (t_options tk)
  | RefreshFetch t url _ =>
      is_Some (tasks w !! t) /\ url = baseURL (cl w) +:+ "/auth/refresh"
  end.

(** What holds of the refresh coordination in every state the client
    reaches, beside [consistent]. *)
Record coordinated `{Runtime} (w : world) : Prop := mkCoordinated {
  idle_none :
    isRefreshing (cl w) = false ->
    forall t, stage_of w t <> Some AwaitRefresh;
  refreshing_one :
    isRefreshing (cl w) = true ->
    exists t, stage_of w t = Some AwaitRefresh;
  refresh_unique :
    forall t u, stage_of w t = Some AwaitRefresh ->
                stage_of w u = Some AwaitRefresh -> t = u;
  subscribed_listed :
    forall t, stage_of w t = Some Subscribed ->
              t ∈ w_promise <$> refreshSubscribers (cl w);
  refreshes_bounded :
    forall t tk, tasks w !! t = Some tk ->
      refreshes_of t w <= (if may_refresh (t_stage tk) then 0 else 1);
  refreshes_none : forall t, length (tasks w) <= t -> refreshes_of t w = 0;
  calls_sourced : forall c, c ∈ net w -> well_sourced w c
}.

(** ** Further concrete inputs *)

(** A client outside a browser, without tokens, after one call of
    [request]. *)
Definition anonymous_call : world :=
  request "/reference/roles" plain_get true (new_ApiClient "http://api" None).

(** A login response with both tokens. *)
Definition login_both : json :=
  JObj [("access_token", JStr "A3"); ("refresh_token", JStr "R3");
        ("user", JObj [("id", JNum "7")])].

(** As [demo_runtime], with a parser that also knows [login_both]. *)
Definition login_runtime : Runtime :=
  {| JSON_parse := fun text =>
       if String.eqb text (show_json login_both) then Some login_both
       else parse_known text;
     JSON_stringify := show_json |}.

(** The form of the relationships page left as it opens, with the slider
    at zero. *)
Definition empty_form : json :=
  JObj [("description", JStr ""); ("criticality", JNum "0")].

(** The first call of [two_calls] as [fetch] received it. *)
Definition first_call : net_call :=
  OpFetch 0 "http://api/assets/" (build_config (Some (JStr "A1")) plain_get).

(** One call settled with a 404, then another call was made. *)
Definition settled_then_more : list event :=
  [Request "/assets/9" plain_get true;
   FetchSettled 0 (FetchResponse (reply 404 not_found));
   Request "/assets/" plain_get true].

(** * Properties *)

Section Properties.
Context `{Runtime}.

(** ** Reading the model *)

Lemma stage_of_set_stage_eq t s w :
  is_Some (tasks w !! t) -> stage_of (set_stage t s w) t = Some s.
Proof.
  intros [tk Htk]. unfold stage_of, set_stage. simpl.
  rewrite list_lookup_alter_eq, Htk. reflexivity.
Qed.

Lemma stage_of_set_stage_ne t t' s w :
  t <> t' -> stage_of (set_stage t s w) t' = stage_of w t'.
Proof.
  intros Hne. unfold stage_of, set_stage. simpl.
  rewrite list_lookup_alter_ne by done. reflexivity.
Qed.

Lemma persisted_clearToken w k :
  k ∈ session_keys -> persisted (clearToken w) k = None.
Proof.
  intros Hk. unfold persisted, clearToken, with_storage, with_client. simpl.
  destruct (win w) as [b|]; [|reflexivity]. simpl.
  unfold session_keys in Hk.
  repeat (apply elem_of_cons in Hk as [->|Hk]); [..|by apply elem_of_nil in Hk];
    by simplify_map_eq.
Qed.

Lemma persisted_insert w k k' v :
  is_Some (persisted w k) ->
  is_Some (persisted (with_storage (insert k' v) w) k).
Proof.
  unfold persisted, with_storage. simpl.
  destruct (win w) as [b|]; simpl; [|done].
  intros Hk. destruct (decide (k' = k)) as [->|Hne].
  - rewrite lookup_insert_eq. eauto.
  - by rewrite lookup_insert_ne.
Qed.

Lemma persisted_setToken w k tok :
  is_Some (persisted w k) -> is_Some (persisted (setToken tok w) k).
Proof. intros Hk. unfold setToken. by apply persisted_insert. Qed.

Lemma persisted_setRefreshToken w k tok :
  is_Some (persisted w k) -> is_Some (persisted (setRefreshToken tok w) k).
Proof. intros Hk. unfold setRefreshToken. by apply persisted_insert. Qed.

(** The resends and the stage changes leave the browser alone. *)
Lemma win_request_begin t endpoint o w : win (request_begin t endpoint o w) = win w.
Proof. unfold request_begin. by destruct (sendable _). Qed.

Lemma cl_request_begin t endpoint o w : cl (request_begin t endpoint o w) = cl w.
Proof. unfold request_begin. by destruct (sendable _). Qed.

Lemma returned_request_begin t endpoint o w :
  returned (request_begin t endpoint o w) = returned w.
Proof. unfold request_begin. by destruct (sendable _). Qed.

Lemma win_request_again t endpoint o w : win (request_again t endpoint o w) = win w.
Proof. unfold request_again. by rewrite win_request_begin. Qed.

Lemma cl_request_again t endpoint o w : cl (request_again t endpoint o w) = cl w.
Proof. unfold request_again. by rewrite cl_request_begin. Qed.

Lemma returned_request_again t endpoint o w :
  returned (request_again t endpoint o w) = returned w.
Proof. unfold request_again. by rewrite returned_request_begin. Qed.

Lemma win_request endpoint o retry w : win (request endpoint o retry w) = win w.
Proof. unfold request. by rewrite win_request_begin. Qed.

Lemma cl_request endpoint o retry w : cl (request endpoint o retry w) = cl w.
Proof. unfold request. by rewrite cl_request_begin. Qed.

Lemma returned_request endpoint o retry w :
  returned (request endpoint o retry w) = returned w.
Proof. unfold request. by rewrite returned_request_begin. Qed.

(** A resend sends when line 90 returns, and rejects its call and sends
    nothing when it throws. *)
Lemma net_request_again t endpoint o w :
  net (request_again t endpoint o w)
  = net w ++ (if sendable (token (cl w))
              then [OpFetch t (baseURL (cl w) +:+ endpoint)
                      (build_config (token (cl w)) o)]
              else []).
Proof.
  unfold request_again, request_begin. simpl.
  destruct (sendable _); simpl; [done|by rewrite app_nil_r].
Qed.

Lemma tasks_request_again t endpoint o w :
  tasks (request_again t endpoint o w)
  = alter (resent (token (cl w))) t (tasks w).
Proof.
  unfold request_again, request_begin, resent, resent_stage. simpl.
  destruct (sendable _); simpl; [done|].
  by rewrite list_alter_alter_eq.
Qed.

Lemma foldl_request_again_frame cbs : forall w,
  let w' := foldl (fun w' cb => request_again (w_promise cb) (w_endpoint cb)
                                              (w_options cb) w') w cbs in
  cl w' = cl w /\ win w' = win w /\
  net w' = net w ++ resends (cl w) cbs /\
  length (tasks w') = length (tasks w) /\
  returned w' = returned w.
Proof.
  induction cbs as [|cb cbs IH]; intros w; simpl.
  - unfold resends. destruct (sendable _); by rewrite app_nil_r.
  - destruct (IH (request_again (w_promise cb) (w_endpoint cb) (w_options cb) w))
      as (Hcl & Hwin & Hnet & Hlen & Hret).
    rewrite Hcl, Hwin, Hnet, Hlen, Hret.
    rewrite cl_request_again, win_request_again, net_request_again,
      tasks_request_again, returned_request_again, length_alter.
    unfold resends, resend. destruct (sendable _); simpl.
    + by rewrite <- app_assoc.
    + by rewrite !app_nil_r.
Qed.

Lemma onTokenRefreshed_frame newToken w :
  win (onTokenRefreshed newToken w) = win w /\
  net (onTokenRefreshed newToken w)
  = net w ++ resends (cl w) (refreshSubscribers (cl w)) /\
  token (cl (onTokenRefreshed newToken w)) = token (cl w) /\
  refreshToken (cl (onTokenRefreshed newToken w)) = refreshToken (cl w) /\
  isRefreshing (cl (onTokenRefreshed newToken w)) = isRefreshing (cl w) /\
  baseURL (cl (onTokenRefreshed newToken w)) = baseURL (cl w) /\
  refreshSubscribers (cl (onTokenRefreshed newToken w)) = [] /\
  length (tasks (onTokenRefreshed newToken w)) = length (tasks w).
Proof.
  unfold onTokenRefreshed.
  destruct (foldl_request_again_frame (refreshSubscribers (cl w)) w)
    as (Hcl & Hwin & Hnet & Hlen & _).
  unfold clear_subscribers, with_client. simpl.
  rewrite Hcl, Hwin, Hnet, Hlen. done.
Qed.

Lemma persisted_redirect url w k : persisted (redirect url w) k = persisted w k.
Proof. unfold persisted, redirect. simpl. by destruct (win w). Qed.

Lemma persisted_refresh_failed t e w k :
  persisted (refresh_failed t e w) k = persisted w k.
Proof. unfold refresh_failed. apply (persisted_redirect _ (set_isRefreshing false w)). Qed.

Lemma persisted_request_fetch_settled t tk retry r w k :
  persisted (request_fetch_settled t tk retry r w) k = persisted w k.
Proof.
  unfold request_fetch_settled.
  destruct r as [|resp]; [reflexivity|].
  destruct (_ && truthy _); [|reflexivity].
  destruct (negb _); [|reflexivity]. cbv zeta.
  unfold attemptTokenRefresh_begin.
  destruct (refreshToken _) as [rt|]; [destruct (truthy_json rt)|];
    first [reflexivity | by rewrite persisted_refresh_failed].
Qed.

(** A successful refresh removes nothing from the storage. *)
Lemma persisted_refresh_success t tk tok w k :
  is_Some (persisted w k) ->
  is_Some (persisted
    (request_again t (t_endpoint tk) (t_options tk)
       (onTokenRefreshed tok (set_isRefreshing false (setToken tok w)))) k).
Proof.
  intros Hk. unfold persisted. rewrite win_request_again.
  destruct (onTokenRefreshed_frame tok (set_isRefreshing false (setToken tok w)))
    as (-> & _).
  by apply persisted_setToken.
Qed.

Lemma persisted_login_writes (access refresh : value) (user : string) w k :
  is_Some (persisted w k) ->
  is_Some (persisted
    (with_storage (insert "user" user)
       (if truthy refresh then setRefreshToken refresh (setToken access w)
        else setToken access w)) k).
Proof.
  intros Hk. apply persisted_insert.
  destruct (truthy refresh);
    [apply persisted_setRefreshToken|]; by apply persisted_setToken.
Qed.

Lemma persisted_login_settled r w k :
  is_Some (persisted w k) -> is_Some (persisted (fst (login_settled r w)) k).
Proof.
  intros Hk. unfold login_settled.
  destruct r as [|resp]; [done|].
  destruct (response_json resp) as [data|]; [|done].
  destruct data; try done;
    (destruct (negb (ok resp)); [done|];
     destruct (setItem_throws _ w); [done|];
     destruct (truthy _ && setItem_throws _ _);
       [by apply persisted_setToken|by apply persisted_login_writes]).
Qed.

(** [login] touches the two tokens and the storage, and nothing else. *)
Lemma login_settled_keeps r w :
  let w' := fst (login_settled r w) in
  tasks w' = tasks w /\ net w' = net w /\ returned w' = returned w /\
  baseURL (cl w') = baseURL (cl w) /\
  isRefreshing (cl w') = isRefreshing (cl w) /\
  refreshSubscribers (cl w') = refreshSubscribers (cl w).
Proof.
  unfold login_settled.
  destruct r as [|resp]; [done|].
  destruct (response_json resp) as [data|]; [|done].
  destruct data; try done;
    (destruct (negb (ok resp)); [done|];
     destruct (setItem_throws _ w); [done|];
     destruct (truthy _ && setItem_throws _ _); [done|];
     by destruct (truthy _)).
Qed.

(** [attemptTokenRefresh] ends in one of two ways: the session cleared
    and an error thrown, or the token set and returned. *)
Lemma attemptTokenRefresh_resume_cases r w :
  (exists e, attemptTokenRefresh_resume r w = (clearToken w, inl e)) \/
  (exists tok, setItem_throws tok w = false /\
               attemptTokenRefresh_resume r w = (setToken tok w, inr tok)).
Proof.
  unfold attemptTokenRefresh_resume.
  destruct r as [|resp]; [left; eauto|].
  destruct (negb (ok resp)); [left; eauto|].
  destruct (response_json resp) as [data|]; [|left; eauto].
  destruct data; try (left; by eauto);
    (destruct (setItem_throws _ w) eqn:Hthrows; [left; by eauto|right; by eauto]).
Qed.

Lemma persisted_request_refresh_resumed t tk res w k :
  persisted (request_refresh_resumed t tk res w) k = persisted w k.
Proof.
  unfold request_refresh_resumed. destruct res as [e|tok].
  - apply persisted_refresh_failed.
  - unfold persisted. rewrite win_request_again.
    by destruct (onTokenRefreshed_frame tok (set_isRefreshing false w)) as (-> & _).
Qed.

Lemma step_removes_all_or_nothing w e w' k :
  step w e = Some w' -> is_Some (persisted w k) -> persisted w' k = None ->
  forall k', k' ∈ session_keys -> persisted w' k' = None.
Proof.
  intros Hstep Hk Hgone.
  assert (Hkeep : is_Some (persisted w' k) -> forall k', k' ∈ session_keys -> persisted w' k' = None).
  { rewrite Hgone. by intros [? ?]. }
  destruct e as [endpoint o retry|t r|t r|t|t r|r|]; simpl in Hstep.
  - injection Hstep as <-. apply Hkeep.
    unfold persisted. by rewrite win_request.
  - destruct (tasks w !! t) as [tk|]; [|done].
    destruct (t_stage tk); try done. injection Hstep as <-.
    apply Hkeep. by rewrite persisted_request_fetch_settled.
  - destruct (tasks w !! t) as [tk|]; [|done].
    destruct (t_stage tk); try done.
    destruct (returned w !! t); [done|]. injection Hstep as <-.
    unfold refresh_arrived in *.
    destruct (attemptTokenRefresh_resume_cases r w) as [[e He]|(tok & _ & He)];
      rewrite He in *.
    + intros. by apply (persisted_clearToken w).
    + apply Hkeep. by apply (persisted_setToken w).
  - destruct (tasks w !! t) as [tk|]; [|done].
    destruct (t_stage tk); try done.
    destruct (returned w !! t) as [res|]; [|done]. injection Hstep as <-.
    apply Hkeep. by rewrite persisted_request_refresh_resumed.
  - destruct (tasks w !! t) as [tk|]; [|done].
    destruct (t_stage tk); try done. injection Hstep as <-.
    unfold request_refresh_settled in *.
    destruct (attemptTokenRefresh_resume_cases r w) as [[e He]|(tok & _ & He)];
      rewrite He in *.
    + intros. rewrite persisted_request_refresh_resumed.
      by apply persisted_clearToken.
    + apply Hkeep. rewrite persisted_request_refresh_resumed.
      by apply persisted_setToken.
  - injection Hstep as <-. apply Hkeep. by apply persisted_login_settled.
  - injection Hstep as <-. intros. by apply persisted_clearToken.
Qed.

(** ** The token store *)

(** C6. [clearToken] leaves the access token, the refresh token and the
    cached identity absent, in memory and in the storage; and it does so
    in one step of the event loop: whenever a step of the client removes
    one of the three entries, the state that follows, the first one any
    other code can read, has none of the three. *)
Theorem clearToken_atomic w :
  (token (cl (clearToken w)) = null /\
   refreshToken (cl (clearToken w)) = null /\
   forall k, k ∈ session_keys -> persisted (clearToken w) k = None) /\
  (step w ClearToken = Some (clearToken w)) /\
  (forall e w',
     step w e = Some w' ->
     (exists k, k ∈ session_keys /\ is_Some (persisted w k) /\ persisted w' k = None) ->
     forall k, k ∈ session_keys -> persisted w' k = None).
Proof.
  split; [|split].
  - repeat split. apply persisted_clearToken.
  - reflexivity.
  - intros e w' Hstep (k & _ & Hk & Hgone).
    by apply (step_removes_all_or_nothing w e w' k).
Qed.

(** ** The request executor *)

Lemma lookup_request_headers_content_type tok o :
  request_headers tok o !! "Content-Type"
  = Some (default "application/json" (opt_headers o !! "Content-Type")).
Proof.
  unfold request_headers.
  assert (Hu : (opt_headers o ∪ {["Content-Type" := "application/json"]}) !! "Content-Type"
               = Some (default "application/json" (opt_headers o !! "Content-Type"))).
  { rewrite lookup_union, lookup_singleton_eq.
    by destruct (opt_headers o !! "Content-Type"). }
  destruct (truthy tok); [|done].
  by rewrite lookup_insert_ne.
Qed.

Lemma names_content_type_not_authorization k :
  names_content_type k = true -> k <> "Authorization".
Proof. by intros Hk ->. Qed.

(** Every header but the two the client writes is the caller's. *)
Lemma lookup_request_headers_other tok o k :
  k <> "Content-Type" -> k <> "Authorization" ->
  request_headers tok o !! k = opt_headers o !! k.
Proof.
  intros Hct Hauth. unfold request_headers.
  assert (Hu : (opt_headers o ∪ {["Content-Type" := "application/json"]}) !! k
               = opt_headers o !! k).
  { rewrite lookup_union, lookup_singleton_ne by done.
    by destruct (opt_headers o !! k). }
  destruct (truthy tok); [|done].
  by rewrite lookup_insert_ne.
Qed.

(** C7 (amended). A [FormData] body reaches [fetch] as it is, not
    serialised, and the outgoing headers have no property spelled
    [Content-Type]; a content type the caller named in another spelling,
    such as [content-type], is sent as given, so that no content type
    goes out exactly when the caller named none in another spelling.  An
    object body reaches [fetch] as its [JSON.stringify] text; the
    property [Content-Type] is then the caller's own where the caller
    gave one and [application/json] otherwise, and a content type the
    caller named in another spelling is sent beside it. *)
Theorem body_passthrough tok o :
  (forall entries,
     opt_body o = BodyFormData entries ->
     opt_body (build_config tok o) = BodyFormData entries /\
     (forall k, names_content_type k = true ->
        opt_headers (build_config tok o) !! k
        = if decide (k = "Content-Type") then None else opt_headers o !! k) /\
     (no_content_type_sent tok o <->
      forall k, names_content_type k = true -> k <> "Content-Type" ->
                opt_headers o !! k = None)) /\
  (forall j,
     opt_body o = BodyValue j -> truthy_json j = true -> typeof_object j = true ->
     opt_body (build_config tok o) = BodyValue (JStr (JSON_stringify j)) /\
     (forall k, names_content_type k = true ->
        opt_headers (build_config tok o) !! k
        = if decide (k = "Content-Type")
          then Some (default "application/json" (opt_headers o !! "Content-Type"))
          else opt_headers o !! k)).
Proof.
  split.
  - intros entries Hb.
    assert (Hall : forall k, names_content_type k = true ->
              opt_headers (build_config tok o) !! k
              = if decide (k = "Content-Type") then None else opt_headers o !! k).
    { intros k Hk. unfold build_config. rewrite Hb. simpl.
      destruct (decide (k = "Content-Type")) as [->|Hne].
      - apply lookup_delete_eq.
      - rewrite lookup_delete_ne by done.
        apply lookup_request_headers_other; [done|].
        by apply names_content_type_not_authorization. }
    split; [|split; [exact Hall|]].
    + unfold build_config. by rewrite Hb.
    + unfold no_content_type_sent. split.
      * intros Hnone k Hk Hne. specialize (Hnone k Hk).
        rewrite (Hall k Hk) in Hnone. by rewrite decide_False in Hnone.
      * intros Hnone k Hk. rewrite (Hall k Hk).
        destruct (decide (k = "Content-Type")); [done|]. by apply Hnone.
  - intros j Hb Ht Ho. unfold build_config. rewrite Hb. simpl.
    rewrite Ht, Ho. simpl. split; [reflexivity|].
    intros k Hk. destruct (decide (k = "Content-Type")) as [->|Hne].
    + apply lookup_request_headers_content_type.
    + apply lookup_request_headers_other; [done|].
      by apply names_content_type_not_authorization.
Qed.

Lemma ok_not_401 resp : ok resp = true -> (status resp =? 401)%N = false.
Proof.
  unfold ok. intros [H1 H2]%andb_true_iff.
  apply N.leb_le in H2. apply N.eqb_neq. lia.
Qed.

(** A response that neither starts nor joins a refresh settles the call
    with what lines 143-157 make of it. *)
Lemma step_decodes w t tk retry resp :
  tasks w !! t = Some tk -> t_stage tk = AwaitFetch retry ->
  (status resp =? 401)%N && retry && truthy (refreshToken (cl w)) = false ->
  step w (FetchSettled t (FetchResponse resp))
  = Some (set_stage t (Settled (decode resp)) w) /\
  stage_of (set_stage t (Settled (decode resp)) w) t = Some (Settled (decode resp)).
Proof.
  intros Htk Hst Hno. simpl. rewrite Htk, Hst.
  unfold request_fetch_settled. rewrite Hno.
  split; [reflexivity|]. apply stage_of_set_stage_eq. eauto.
Qed.

Lemma api_error_value_cases data st :
  api_error_value data st
  = if truthy (get data "detail") then get data "detail"
    else if truthy (get data "message") then get data "message"
    else Some (JStr ("API request failed: " +:+ pretty st)).
Proof.
  unfold api_error_value, or_else.
  destruct (truthy (get data "detail")); [reflexivity|].
  destruct (truthy (get data "message")); reflexivity.
Qed.

Lemma decode_not_ok resp :
  ok resp = false ->
  decode resp
  = Rejected match read_data resp with
             | None => SyntaxError
             | Some JNull => TypeError
             | Some data => api_error data (status resp)
             end.
Proof.
  intros Hok. unfold decode. rewrite Hok.
  destruct (read_data resp) as [data|]; [|done]. by destruct data.
Qed.

(** C8 (amended). A response outside the success range that does not
    start or join a refresh makes [request] throw, and nothing else: no
    call is made and the client is left as it was.  Where the body reads
    as a JSON value other than [null], what is thrown is made from the
    [detail] of the body when that is truthy, else from its [message]
    when that is truthy, else from the text [API request failed: ]
    followed by the status code: an [Error] with that value as its
    message, or the TypeError of the conversion where the value has no
    string (an object with a [toString] key of its own).  The status is
    carried in the last of the three cases only.  A body that does not
    read as JSON throws the SyntaxError of the parser, and the body
    [null] a TypeError. *)
Theorem api_error_content w t tk retry resp :
  tasks w !! t = Some tk -> t_stage tk = AwaitFetch retry ->
  ok resp = false ->
  (status resp =? 401)%N && retry && truthy (refreshToken (cl w)) = false ->
  exists w',
    step w (FetchSettled t (FetchResponse resp)) = Some w' /\
    stage_of w' t
    = Some (Settled (Rejected
        match read_data resp with
        | None => SyntaxError
        | Some JNull => TypeError
        | Some data =>
            match ToString
                    (if truthy (get data "detail") then get data "detail"
                     else if truthy (get data "message") then get data "message"
                     else Some (JStr ("API request failed: "
                                      +:+ pretty (status resp)))) with
            | Some message => Error message
            | None => TypeError
            end
        end)) /\
    net w' = net w /\ cl w' = cl w.
Proof.
  intros Htk Hst Hok Hno.
  destruct (step_decodes w t tk retry resp Htk Hst Hno) as [Hstep Hstage].
  eexists. split; [exact Hstep|]. split; [|done].
  rewrite Hstage, (decode_not_ok resp Hok).
  destruct (read_data resp) as [data|]; [|done].
  unfold api_error.
  rewrite (api_error_value_cases data (status resp)). by destruct data.
Qed.

(** C9. A response in the success range settles the call as follows: a
    body that is empty and not announced as JSON gives the empty object;
    a body that is not empty gives what [JSON.parse] makes of it, and
    where that fails the call throws the [SyntaxError] of the parser,
    which is neither the rejection of [fetch] nor an [Error] of line
    154. *)
Theorem response_decoding w t tk retry resp :
  tasks w !! t = Some tk -> t_stage tk = AwaitFetch retry ->
  ok resp = true ->
  exists w' o,
    step w (FetchSettled t (FetchResponse resp)) = Some w' /\
    stage_of w' t = Some (Settled o) /\
    (announces_json resp = false -> body_text resp = "" ->
     o = Resolved (JObj [])) /\
    (body_text resp <> "" ->
     o = match JSON_parse (body_text resp) with
         | Some data => Resolved data
         | None => Rejected SyntaxError
         end) /\
    SyntaxError <> FetchError /\ (forall m, SyntaxError <> Error m).
Proof.
  intros Htk Hst Hok.
  assert (Hno : (status resp =? 401)%N && retry && truthy (refreshToken (cl w)) = false)
    by (by rewrite (ok_not_401 resp Hok)).
  destruct (step_decodes w t tk retry resp Htk Hst Hno) as [Hstep Hstage].
  exists (set_stage t (Settled (decode resp)) w), (decode resp).
  split; [exact Hstep|]. split; [exact Hstage|].
  unfold decode, read_data, response_json. rewrite Hok.
  repeat split; try done.
  - intros -> ->. reflexivity.
  - intros Hne. apply String.eqb_neq in Hne. rewrite Hne.
    destruct (announces_json resp); by destruct (JSON_parse (body_text resp)).
Qed.

(** ** Login *)

(** C10. A login that succeeds with a body that has no [refresh_token]
    leaves the refresh token as it was, in the client and in the storage,
    and stores the [access_token] and the [user] of the body. *)
Theorem login_keeps_refresh_token r w w' data :
  login_settled r w = (w', Resolved data) ->
  get data "refresh_token" = undefined ->
  refreshToken (cl w') = refreshToken (cl w) /\
  persisted w' "refreshToken" = persisted w "refreshToken" /\
  token (cl w') = get data "access_token" /\
  (is_Some (win w) ->
   persisted w' "accessToken" = Some (to_string (get data "access_token")) /\
   persisted w' "user" = Some (stringify_stored (get data "user"))).
Proof.
  unfold login_settled. intros Hlogin Hnone.
  destruct r as [|resp]; [done|].
  destruct (response_json resp) as [d|]; [|done].
  assert (Hd : negb (ok resp) = false /\ d = data /\
               w' = with_storage (insert "user" (stringify_stored (get d "user")))
                      (if truthy (get d "refresh_token")
                       then setRefreshToken (get d "refresh_token")
                              (setToken (get d "access_token") w)
                       else setToken (get d "access_token") w)).
  { destruct d; try done;
      (destruct (negb (ok resp)); [done|];
       destruct (setItem_throws _ w); [done|];
       destruct (truthy _ && setItem_throws _ _); [done|];
       by injection Hlogin as <- <-). }
  destruct Hd as (_ & -> & ->). rewrite Hnone. simpl.
  unfold persisted, with_storage, setToken, with_client. simpl.
  destruct (win w) as [b|]; simpl.
  - clear Hlogin. split; [done|]. split; [by rewrite !lookup_insert_ne|].
    split; [done|]. intros _. split.
    + by rewrite lookup_insert_ne, lookup_insert_eq.
    + apply lookup_insert_eq.
  - do 3 (split; [done|]). by intros [? ?].
Qed.

(** ** Counting calls *)

Lemma count_calls_app p l1 l2 :
  count_calls p (l1 ++ l2) = count_calls p l1 + count_calls p l2.
Proof. unfold count_calls. by rewrite filter_app, length_app. Qed.

Lemma count_calls_one p c :
  count_calls p [c] = if p c then 1 else 0.
Proof.
  unfold count_calls. destruct (p c) eqn:Hp.
  - by rewrite filter_cons_True.
  - rewrite filter_cons_False; [done|]. by rewrite Hp.
Qed.

Lemma count_calls_cons p c l :
  count_calls p (c :: l) = (if p c then 1 else 0) + count_calls p l.
Proof. change (c :: l) with ([c] ++ l). by rewrite count_calls_app, count_calls_one. Qed.

Lemma resends_are_not_refresh_calls c cbs :
  count_calls is_refresh_call (resend c <$> cbs) = 0.
Proof.
  induction cbs as [|cb cbs IH]; [done|].
  rewrite fmap_cons, count_calls_cons, IH. reflexivity.
Qed.

Lemma resends_of_others c t cbs :
  t ∉ w_promise <$> cbs -> count_calls (sent_for t) (resend c <$> cbs) = 0.
Proof.
  induction cbs as [|cb cbs IH]; [done|].
  rewrite fmap_cons, not_elem_of_cons. intros [Hne Hnotin].
  rewrite fmap_cons, count_calls_cons, IH by done. simpl.
  apply Nat.eqb_neq in Hne. rewrite Nat.eqb_sym in Hne. by rewrite Hne.
Qed.

Lemma resends_of_waiter c t cbs :
  NoDup (w_promise <$> cbs) -> t ∈ w_promise <$> cbs ->
  count_calls (sent_for t) (resend c <$> cbs) = 1.
Proof.
  induction cbs as [|cb cbs IH]; [by intros _ ?%elem_of_nil|].
  rewrite !fmap_cons, NoDup_cons, elem_of_cons, count_calls_cons.
  intros [Hnotin Hnd] [->|Hin]; simpl.
  - rewrite Nat.eqb_refl, resends_of_others by done. reflexivity.
  - assert (Hne : w_promise cb <> t) by (intros Heq; apply Hnotin; by rewrite Heq).
    apply Nat.eqb_neq in Hne. rewrite Hne, IH by done. reflexivity.
Qed.

Lemma resends_app c l1 l2 : resends c (l1 ++ l2) = resends c l1 ++ resends c l2.
Proof. unfold resends. destruct (sendable _); [apply fmap_app|done]. Qed.

Lemma resends_ext c c' cbs :
  baseURL c = baseURL c' -> token c = token c' -> resends c cbs = resends c' cbs.
Proof. unfold resends, resend. by intros -> ->. Qed.

Lemma resends_not_refresh_calls c cbs :
  count_calls is_refresh_call (resends c cbs) = 0.
Proof.
  unfold resends. destruct (sendable _); [apply resends_are_not_refresh_calls|done].
Qed.

Lemma count_resends_others c t cbs :
  t ∉ w_promise <$> cbs -> count_calls (sent_for t) (resends c cbs) = 0.
Proof.
  unfold resends. destruct (sendable _); [apply resends_of_others|done].
Qed.

Lemma count_resends_waiter c t cbs :
  NoDup (w_promise <$> cbs) -> t ∈ w_promise <$> cbs ->
  count_calls (sent_for t) (resends c cbs) = if sendable (token c) then 1 else 0.
Proof.
  unfold resends. destruct (sendable _); [apply resends_of_waiter|done].
Qed.

Lemma resend_ext c c' cb :
  baseURL c = baseURL c' -> token c = token c' -> resend c cb = resend c' cb.
Proof. unfold resend. by intros -> ->. Qed.

(** ** The table of calls after the waiters were resent *)

Lemma resent_idemp tok tk : resent tok (resent tok tk) = resent tok tk.
Proof. reflexivity. Qed.

Lemma foldl_request_again_tasks cbs : forall w t,
  tasks (foldl (fun w' cb => request_again (w_promise cb) (w_endpoint cb)
                                           (w_options cb) w') w cbs) !! t
  = (if decide (t ∈ w_promise <$> cbs) then resent (token (cl w)) else id)
      <$> tasks w !! t.
Proof.
  induction cbs as [|cb cbs IH]; intros w t.
  - simpl. by destruct (tasks w !! t).
  - cbn [foldl]. rewrite IH, fmap_cons, cl_request_again, tasks_request_again.
    destruct (decide (w_promise cb = t)) as [<-|Hne].
    + rewrite list_lookup_alter_eq.
      rewrite (decide_True (P := w_promise cb ∈ w_promise cb :: _))
        by apply list_elem_of_here.
      destruct (tasks w !! w_promise cb) as [tk|]; simpl; [|done].
      by destruct (decide _).
    + rewrite list_lookup_alter_ne by done.
      destruct (decide (t ∈ w_promise <$> cbs)) as [Hin|Hnotin].
      * by rewrite decide_True by (by apply list_elem_of_further).
      * rewrite decide_False; [done|].
        rewrite not_elem_of_cons. split; [congruence|done].
Qed.

Lemma onTokenRefreshed_tasks newToken w t :
  tasks (onTokenRefreshed newToken w) !! t
  = (if decide (t ∈ w_promise <$> refreshSubscribers (cl w))
     then resent (token (cl w)) else id) <$> tasks w !! t.
Proof. unfold onTokenRefreshed. simpl. apply foldl_request_again_tasks. Qed.

(** ** What every reachable state satisfies *)

Lemma sends_of_log t c w :
  sends_of t (log c w) = sends_of t w + (if sent_for t c then 1 else 0).
Proof. unfold sends_of, log. simpl. by rewrite count_calls_app, count_calls_one. Qed.

Lemma send_bound_le_2 s : send_bound s <= 2.
Proof. unfold send_bound. destruct (final s); lia. Qed.

Lemma send_bound_ge_1 s : 1 <= send_bound s.
Proof. unfold send_bound. destruct (final s); lia. Qed.

Lemma consistent_new API_URL window : consistent (new_ApiClient API_URL window).
Proof.
  split; simpl.
  - by intros cb ?%elem_of_nil.
  - apply NoDup_nil_2.
  - by intros t tk.
  - reflexivity.
Qed.

Lemma consistent_frame w w' :
  refreshSubscribers (cl w') = refreshSubscribers (cl w) ->
  tasks w' = tasks w -> net w' = net w ->
  consistent w -> consistent w'.
Proof.
  intros Hs Ht Hn [A B C D].
  split; unfold sends_of in *; rewrite ?Hs, ?Ht, ?Hn; auto.
Qed.

Lemma waiter_is_not t tk w cb :
  consistent w -> tasks w !! t = Some tk -> t_stage tk <> Subscribed ->
  cb ∈ refreshSubscribers (cl w) -> w_promise cb <> t.
Proof.
  intros Hc Htk Hst Hcb Heq.
  apply (waiters_subscribed w Hc) in Hcb. rewrite Heq, Htk in Hcb.
  injection Hcb as ->. by apply Hst.
Qed.

Lemma not_a_waiter t tk w :
  consistent w -> tasks w !! t = Some tk -> t_stage tk <> Subscribed ->
  t ∉ w_promise <$> refreshSubscribers (cl w).
Proof.
  intros Hc Htk Hst (cb & -> & Hcb)%list_elem_of_fmap.
  by apply (waiter_is_not (w_promise cb) tk w cb).
Qed.

Lemma consistent_set_stage t tk s w :
  consistent w -> tasks w !! t = Some tk -> t_stage tk <> Subscribed ->
  send_bound (t_stage tk) <= send_bound s ->
  consistent (set_stage t s w).
Proof.
  intros Hc Htk Hst Hb. pose proof Hc as [A B C D].
  split; unfold set_stage, sends_of in *; simpl.
  - intros cb Hcb.
    rewrite list_lookup_alter_ne by (by eapply not_eq_sym, waiter_is_not).
    by apply A.
  - done.
  - intros u tk'. destruct (decide (t = u)) as [<-|Hne].
    + rewrite list_lookup_alter_eq, Htk. simpl. intros [= <-]. simpl.
      specialize (C t tk Htk). lia.
    + rewrite list_lookup_alter_ne by done. apply C.
  - intros u. rewrite length_alter. apply D.
Qed.

Lemma consistent_settle t tk o w :
  consistent w -> tasks w !! t = Some tk -> t_stage tk <> Subscribed ->
  consistent (set_stage t (Settled o) w).
Proof.
  intros Hc Htk Hst. apply (consistent_set_stage t tk); try done.
  apply send_bound_le_2.
Qed.

(** A call of [request] that sends: the first [fetch] of a new call. *)
Lemma consistent_request_sends endpoint o retry url config w :
  consistent w ->
  consistent
    (log (OpFetch (length (tasks w)) url config)
       (mkWorld (cl w) (win w)
          (tasks w ++ [mkTask endpoint o (AwaitFetch retry)]) (net w) (returned w))).
Proof.
  intros Hc. destruct Hc as [A B C D].
  split; simpl.
  - intros cb Hcb. specialize (A cb Hcb).
    rewrite lookup_app_l; [done|]. by eapply lookup_lt_Some.
  - done.
  - intros t tk Htk. rewrite sends_of_log. simpl.
    unfold sends_of in *. simpl.
    destruct (decide (t < length (tasks w))) as [Hlt|Hge].
    + rewrite lookup_app_l in Htk by done.
      assert (Hne : Nat.eqb (length (tasks w)) t = false) by (apply Nat.eqb_neq; lia).
      rewrite Hne, Nat.add_0_r. by apply C.
    + rewrite lookup_app_r in Htk by lia.
      destruct (t - length (tasks w)) as [|n] eqn:Hn; [|by destruct n].
      assert (t = length (tasks w)) as -> by lia.
      rewrite D by lia. injection Htk as <-. simpl.
      rewrite Nat.eqb_refl. apply send_bound_ge_1.
  - intros t Hlen. rewrite length_app in Hlen. simpl in Hlen.
    rewrite sends_of_log. simpl. unfold sends_of in *. simpl.
    rewrite D by lia.
    assert (Hne : Nat.eqb (length (tasks w)) t = false) by (apply Nat.eqb_neq; lia).
    by rewrite Hne.
Qed.

(** A call of [request] that throws at line 90: a new call, rejected at
    once, and nothing sent. *)
Lemma consistent_request_throws endpoint o s w :
  consistent w ->
  consistent
    (mkWorld (cl w) (win w) (tasks w ++ [mkTask endpoint o s]) (net w) (returned w)).
Proof.
  intros Hc. destruct Hc as [A B C D].
  split; simpl.
  - intros cb Hcb. specialize (A cb Hcb).
    rewrite lookup_app_l; [done|]. by eapply lookup_lt_Some.
  - done.
  - intros t tk Htk. unfold sends_of in *. simpl.
    destruct (decide (t < length (tasks w))) as [Hlt|Hge].
    + rewrite lookup_app_l in Htk by done. by apply C.
    + rewrite D by lia. lia.
  - intros t Hlen. rewrite length_app in Hlen. simpl in Hlen.
    unfold sends_of in *. simpl. apply D. lia.
Qed.

Lemma tasks_request_throws endpoint o retry w :
  alter (fun tk => mkTask (t_endpoint tk) (t_options tk) (Settled (Rejected TypeError)))
        (length (tasks w)) (tasks w ++ [mkTask endpoint o (AwaitFetch retry)])
  = tasks w ++ [mkTask endpoint o (Settled (Rejected TypeError))].
Proof.
  apply list_eq. intros i.
  destruct (decide (i = length (tasks w))) as [->|Hne].
  - rewrite list_lookup_alter_eq, !lookup_app_r by lia.
    by rewrite Nat.sub_diag.
  - rewrite list_lookup_alter_ne by done.
    destruct (decide (i < length (tasks w))).
    + by rewrite !lookup_app_l by lia.
    + rewrite !lookup_app_r by lia.
      destruct (i - length (tasks w)) as [|m] eqn:Hm; [lia|done].
Qed.

(** What a call of [request] leads to, by whether line 90 returns. *)
Lemma request_cases endpoint o retry w :
  request endpoint o retry w
  = if sendable (token (cl w))
    then log (OpFetch (length (tasks w)) (baseURL (cl w) +:+ endpoint)
                (build_config (token (cl w)) o))
           (mkWorld (cl w) (win w)
              (tasks w ++ [mkTask endpoint o (AwaitFetch retry)])
              (net w) (returned w))
    else mkWorld (cl w) (win w)
           (tasks w ++ [mkTask endpoint o (Settled (Rejected TypeError))])
           (net w) (returned w).
Proof.
  unfold request, request_begin. simpl.
  destruct (sendable _); [done|].
  unfold set_stage. simpl. by rewrite tasks_request_throws.
Qed.

Lemma consistent_request endpoint o retry w :
  consistent w -> consistent (request endpoint o retry w).
Proof.
  intros Hc. rewrite request_cases. destruct (sendable _).
  - by apply consistent_request_sends.
  - by apply consistent_request_throws.
Qed.

Lemma consistent_log_refresh t url b w :
  consistent w -> consistent (log (RefreshFetch t url b) w).
Proof.
  intros [A B C D].
  split; try done; unfold sends_of in *; simpl.
  - intros u tk Htk. rewrite count_calls_app, count_calls_one. simpl.
    rewrite Nat.add_0_r. by apply C.
  - intros u Hu. rewrite count_calls_app, count_calls_one. simpl.
    rewrite Nat.add_0_r. by apply D.
Qed.

Lemma consistent_subscribe t tk w :
  consistent w -> tasks w !! t = Some tk -> t_stage tk = AwaitFetch true ->
  consistent
    (set_stage t Subscribed
       (subscribeTokenRefresh (mkWaiter (t_endpoint tk) (t_options tk) t) w)).
Proof.
  intros Hc Htk Hst. pose proof Hc as [A B C D].
  assert (Hns : t_stage tk <> Subscribed) by (by rewrite Hst).
  split; unfold set_stage, subscribeTokenRefresh, sends_of in *; simpl.
  - intros cb [Hcb| ->%list_elem_of_singleton]%elem_of_app.
    + rewrite list_lookup_alter_ne by (by eapply not_eq_sym, waiter_is_not).
      by apply A.
    + simpl. by rewrite list_lookup_alter_eq, Htk.
  - rewrite fmap_app. apply NoDup_app. split; [done|]. split.
    + intros u Hu ->%list_elem_of_singleton.
      by apply (not_a_waiter t tk w).
    + apply NoDup_singleton.
  - intros u tk'. destruct (decide (t = u)) as [<-|Hne].
    + rewrite list_lookup_alter_eq, Htk. simpl. intros [= <-]. simpl.
      specialize (C t tk Htk). by rewrite Hst in C.
    + rewrite list_lookup_alter_ne by done. apply C.
  - intros u. rewrite length_alter. apply D.
Qed.
(** The state after a successful refresh resent the waiters and the call
    that started it (lines 116-119), in terms of the state before. *)
Lemma refresh_success_net t tk tok w :
  net (request_again t (t_endpoint tk) (t_options tk) (onTokenRefreshed tok w))
  = net w ++ resends (cl w)
               (refreshSubscribers (cl w) ++ [mkWaiter (t_endpoint tk) (t_options tk) t]).
Proof.
  destruct (onTokenRefreshed_frame tok w) as (_ & Hnet & Htok & _ & _ & Hbase & _).
  rewrite net_request_again, Hnet, Htok, Hbase, resends_app, <- app_assoc.
  reflexivity.
Qed.

Lemma refresh_success_tasks t tk tok w u :
  tasks w !! t = Some tk ->
  tasks (request_again t (t_endpoint tk) (t_options tk) (onTokenRefreshed tok w)) !! u
  = (if decide (u ∈ w_promise <$>
                refreshSubscribers (cl w) ++ [mkWaiter (t_endpoint tk) (t_options tk) t])
     then resent (token (cl w)) else id) <$> tasks w !! u.
Proof.
  intros Htk. rewrite tasks_request_again, fmap_app.
  destruct (onTokenRefreshed_frame tok w) as (_ & _ & -> & _).
  change (w_promise <$> [mkWaiter (t_endpoint tk) (t_options tk) t]) with [t].
  destruct (decide (t = u)) as [<-|Hne].
  - rewrite list_lookup_alter_eq, onTokenRefreshed_tasks, Htk.
    rewrite (decide_True (P := t ∈ _ ++ [t])) by (apply elem_of_app; right; apply list_elem_of_here).
    simpl. by destruct (decide _).
  - rewrite list_lookup_alter_ne, onTokenRefreshed_tasks by done.
    destruct (decide (u ∈ w_promise <$> refreshSubscribers (cl w))) as [Hin|Hnotin].
    + by rewrite decide_True by (apply elem_of_app; by left).
    + rewrite decide_False; [done|].
      intros [?| ->%list_elem_of_singleton]%elem_of_app; done.
Qed.

Lemma waiters_and_trigger_distinct t tk w :
  consistent w -> tasks w !! t = Some tk -> t_stage tk = AwaitRefresh ->
  NoDup (w_promise <$>
         refreshSubscribers (cl w) ++ [mkWaiter (t_endpoint tk) (t_options tk) t]).
Proof.
  intros Hc Htk Hst.
  rewrite fmap_app. apply NoDup_app. split; [apply (waiters_distinct w Hc)|].
  split; [|apply NoDup_singleton].
  intros v Hv ->%list_elem_of_singleton.
  apply (not_a_waiter t tk w); try done. by rewrite Hst.
Qed.

Lemma refresh_success_sends t tk tok w u :
  consistent w -> tasks w !! t = Some tk -> t_stage tk = AwaitRefresh ->
  sends_of u (request_again t (t_endpoint tk) (t_options tk) (onTokenRefreshed tok w))
  = sends_of u w
    + (if decide (u ∈ w_promise <$>
                  refreshSubscribers (cl w) ++ [mkWaiter (t_endpoint tk) (t_options tk) t])
       then if sendable (token (cl w)) then 1 else 0
       else 0).
Proof.
  intros Hc Htk Hst. unfold sends_of.
  rewrite refresh_success_net, count_calls_app. f_equal.
  pose proof (waiters_and_trigger_distinct t tk w Hc Htk Hst) as Hnd.
  destruct (decide _) as [Hin|Hnotin].
  - by apply count_resends_waiter.
  - by apply count_resends_others.
Qed.

Lemma final_resent_stage tok : final (resent_stage tok) = true.
Proof. unfold resent_stage. by destruct (sendable tok). Qed.

Lemma consistent_refresh_success t tk tok w :
  consistent w -> tasks w !! t = Some tk -> t_stage tk = AwaitRefresh ->
  consistent
    (request_again t (t_endpoint tk) (t_options tk) (onTokenRefreshed tok w)).
Proof.
  intros Hc Htk Hst. pose proof Hc as [A B C D].
  destruct (onTokenRefreshed_frame tok w) as (_ & _ & _ & _ & _ & _ & Hsubs & Hlen).
  split.
  - rewrite cl_request_again, Hsubs. by intros cb ?%elem_of_nil.
  - rewrite cl_request_again, Hsubs. apply NoDup_nil_2.
  - intros u tk'. rewrite refresh_success_tasks, refresh_success_sends by done.
    destruct (tasks w !! u) as [tk0|] eqn:Hu; [|done].
    destruct (decide _) as [Hin|Hnotin]; simpl; intros [= <-].
    + simpl. specialize (C u tk0 Hu).
      assert (send_bound (t_stage tk0) = 1).
      { rewrite fmap_app in Hin.
        apply elem_of_app in Hin as [(cb & -> & Hcb)%list_elem_of_fmap | ->%list_elem_of_singleton].
        * apply A in Hcb. rewrite Hcb in Hu. by injection Hu as <-.
        * cbn [w_promise] in Hu. rewrite Htk in Hu. injection Hu as <-. by rewrite Hst. }
      unfold send_bound at 1. rewrite final_resent_stage.
      destruct (sendable _); lia.
    + rewrite Nat.add_0_r. by apply C.
  - intros u Hu. rewrite refresh_success_sends by done.
    rewrite tasks_request_again, length_alter, Hlen in Hu.
    rewrite D by done. rewrite decide_False; [done|].
    rewrite fmap_app.
    intros [(cb & -> & Hcb)%list_elem_of_fmap | ->%list_elem_of_singleton]%elem_of_app.
    + apply A, lookup_lt_Some in Hcb. lia.
    + apply lookup_lt_Some in Htk. cbn [w_promise] in Hu. lia.
Qed.

Lemma consistent_refresh_failed t tk e w :
  consistent w -> tasks w !! t = Some tk -> t_stage tk <> Subscribed ->
  consistent (refresh_failed t e w).
Proof.
  intros Hc Htk Hst. unfold refresh_failed.
  apply (consistent_settle t tk); try done.
  by apply (consistent_frame w).
Qed.

Lemma consistent_resumed t tk res w :
  consistent w -> tasks w !! t = Some tk -> t_stage tk = AwaitRefresh ->
  consistent (request_refresh_resumed t tk res w).
Proof.
  intros Hc Htk Hst. unfold request_refresh_resumed. destruct res as [e|tok].
  - apply (consistent_refresh_failed t tk); try done. by rewrite Hst.
  - apply consistent_refresh_success; try done.
    by apply (consistent_frame w).
Qed.

Lemma consistent_step w e w' :
  consistent w -> step w e = Some w' -> consistent w'.
Proof.
  intros Hc Hstep.
  destruct e as [endpoint o retry|t r|t r|t|t r|r|]; simpl in Hstep.
  - injection Hstep as <-. by apply consistent_request.
  - destruct (tasks w !! t) as [tk|] eqn:Htk; [|done].
    destruct (t_stage tk) as [retry| | |] eqn:Hst; try done.
    injection Hstep as <-.
    assert (Hns : t_stage tk <> Subscribed) by (by rewrite Hst).
    unfold request_fetch_settled.
    destruct r as [|resp]; [by apply (consistent_settle t tk)|].
    destruct (_ && truthy _) eqn:Hcond; [|by apply (consistent_settle t tk)].
    apply andb_true_iff in Hcond as [[_ ->]%andb_true_iff _].
    destruct (negb _); [|by apply consistent_subscribe].
    cbv zeta. unfold attemptTokenRefresh_begin.
    assert (Hc1 : consistent (set_isRefreshing true w))
      by (by apply (consistent_frame w)).
    destruct (refreshToken _) as [rt|]; [destruct (truthy_json rt)|];
      try (by apply (consistent_refresh_failed t tk)).
    apply (consistent_set_stage t tk); try done.
    + by apply consistent_log_refresh.
    + by rewrite Hst.
  - destruct (tasks w !! t) as [tk|] eqn:Htk; [|done].
    destruct (t_stage tk) eqn:Hst; try done.
    destruct (returned w !! t); [done|]. injection Hstep as <-.
    unfold refresh_arrived.
    destruct (attemptTokenRefresh_resume_cases r w) as [[e ->]|(tok & _ & ->)];
      by apply (consistent_frame w).
  - destruct (tasks w !! t) as [tk|] eqn:Htk; [|done].
    destruct (t_stage tk) eqn:Hst; try done.
    destruct (returned w !! t) as [res|]; [|done]. injection Hstep as <-.
    apply consistent_resumed; try done. by apply (consistent_frame w).
  - destruct (tasks w !! t) as [tk|] eqn:Htk; [|done].
    destruct (t_stage tk) eqn:Hst; try done.
    injection Hstep as <-. unfold request_refresh_settled.
    destruct (attemptTokenRefresh_resume_cases r w) as [[e ->]|(tok & _ & ->)];
      (apply consistent_resumed; try done; by apply (consistent_frame w)).
  - injection Hstep as <-.
    destruct (login_settled_keeps r w) as (? & ? & _ & _ & _ & ?).
    by apply (consistent_frame w).
  - injection Hstep as <-. by apply (consistent_frame w).
Qed.

Lemma consistent_run trace : forall w w',
  consistent w -> run w trace = Some w' -> consistent w'.
Proof.
  induction trace as [|e trace IH]; intros w w' Hc Hrun; simpl in Hrun.
  - by injection Hrun as <-.
  - destruct (step w e) as [w1|] eqn:Hstep; [|done].
    apply (IH w1); [|done]. by apply (consistent_step w e).
Qed.

Lemma reachable_consistent API_URL window trace w :
  run (new_ApiClient API_URL window) trace = Some w -> consistent w.
Proof. apply consistent_run, consistent_new. Qed.

(** ** Calls that are never sent again *)

Lemma request_fetch_settled_shape t tk retry r w :
  (exists s, tasks (request_fetch_settled t tk retry r w) = tasks (set_stage t s w)) /\
  (forall u, sends_of u (request_fetch_settled t tk retry r w) = sends_of u w).
Proof.
  unfold request_fetch_settled.
  destruct r as [|resp]; [by eauto|].
  destruct (_ && truthy _); [|by eauto].
  destruct (negb _); [|by eauto].
  cbv zeta. unfold attemptTokenRefresh_begin.
  destruct (refreshToken _) as [rt|]; [destruct (truthy_json rt)|];
    try (by unfold refresh_failed; eauto).
  split; [by eauto|]. intros u. unfold sends_of. simpl.
  by rewrite count_calls_app, count_calls_one, Nat.add_0_r.
Qed.

Lemma final_settles_on_fetch t tk r w :
  t_stage tk = AwaitFetch false ->
  exists o, request_fetch_settled t tk false r w = set_stage t (Settled o) w.
Proof.
  intros _. unfold request_fetch_settled.
  destruct r as [|resp]; [by eauto|].
  rewrite andb_false_r. simpl. by eauto.
Qed.


Lemma final_frozen_resumed u tku res w t tk :
  consistent w -> tasks w !! u = Some tku -> t_stage tku = AwaitRefresh ->
  tasks w !! t = Some tk -> final (t_stage tk) = true ->
  sends_of t (request_refresh_resumed u tku res w) = sends_of t w /\
  exists tk', tasks (request_refresh_resumed u tku res w) !! t = Some tk'
              /\ final (t_stage tk') = true.
Proof.
  intros Hc Hu Hst Htk Hfin.
  assert (Hne : u <> t).
  { intros ->. assert (tku = tk) as -> by congruence. by rewrite Hst in Hfin. }
  unfold request_refresh_resumed. destruct res as [e|tok].
  - split; [done|]. exists tk. split; [|done].
    unfold refresh_failed, set_stage. simpl.
    by rewrite list_lookup_alter_ne.
  - set (w1 := set_isRefreshing false w).
    assert (Hc1 : consistent w1) by (by apply (consistent_frame w)).
    assert (Hnotin : t ∉ w_promise <$> refreshSubscribers (cl w1) ++
                         [mkWaiter (t_endpoint tku) (t_options tku) u]).
    { rewrite fmap_app.
      intros [Hin| ->%list_elem_of_singleton]%elem_of_app; [|done].
      revert Hin. apply (not_a_waiter t tk w1); try done.
      intros Hsub. by rewrite Hsub in Hfin. }
    assert (Hu1 : tasks w1 !! u = Some tku) by exact Hu.
    rewrite (refresh_success_sends u tku tok w1 t Hc1 Hu1 Hst),
            (refresh_success_tasks u tku tok w1 t Hu1).
    destruct (decide _) as [?|_]; [done|].
    split; [apply Nat.add_0_r|].
    exists tk. split; [|done]. change (tasks w1) with (tasks w). by rewrite Htk.
Qed.

Lemma final_frozen_step w e w' t tk :
  consistent w -> step w e = Some w' ->
  tasks w !! t = Some tk -> final (t_stage tk) = true ->
  sends_of t w' = sends_of t w /\
  exists tk', tasks w' !! t = Some tk' /\ final (t_stage tk') = true.
Proof.
  intros Hc Hstep Htk Hfin.
  destruct e as [endpoint o retry|u r|u r|u|u r|r|]; simpl in Hstep.
  - injection Hstep as <-. rewrite request_cases.
    pose proof (lookup_lt_Some _ _ _ Htk) as Hlt.
    destruct (sendable _).
    + rewrite sends_of_log. simpl.
      assert (Hne : Nat.eqb (length (tasks w)) t = false) by (apply Nat.eqb_neq; lia).
      rewrite Hne, Nat.add_0_r. split; [done|].
      exists tk. by rewrite lookup_app_l.
    + split; [done|]. exists tk. simpl. by rewrite lookup_app_l.
  - destruct (tasks w !! u) as [tku|] eqn:Hu; [|done].
    destruct (t_stage tku) as [retry| | |] eqn:Hst; try done.
    injection Hstep as <-.
    destruct (request_fetch_settled_shape u tku retry r w) as [[s Hts] Hsends].
    split; [apply Hsends|]. rewrite Hts. unfold set_stage. simpl.
    destruct (decide (u = t)) as [->|Hne].
    + rewrite list_lookup_alter_eq, Htk. simpl. eexists. split; [done|]. simpl.
      assert (tku = tk) as -> by congruence.
      rewrite Hst in Hfin. destruct retry; [done|].
      destruct (final_settles_on_fetch t tk r w Hst) as [o Ho].
      rewrite Ho in Hts. unfold set_stage in Hts. simpl in Hts.
      assert (Hlook : alter (fun tk0 => mkTask (t_endpoint tk0) (t_options tk0) (Settled o)) t (tasks w) !! t
                      = alter (fun tk0 => mkTask (t_endpoint tk0) (t_options tk0) s) t (tasks w) !! t)
        by (by rewrite Hts).
      rewrite !list_lookup_alter_eq, Htk in Hlook. simpl in Hlook.
      by injection Hlook as <-.
    + rewrite list_lookup_alter_ne by done. eauto.
  - destruct (tasks w !! u) as [tku|] eqn:Hu; [|done].
    destruct (t_stage tku) eqn:Hst; try done.
    destruct (returned w !! u); [done|]. injection Hstep as <-.
    unfold refresh_arrived.
    destruct (attemptTokenRefresh_resume_cases r w) as [[e ->]|(tok & _ & ->)];
      (split; [done|]; by exists tk).
  - destruct (tasks w !! u) as [tku|] eqn:Hu; [|done].
    destruct (t_stage tku) eqn:Hst; try done.
    destruct (returned w !! u) as [res|]; [|done]. injection Hstep as <-.
    apply (final_frozen_resumed u tku res (with_returned (delete u) w) t tk);
      try done.
    by apply (consistent_frame w).
  - destruct (tasks w !! u) as [tku|] eqn:Hu; [|done].
    destruct (t_stage tku) eqn:Hst; try done.
    injection Hstep as <-. unfold request_refresh_settled.
    destruct (attemptTokenRefresh_resume_cases r w) as [[e ->]|(tok & _ & ->)].
    + apply (final_frozen_resumed u tku (inl e) (clearToken w) t tk); try done.
      by apply (consistent_frame w).
    + apply (final_frozen_resumed u tku (inr tok) (setToken tok w) t tk); try done.
      by apply (consistent_frame w).
  - injection Hstep as <-.
    destruct (login_settled_keeps r w) as (Htasks & Hnet & _).
    unfold sends_of. rewrite Htasks, Hnet. split; [done|]. by exists tk.
  - injection Hstep as <-. split; [done|]. by exists tk.
Qed.

Lemma final_frozen_run trace : forall w w' t tk,
  consistent w -> run w trace = Some w' ->
  tasks w !! t = Some tk -> final (t_stage tk) = true ->
  sends_of t w' = sends_of t w.
Proof.
  induction trace as [|e trace IH]; intros w w' t tk Hc Hrun Htk Hfin;
    simpl in Hrun.
  - by injection Hrun as <-.
  - destruct (step w e) as [w1|] eqn:Hstep; [|done].
    destruct (final_frozen_step w e w1 t tk Hc Hstep Htk Hfin)
      as (Hsends & tk1 & Htk1 & Hfin1).
    rewrite <- Hsends. apply (IH w1 w' t tk1); try done.
    by apply (consistent_step w e).
Qed.

(** ** The refresh coordination *)

(** C3 (amended). Along every interleaving, the operation of a call is
    sent at most twice, so it is retried at most once; and when the retry
    (a call at its [fetch] with [retryOnUnauthorized] false) receives a
    401, the call throws to its caller and nothing else happens: no call
    of [fetch], no change of the client, hence no refresh and no waiter.
    What it throws is made from the body of that response as for any
    other status outside the success range: the SyntaxError of the
    parser where the body does not read as JSON, a TypeError where it is
    [null], and else an [Error] whose message is the [detail] of the
    body when that is truthy, else its [message] when that is truthy,
    else [API request failed: 401], or the TypeError of the conversion
    where that value has no string. *)
Theorem retry_bound API_URL window trace w :
  run (new_ApiClient API_URL window) trace = Some w ->
  (forall t, sends_of t w <= 2) /\
  (forall t tk resp,
     tasks w !! t = Some tk -> t_stage tk = AwaitFetch false ->
     status resp = 401%N ->
     exists w',
       step w (FetchSettled t (FetchResponse resp)) = Some w' /\
       stage_of w' t
       = Some (Settled (Rejected
           match read_data resp with
           | None => SyntaxError
           | Some JNull => TypeError
           | Some data =>
               match ToString
                       (if truthy (get data "detail") then get data "detail"
                        else if truthy (get data "message") then get data "message"
                        else Some (JStr ("API request failed: "
                                         +:+ pretty 401%N))) with
               | Some message => Error message
               | None => TypeError
               end
           end)) /\
       net w' = net w /\ cl w' = cl w).
Proof.
  intros Hrun. pose proof (reachable_consistent _ _ _ _ Hrun) as Hc. split.
  - intros t. destruct (tasks w !! t) as [tk|] eqn:Htk.
    + etrans; [by apply (sends_bounded w Hc)|]. apply send_bound_le_2.
    + rewrite (sends_none w Hc); [lia|]. by apply lookup_ge_None.
  - intros t tk resp Htk Hst H401.
    assert (Hno : (status resp =? 401)%N && false && truthy (refreshToken (cl w)) = false)
      by (by rewrite andb_false_r).
    destruct (step_decodes w t tk false resp Htk Hst Hno) as [Hstep Hstage].
    eexists. split; [exact Hstep|]. split; [|done].
    assert (Hok : ok resp = false) by (unfold ok; by rewrite H401).
    rewrite Hstage, (decode_not_ok resp Hok).
    destruct (read_data resp) as [data|]; [|done].
    unfold api_error.
    rewrite (api_error_value_cases data (status resp)), H401. by destruct data.
Qed.

Lemma lookup_authorization tok o :
  opt_headers (build_config tok o) !! "Authorization"
  = if truthy tok then Some ("Bearer " +:+ to_string tok)
    else opt_headers o !! "Authorization".
Proof.
  unfold build_config, request_headers. cbn [opt_headers].
  destruct (truthy tok).
  - destruct (is_FormData _); [rewrite lookup_delete_ne by done|];
      apply lookup_insert_eq.
  - assert (Hu : (opt_headers o ∪ {["Content-Type" := "application/json"]})
                   !! "Authorization" = opt_headers o !! "Authorization").
    { rewrite lookup_union, lookup_singleton_ne by done.
      by destruct (opt_headers o !! "Authorization"). }
    destruct (is_FormData _); [rewrite lookup_delete_ne by done|]; exact Hu.
Qed.

(** Lines 116-119 from a state that satisfies the invariant. *)
Lemma fan_out_resumed t tk newToken w :
  consistent w -> tasks w !! t = Some tk -> t_stage tk = AwaitRefresh ->
  fanned_out (token (cl w))
    (refreshSubscribers (cl w) ++ [mkWaiter (t_endpoint tk) (t_options tk) t])
    w (request_refresh_resumed t tk (inr newToken) w).
Proof.
  intros Hc Htk Hst. unfold request_refresh_resumed.
  set (tok := token (cl w)).
  set (waiting := refreshSubscribers (cl w) ++ [mkWaiter (t_endpoint tk) (t_options tk) t]).
  set (w1 := set_isRefreshing false w).
  assert (Hc1 : consistent w1) by (by apply (consistent_frame w)).
  assert (Htk1 : tasks w1 !! t = Some tk) by exact Htk.
  set (w' := request_again t (t_endpoint tk) (t_options tk)
               (onTokenRefreshed newToken w1)).
  destruct (onTokenRefreshed_frame newToken w1)
    as (_ & _ & Htoken & _ & Hflag & Hbase & Hsubs & _).
  assert (Htoken' : token (cl w') = tok)
    by (subst w'; by rewrite cl_request_again, Htoken).
  assert (Hbase' : baseURL (cl w') = baseURL (cl w1))
    by (subst w'; by rewrite cl_request_again, Hbase).
  assert (Hc' : consistent w') by (by apply consistent_refresh_success).
  assert (Hin : forall cb, cb ∈ waiting ->
            w_promise cb ∈ w_promise <$>
              refreshSubscribers (cl w1) ++ [mkWaiter (t_endpoint tk) (t_options tk) t])
    by (intros cb Hcb; by apply list_elem_of_fmap_2).
  assert (Hresent : forall cb, cb ∈ waiting ->
            exists tk0, tasks w' !! w_promise cb = Some (resent tok tk0)).
  { intros cb Hcb.
    assert (Hsome : is_Some (tasks w !! w_promise cb)).
    { apply elem_of_app in Hcb as [Hcb| ->%list_elem_of_singleton].
      - rewrite (waiters_subscribed w Hc cb Hcb). eauto.
      - simpl. eauto. }
    destruct Hsome as [tk0 Htk0]. exists tk0.
    subst w'. rewrite (refresh_success_tasks t tk newToken w1 _ Htk1).
    rewrite decide_True by (by apply Hin).
    change (tasks w1) with (tasks w). by rewrite Htk0. }
  assert (Hsends : forall cb, cb ∈ waiting ->
            sends_of (w_promise cb) w'
            = sends_of (w_promise cb) w + (if sendable tok then 1 else 0)).
  { intros cb Hcb. subst w'.
    rewrite (refresh_success_sends t tk newToken w1 _ Hc1 Htk1 Hst).
    by rewrite decide_True by (by apply Hin). }
  assert (Hnet : net w' = net w ++ resends (cl w1) waiting)
    by (subst w'; by rewrite refresh_success_net).
  split; [exact Htoken'|]. split; [|split; [|split]].
  - subst w'. by rewrite cl_request_again, Hflag.
  - subst w'. by rewrite cl_request_again, Hsubs.
  - rewrite Hnet. unfold resends, resent, resent_stage in *.
    change (token (cl w1)) with tok.
    destruct (sendable tok).
    + split.
      * f_equal. apply list_fmap_ext. intros _ cb _. apply resend_ext; [done|].
        by rewrite Htoken'.
      * intros cb Hcb. split; [apply lookup_authorization|]. split; [by apply Hsends|].
        destruct (Hresent cb Hcb) as [tk0 Htk0]. unfold stage_of. by rewrite Htk0.
    + split; [apply app_nil_r|].
      intros cb Hcb. split; [rewrite Hsends by done; apply Nat.add_0_r|].
      destruct (Hresent cb Hcb) as [tk0 Htk0]. unfold stage_of. by rewrite Htk0.
  - intros cb rest w'' Hcb Hrest.
    destruct (Hresent cb Hcb) as [tk0 Htk0].
    apply (final_frozen_run rest w' w'' (w_promise cb) (resent tok tk0));
      try done.
    apply final_resent_stage.
Qed.

(** C4 (amended). A refresh counts as a success when its response is in
    the success range, its body reads as JSON other than [null] and its
    [access_token], whatever it is, can be stored: [attemptTokenRefresh]
    then makes it the token of the client and returns it.  When the call
    that started the refresh resumes on that result, every waiter of the
    list and then the call itself are resent with the token the client
    holds at that moment: each is sent once more, in this order and
    nothing else, with [Authorization: Bearer <that token>] where the
    token is truthy and with no [Authorization] but the caller's own
    where it is not; where the token has no string, nothing is sent and
    each of them is rejected with a TypeError.  No call is among them
    twice, and whatever happens afterwards, a 401 for the resend
    included, none of them is ever sent again.  The token held at that
    moment is the [access_token] of the refresh response when the call
    resumes with nothing between: a [clearToken] or a login that runs
    in between replaces it. *)
Theorem fan_out_success API_URL window trace w t tk :
  run (new_ApiClient API_URL window) trace = Some w ->
  tasks w !! t = Some tk -> t_stage tk = AwaitRefresh ->
  let waiting :=
    refreshSubscribers (cl w) ++ [mkWaiter (t_endpoint tk) (t_options tk) t] in
  NoDup (w_promise <$> waiting) /\
  (forall resp data,
     returned w !! t = None ->
     ok resp = true -> response_json resp = Some data -> data <> JNull ->
     setItem_throws (get data "access_token") w = false ->
     exists w1,
       step w (RefreshArrived t (FetchResponse resp)) = Some w1 /\
       token (cl w1) = get data "access_token" /\
       returned w1 !! t = Some (inr (get data "access_token")) /\
       tasks w1 = tasks w /\ net w1 = net w /\
       refreshSubscribers (cl w1) = refreshSubscribers (cl w)) /\
  (forall newToken,
     returned w !! t = Some (inr newToken) ->
     exists w',
       step w (RefreshResumed t) = Some w' /\
       fanned_out (token (cl w)) waiting w w') /\
  (forall resp data,
     returned w !! t = None ->
     ok resp = true -> response_json resp = Some data -> data <> JNull ->
     setItem_throws (get data "access_token") w = false ->
     exists w',
       step w (RefreshSettled t (FetchResponse resp)) = Some w' /\
       fanned_out (get data "access_token") waiting w w').
Proof.
  intros Hrun Htk Hst waiting.
  pose proof (reachable_consistent _ _ _ _ Hrun) as Hc.
  assert (Hresume : forall resp data,
    ok resp = true -> response_json resp = Some data -> data <> JNull ->
    setItem_throws (get data "access_token") w = false ->
    attemptTokenRefresh_resume (FetchResponse resp) w
    = (setToken (get data "access_token") w, inr (get data "access_token"))).
  { intros resp data Hok Hjson Hnull Hstore. unfold attemptTokenRefresh_resume.
    rewrite Hok, Hjson. simpl. rewrite Hstore. by destruct data. }
  split; [by apply (waiters_and_trigger_distinct t tk w)|]. split; [|split].
  - intros resp data Hnone Hok Hjson Hnull Hstore.
    eexists. split.
    { simpl. rewrite Htk, Hst, Hnone. unfold refresh_arrived.
      by rewrite (Hresume resp data). }
    split; [done|]. split; [apply lookup_insert_eq|]. done.
  - intros newToken Hret.
    eexists. split.
    { simpl. by rewrite Htk, Hst, Hret. }
    apply (fan_out_resumed t tk newToken (with_returned (delete t) w)); try done.
    by apply (consistent_frame w).
  - intros resp data _ Hok Hjson Hnull Hstore.
    eexists. split.
    { simpl. rewrite Htk, Hst. unfold request_refresh_settled.
      by rewrite (Hresume resp data). }
    apply (fan_out_resumed t tk (get data "access_token")
             (setToken (get data "access_token") w)); try done.
    by apply (consistent_frame w).
Qed.

(** A 401 that arrives while a refresh is in flight: the call is appended
    to the waiter list and nothing is sent. *)
Lemma join_refresh_in_flight w t tk resp :
  isRefreshing (cl w) = true -> truthy (refreshToken (cl w)) = true ->
  tasks w !! t = Some tk -> t_stage tk = AwaitFetch true ->
  status resp = 401%N ->
  step w (FetchSettled t (FetchResponse resp))
  = Some (set_stage t Subscribed
            (subscribeTokenRefresh (mkWaiter (t_endpoint tk) (t_options tk) t) w)).
Proof.
  intros Hr Hrt Htk Hst H401. simpl. rewrite Htk, Hst.
  unfold request_fetch_settled. by rewrite H401, Hrt, Hr.
Qed.

Lemma join_all ds : forall w,
  isRefreshing (cl w) = true -> truthy (refreshToken (cl w)) = true ->
  NoDup (fst <$> ds) ->
  (forall d, d ∈ ds ->
     status (snd d) = 401%N /\ stage_of w (fst d) = Some (AwaitFetch true)) ->
  exists w',
    run w (deliver ds) = Some w' /\
    net w' = net w /\
    isRefreshing (cl w') = true /\
    w_promise <$> refreshSubscribers (cl w')
    = (w_promise <$> refreshSubscribers (cl w)) ++ (fst <$> ds) /\
    (forall d, d ∈ ds -> stage_of w' (fst d) = Some Subscribed) /\
    (forall u, u ∉ fst <$> ds -> stage_of w' u = stage_of w u).
Proof.
  induction ds as [|[t resp] ds IH]; intros w Hr Hrt Hnd Hds.
  - exists w. simpl. rewrite app_nil_r.
    repeat split; try done. by intros d ?%elem_of_nil.
  - rewrite fmap_cons in Hnd. apply NoDup_cons in Hnd as [Hnotin Hnd].
    destruct (Hds (t, resp)) as [H401 Hstage]; [apply list_elem_of_here|].
    simpl in H401, Hstage, Hnotin.
    unfold stage_of in Hstage.
    destruct (tasks w !! t) as [tk|] eqn:Htk; [|done].
    injection Hstage as Hst.
    set (w1 := set_stage t Subscribed
                 (subscribeTokenRefresh (mkWaiter (t_endpoint tk) (t_options tk) t) w)).
    assert (Hother : forall u, u <> t -> stage_of w1 u = stage_of w u).
    { intros u Hu. unfold w1. by rewrite stage_of_set_stage_ne. }
    destruct (IH w1) as (w' & Hrun & Hnet & Hr' & Hsubs & Hsubd & Hrest);
      try done.
    { intros d Hd. destruct (Hds d) as [? ?]; [by apply list_elem_of_further|].
      split; [done|]. rewrite Hother; [done|].
      intros Heq. apply Hnotin. rewrite <- Heq. by apply list_elem_of_fmap_2. }
    exists w'. split; [|split; [|split; [|split; [|split]]]].
    + simpl deliver. cbn [run fmap list_fmap fst snd].
      by rewrite (join_refresh_in_flight w t tk resp).
    + by rewrite Hnet.
    + done.
    + rewrite Hsubs. unfold w1, set_stage, subscribeTokenRefresh. simpl.
      by rewrite fmap_app, <- app_assoc.
    + intros d [->|Hd]%elem_of_cons; [|by apply Hsubd]. simpl.
      rewrite Hrest by done. unfold w1.
      apply stage_of_set_stage_eq. simpl. rewrite Htk. eauto.
    + intros u Hu. rewrite fmap_cons in Hu. apply not_elem_of_cons in Hu as [Hne Hu].
      rewrite Hrest by done. by apply Hother.
Qed.

(** C1 (amended). When no refresh is in flight and the 401 responses of
    N >= 1 calls arrive, in any order, before the refresh that the first
    of them starts has settled, [/auth/refresh] is called exactly once:
    the first call waits for the refresh and the others are appended to
    the waiter list.  And a call whose 401 arrives while a refresh is in
    flight is appended to the waiter list and sends nothing. *)
Theorem single_flight :
  (forall w d rest,
     isRefreshing (cl w) = false -> truthy (refreshToken (cl w)) = true ->
     NoDup (fst <$> d :: rest) ->
     (forall d', d' ∈ d :: rest ->
        status (snd d') = 401%N /\ stage_of w (fst d') = Some (AwaitFetch true)) ->
     exists w',
       run w (deliver (d :: rest)) = Some w' /\
       refresh_calls w' = refresh_calls w + 1 /\
       isRefreshing (cl w') = true /\
       stage_of w' (fst d) = Some AwaitRefresh /\
       w_promise <$> refreshSubscribers (cl w')
       = (w_promise <$> refreshSubscribers (cl w)) ++ (fst <$> rest)) /\
  (forall w t tk resp,
     isRefreshing (cl w) = true -> truthy (refreshToken (cl w)) = true ->
     tasks w !! t = Some tk -> t_stage tk = AwaitFetch true ->
     status resp = 401%N ->
     exists w',
       step w (FetchSettled t (FetchResponse resp)) = Some w' /\
       net w' = net w /\
       refreshSubscribers (cl w')
       = refreshSubscribers (cl w) ++ [mkWaiter (t_endpoint tk) (t_options tk) t] /\
       stage_of w' t = Some Subscribed /\
       isRefreshing (cl w') = true).
Proof.
  split.
  - intros w [t resp] rest Hidle Hrt Hnd Hds.
    rewrite fmap_cons in Hnd. apply NoDup_cons in Hnd as [Hnotin Hnd].
    destruct (Hds (t, resp)) as [H401 Hstage]; [apply list_elem_of_here|].
    simpl in H401, Hstage, Hnotin. unfold stage_of in Hstage.
    destruct (tasks w !! t) as [tk|] eqn:Htk; [|done].
    injection Hstage as Hst.
    destruct (refreshToken (cl w)) as [rt|] eqn:Hrtv; [|done].
    set (w1 := set_stage t AwaitRefresh
                 (log (RefreshFetch t (baseURL (cl w) +:+ "/auth/refresh")
                         (JSON_stringify (JObj [("refresh_token", rt)])))
                      (set_isRefreshing true w))).
    assert (Hstep : step w (FetchSettled t (FetchResponse resp)) = Some w1).
    { simpl. rewrite Htk, Hst. unfold request_fetch_settled.
      rewrite H401, Hrtv, Hrt, Hidle. simpl.
      unfold attemptTokenRefresh_begin. simpl. rewrite Hrtv.
      simpl in Hrt. by rewrite Hrt. }
    assert (Hother : forall u, u <> t -> stage_of w1 u = stage_of w u).
    { intros u Hu. unfold w1. by rewrite stage_of_set_stage_ne. }
    destruct (join_all rest w1) as (w' & Hrun & Hnet & Hr' & Hsubs & _ & Hrest);
      try done.
    { unfold w1. simpl. by rewrite Hrtv. }
    { intros d Hd. destruct (Hds d) as [? ?]; [by apply list_elem_of_further|].
      split; [done|]. rewrite Hother; [done|].
      intros Heq. apply Hnotin. rewrite <- Heq. by apply list_elem_of_fmap_2. }
    exists w'. split; [|split; [|split; [|split]]].
    + simpl deliver. cbn [run fmap list_fmap fst snd]. by rewrite Hstep.
    + unfold refresh_calls. rewrite Hnet. unfold w1. simpl.
      by rewrite count_calls_app, count_calls_one.
    + done.
    + simpl. rewrite Hrest by done. unfold w1.
      apply stage_of_set_stage_eq. simpl. rewrite Htk. eauto.
    + by rewrite Hsubs.
  - intros w t tk resp Hr Hrt Htk Hst H401.
    eexists. split; [by apply join_refresh_in_flight|].
    repeat split; try done.
    apply stage_of_set_stage_eq. simpl. rewrite Htk. eauto.
Qed.

(** ** Further properties of the token store *)




(** X2. After [clearToken] a reload starts with no token at all, whatever
    was stored before; and clearing twice is clearing once. *)
Theorem clearToken_then_restart API_URL w :
  token (cl (new_ApiClient API_URL (win (clearToken w)))) = null /\
  refreshToken (cl (new_ApiClient API_URL (win (clearToken w)))) = null /\
  clearToken (clearToken w) = clearToken w.
Proof.
  unfold clearToken, with_storage, with_client. simpl.
  destruct (win w) as [b|]; simpl; [|done].
  unfold getItem. simpl.
  split; [by rewrite lookup_delete_ne, lookup_delete_ne, lookup_delete_eq|].
  split; [by rewrite lookup_delete_ne, lookup_delete_eq|].
  do 2 f_equal. f_equal.
  apply map_eq. intros k.
  destruct (decide (k = "user")) as [->|?];
    [by rewrite !lookup_delete_eq|].
  destruct (decide (k = "refreshToken")) as [->|?];
    [by rewrite !(lookup_delete_ne _ "user"), !lookup_delete_eq by done|].
  destruct (decide (k = "accessToken")) as [->|?].
  - by rewrite !(lookup_delete_ne _ "user"), !(lookup_delete_ne _ "refreshToken"),
      !lookup_delete_eq by done.
  - by repeat (rewrite lookup_delete_ne by done).
Qed.

(** X3. [clearToken] removes nothing but the session: every other entry
    of the storage stays, and so do the page location, the refresh flag,
    the waiter list, the pending calls and the base URL. *)
Theorem clearToken_frame w :
  (forall k, k ∉ session_keys -> persisted (clearToken w) k = persisted w k) /\
  location_href <$> win (clearToken w) = location_href <$> win w /\
  isRefreshing (cl (clearToken w)) = isRefreshing (cl w) /\
  refreshSubscribers (cl (clearToken w)) = refreshSubscribers (cl w) /\
  baseURL (cl (clearToken w)) = baseURL (cl w) /\
  tasks (clearToken w) = tasks w /\
  net (clearToken w) = net w.
Proof.
  split; [|split; [|done]].
  - intros k Hk. unfold session_keys in Hk.
    apply not_elem_of_cons in Hk as [? Hk].
    apply not_elem_of_cons in Hk as [? Hk].
    apply not_elem_of_cons in Hk as [? _].
    unfold persisted, clearToken, with_storage, with_client. simpl.
    destruct (win w) as [b|]; simpl; [|done].
    by rewrite !lookup_delete_ne.
  - unfold clearToken, with_storage, with_client. simpl.
    by destruct (win w).
Qed.

(** ** Further properties of the request executor *)

Lemma is_FormData_serialize_body b :
  is_FormData (serialize_body b) = is_FormData b.
Proof. destruct b as [|j|]; try done. simpl. by destruct (_ && _). Qed.

Lemma lookup_request_headers tok o k :
  request_headers tok o !! k
  = if String.eqb k "Authorization" && truthy tok
    then Some ("Bearer " +:+ to_string tok)
    else if String.eqb k "Content-Type"
         then Some (default "application/json" (opt_headers o !! k))
         else opt_headers o !! k.
Proof.
  destruct (String.eqb_spec k "Authorization") as [->|Hauth]; simpl.
  - unfold request_headers. destruct (truthy tok).
    + apply lookup_insert_eq.
    + rewrite lookup_union, lookup_singleton_ne by done.
      by destruct (opt_headers o !! "Authorization").
  - destruct (String.eqb_spec k "Content-Type") as [->|Htype].
    + apply lookup_request_headers_content_type.
    + unfold request_headers.
      assert (Hu : (opt_headers o ∪ {["Content-Type" := "application/json"]}) !! k
                   = opt_headers o !! k).
      { rewrite lookup_union, lookup_singleton_ne by done.
        by destruct (opt_headers o !! k). }
      destruct (truthy tok); [|done]. by rewrite lookup_insert_ne.
Qed.

Lemma lookup_outgoing_headers tok o k :
  opt_headers (build_config tok o) !! k
  = if String.eqb k "Authorization" && truthy tok
    then Some ("Bearer " +:+ to_string tok)
    else if String.eqb k "Content-Type"
         then if is_FormData (opt_body o) then None
              else Some (default "application/json" (opt_headers o !! k))
         else opt_headers o !! k.
Proof.
  unfold build_config. cbn [opt_headers].
  rewrite is_FormData_serialize_body.
  destruct (is_FormData (opt_body o)); [|apply lookup_request_headers].
  destruct (String.eqb_spec k "Content-Type") as [->|Htype].
  - simpl. apply lookup_delete_eq.
  - rewrite lookup_delete_ne by done. rewrite lookup_request_headers.
    destruct (String.eqb_spec k "Content-Type"); done.
Qed.

(** X4. The headers [fetch] receives, header by header: [Authorization]
    is [Bearer <token>] when the client has a token, whatever the caller
    passed under that name; [Content-Type] is absent for a [FormData]
    body and otherwise the caller's or else [application/json]; every
    other header is the caller's, passed or absent as given. *)
Theorem outgoing_headers tok o k :
  opt_headers (build_config tok o) !! k
  = if String.eqb k "Authorization" && truthy tok
    then Some ("Bearer " +:+ to_string tok)
    else if String.eqb k "Content-Type"
         then if is_FormData (opt_body o) then None
              else Some (default "application/json" (opt_headers o !! k))
         else opt_headers o !! k.
Proof. apply lookup_outgoing_headers. Qed.

(** X5. The body reaches [fetch] changed exactly when it is a truthy
    object or array: a string (the [JSON.stringify] text most methods
    pass), a number, a boolean, [null], an absent body and a [FormData]
    are sent as given, so nothing is serialised twice; the method is
    always the caller's. *)
Theorem body_changed_iff_object tok o :
  opt_method (build_config tok o) = opt_method o /\
  (opt_body (build_config tok o) <> opt_body o <->
   exists j, opt_body o = BodyValue j /\
             truthy_json j = true /\ typeof_object j = true).
Proof.
  split; [reflexivity|]. unfold build_config. cbn [opt_body].
  destruct (opt_body o) as [|j|entries]; simpl.
  - split; [done|]. by intros (j & ? & _).
  - destruct (truthy_json j) eqn:Ht; simpl.
    + destruct (typeof_object j) eqn:Ho.
      * split; [by eauto|]. intros _ Heq. injection Heq as Heq.
        by rewrite <- Heq in Ho.
      * split; [done|]. intros (j' & [= <-] & _ & Ho'). congruence.
    + split; [done|]. intros (j' & [= <-] & Ht' & _). congruence.
  - split; [done|]. by intros (j & ? & _).
Qed.

(** X6. Two sends of one operation, the first attempt and the resend
    after a refresh, differ in the [Authorization] header at most: same
    method, same body, same other headers. *)
Theorem resend_same_but_authorization tok tok' o :
  opt_method (build_config tok o) = opt_method (build_config tok' o) /\
  opt_body (build_config tok o) = opt_body (build_config tok' o) /\
  forall k, k <> "Authorization" ->
    opt_headers (build_config tok o) !! k = opt_headers (build_config tok' o) !! k.
Proof.
  split; [reflexivity|]. split; [reflexivity|].
  intros k Hk. rewrite !lookup_outgoing_headers.
  apply String.eqb_neq in Hk. by rewrite Hk.
Qed.

Lemma decode_resolved_iff resp d :
  decode resp = Resolved d <-> ok resp = true /\ read_data resp = Some d.
Proof.
  unfold decode. destruct (read_data resp) as [data|].
  - destruct (ok resp).
    + split; [by intros [= ->]|]. by intros [_ [= ->]].
    + split; [by destruct data|]. by intros [? _].
  - split; [done|]. by intros [_ ?].
Qed.

(** X7. A call whose response neither starts nor joins a refresh resolves
    exactly when the response is in the success range and its body reads
    as JSON (or is empty and not announced as JSON), and then with that
    value; in every other case it throws. *)
Theorem resolves_iff_ok w t tk retry resp :
  tasks w !! t = Some tk -> t_stage tk = AwaitFetch retry ->
  (status resp =? 401)%N && retry && truthy (refreshToken (cl w)) = false ->
  exists w' o,
    step w (FetchSettled t (FetchResponse resp)) = Some w' /\
    stage_of w' t = Some (Settled o) /\
    (forall d, o = Resolved d <-> ok resp = true /\ read_data resp = Some d) /\
    ((exists e, o = Rejected e) <-> ok resp = false \/ read_data resp = None).
Proof.
  intros Htk Hst Hno.
  destruct (step_decodes w t tk retry resp Htk Hst Hno) as [Hstep Hstage].
  exists (set_stage t (Settled (decode resp)) w), (decode resp).
  split; [exact Hstep|]. split; [exact Hstage|].
  split; [apply decode_resolved_iff|].
  unfold decode. destruct (read_data resp) as [data|].
  - destruct (ok resp).
    + split; [by intros [e ?]|]. by intros [?|?].
    + split; [by left|]. intros _. destruct data; by eauto.
  - split; [by right|]. by eauto.
Qed.

Lemma step_without_refresh_token w t tk retry r :
  tasks w !! t = Some tk -> t_stage tk = AwaitFetch retry ->
  truthy (refreshToken (cl w)) = false ->
  exists w' o,
    step w (FetchSettled t r) = Some w' /\
    stage_of w' t = Some (Settled o) /\
    net w' = net w /\ cl w' = cl w /\ win w' = win w.
Proof.
  intros Htk Hst Hrt. simpl. rewrite Htk, Hst.
  unfold request_fetch_settled. destruct r as [|resp].
  - eexists _, _. split; [done|]. split; [|done].
    apply stage_of_set_stage_eq. eauto.
  - rewrite Hrt, andb_false_r.
    eexists _, _. split; [done|]. split; [|done].
    apply stage_of_set_stage_eq. eauto.
Qed.

(** X8. Without a refresh token no refresh is attempted: whatever the
    [fetch] of a call settles with, a 401 included, the call settles at
    once; nothing is sent and neither the client nor the browser
    changes. *)
Theorem no_refresh_token_no_refresh w t tk retry r :
  tasks w !! t = Some tk -> t_stage tk = AwaitFetch retry ->
  truthy (refreshToken (cl w)) = false ->
  exists w' o,
    step w (FetchSettled t r) = Some w' /\
    stage_of w' t = Some (Settled o) /\
    net w' = net w /\ cl w' = cl w /\ win w' = win w.
Proof. apply step_without_refresh_token. Qed.

(** ** Further properties of a refresh that settles *)

Lemma refresh_fails_throws r w :
  refresh_fails r = true ->
  exists e, attemptTokenRefresh_resume r w = (clearToken w, inl e) /\
            (r = FetchRejected -> e = FetchError) /\
            (forall resp, r = FetchResponse resp -> ok resp = false ->
                          e = Error "Token refresh failed").
Proof.
  unfold refresh_fails, attemptTokenRefresh_resume.
  destruct r as [|resp].
  { intros _. eexists. split; [reflexivity|]. split; [done|]. by intros. }
  destruct (ok resp) eqn:Hok; simpl.
  - destruct (response_json resp) as [data|].
    + destruct data; try done. intros _. eexists. split; [reflexivity|].
      split; [done|]. intros ? [= <-]. congruence.
    + intros _. eexists. split; [reflexivity|].
      split; [done|]. intros ? [= <-]. congruence.
  - intros _. eexists. split; [reflexivity|]. split; [done|]. done.
Qed.

Lemma refresh_succeeds_returns r w :
  refresh_fails r = false ->
  exists resp data,
    r = FetchResponse resp /\ ok resp = true /\ response_json resp = Some data /\
    data <> JNull /\
    attemptTokenRefresh_resume r w
    = if setItem_throws (get data "access_token") w
      then (clearToken w, inl TypeError)
      else (setToken (get data "access_token") w, inr (get data "access_token")).
Proof.
  unfold refresh_fails, attemptTokenRefresh_resume.
  destruct r as [|resp]; [done|].
  destruct (ok resp) eqn:Hok; simpl; [|done].
  destruct (response_json resp) as [data|] eqn:Hjson; [|done].
  intros Hdata. exists resp, data.
  split; [reflexivity|]. split; [exact Hok|]. split; [exact Hjson|].
  split; [by intros ->|]. rewrite ?Hjson. by destruct data.
Qed.

Lemma refresh_failed_effects t tk e w :
  tasks w !! t = Some tk ->
  let w' := refresh_failed t e (clearToken w) in
  stage_of w' t = Some (Settled (Rejected e)) /\
  token (cl w') = null /\ refreshToken (cl w') = null /\
  (forall k, k ∈ session_keys -> persisted w' k = None) /\
  isRefreshing (cl w') = false /\
  location_href <$> win w' = (fun _ => "/login") <$> win w /\
  net w' = net w /\
  refreshSubscribers (cl w') = refreshSubscribers (cl w) /\
  (forall u, u <> t -> stage_of w' u = stage_of w u).
Proof.
  intros Htk w'. subst w'. split; [|split; [done|split; [done|split]]].
  - unfold refresh_failed. apply stage_of_set_stage_eq. simpl. eauto.
  - intros k Hk. rewrite persisted_refresh_failed. by apply persisted_clearToken.
  - split; [done|]. split.
    + unfold refresh_failed, redirect, clearToken, with_storage. simpl.
      by destruct (win w).
    + split; [done|]. split; [done|].
      intros u Hu. unfold refresh_failed. by rewrite stage_of_set_stage_ne.
Qed.

(** X9. A refresh that fails in any way ([fetch] rejected, a status
    outside the success range, a body that is not JSON or is [null])
    rejects the call that started it, empties the session in the client
    and in the storage, clears the refresh flag and sends the page to
    [/login]; it sends nothing, and it leaves the waiter list and every
    other call as they were. *)
Theorem refresh_failure_effects w t tk r :
  tasks w !! t = Some tk -> t_stage tk = AwaitRefresh ->
  refresh_fails r = true ->
  exists w' e,
    step w (RefreshSettled t r) = Some w' /\
    stage_of w' t = Some (Settled (Rejected e)) /\
    (r = FetchRejected -> e = FetchError) /\
    (forall resp, r = FetchResponse resp -> ok resp = false ->
                  e = Error "Token refresh failed") /\
    token (cl w') = null /\ refreshToken (cl w') = null /\
    (forall k, k ∈ session_keys -> persisted w' k = None) /\
    isRefreshing (cl w') = false /\
    location_href <$> win w' = (fun _ => "/login") <$> win w /\
    net w' = net w /\
    refreshSubscribers (cl w') = refreshSubscribers (cl w) /\
    (forall u, u <> t -> stage_of w' u = stage_of w u).
Proof.
  intros Htk Hst Hfails.
  destruct (refresh_fails_throws r w Hfails) as (e & Hthrow & He1 & He2).
  exists (refresh_failed t e (clearToken w)), e.
  split.
  { simpl. rewrite Htk, Hst. unfold request_refresh_settled. by rewrite Hthrow. }
  destruct (refresh_failed_effects t tk e w Htk) as (? & ? & ? & ? & ? & ? & ? & ? & ?).
  repeat (split; [done|]). done.
Qed.

(** X10. A failed refresh is not tried again by itself: in the state it
    leaves, the refresh token is gone, so every call still at its [fetch]
    settles at once with whatever arrives, a 401 included, and no call of
    [/auth/refresh] or of anything else is made. *)
Theorem failed_refresh_not_retried w t tk r :
  tasks w !! t = Some tk -> t_stage tk = AwaitRefresh ->
  refresh_fails r = true ->
  exists w',
    step w (RefreshSettled t r) = Some w' /\
    forall u tku retry r',
      tasks w' !! u = Some tku -> t_stage tku = AwaitFetch retry ->
      exists w'' o,
        step w' (FetchSettled u r') = Some w'' /\
        stage_of w'' u = Some (Settled o) /\
        net w'' = net w' /\ refresh_calls w'' = refresh_calls w.
Proof.
  intros Htk Hst Hfails.
  destruct (refresh_fails_throws r w Hfails) as (e & Hthrow & _).
  exists (refresh_failed t e (clearToken w)).
  split.
  { simpl. rewrite Htk, Hst. unfold request_refresh_settled. by rewrite Hthrow. }
  intros u tku retry r' Hu Hstu.
  destruct (step_without_refresh_token _ u tku retry r' Hu Hstu)
    as (w'' & o & Hstep & Hstage & Hnet & _); [done|].
  exists w'', o. split; [done|]. split; [done|]. split; [done|].
  unfold refresh_calls. by rewrite Hnet.
Qed.

(** X11. A refresh response in the success range whose body is JSON and
    not [null] counts as a success whenever its [access_token] can be
    stored, that is, outside a browser or when it has a string: the
    access token of the client becomes that [access_token] (so
    [undefined] when the field is missing) and the storage holds the
    text of it; the refresh token and the cached user stay as they were,
    in the client and in the storage; the refresh flag is cleared, the
    waiter list is empty and the page stays where it is; the call that
    started the refresh is at its [fetch] again, or rejected with a
    TypeError where the new token has no string.  In a browser, an
    [access_token] without a string makes the refresh fail as any other
    failure does: the call is rejected with the TypeError, the session
    is emptied, the flag cleared, the page sent to [/login], nothing is
    sent and the waiter list is left as it was.  The session is changed
    when the response arrives; the flag, the list and the page when the
    call resumes. *)
Theorem refresh_success_effects w t tk r :
  tasks w !! t = Some tk -> t_stage tk = AwaitRefresh ->
  returned w !! t = None ->
  refresh_fails r = false ->
  exists w' resp data,
    r = FetchResponse resp /\ response_json resp = Some data /\
    step w (RefreshSettled t r) = Some w' /\
    (exists w1,
       step w (RefreshArrived t r) = Some w1 /\
       session w1 = session w' /\
       returned w1 !! t
       = Some (if setItem_throws (get data "access_token") w
               then inl TypeError else inr (get data "access_token")) /\
       isRefreshing (cl w1) = isRefreshing (cl w) /\
       refreshSubscribers (cl w1) = refreshSubscribers (cl w) /\
       location_href <$> win w1 = location_href <$> win w /\
       tasks w1 = tasks w /\ net w1 = net w) /\
    if setItem_throws (get data "access_token") w
    then
      stage_of w' t = Some (Settled (Rejected TypeError)) /\
      token (cl w') = null /\ refreshToken (cl w') = null /\
      (forall k, k ∈ session_keys -> persisted w' k = None) /\
      isRefreshing (cl w') = false /\
      location_href <$> win w' = (fun _ => "/login") <$> win w /\
      net w' = net w /\
      refreshSubscribers (cl w') = refreshSubscribers (cl w)
    else
      stage_of w' t
      = Some (if sendable (get data "access_token") then AwaitFetch false
              else Settled (Rejected TypeError)) /\
      token (cl w') = get data "access_token" /\
      (is_Some (win w) ->
       persisted w' "accessToken" = Some (to_string (get data "access_token"))) /\
      refreshToken (cl w') = refreshToken (cl w) /\
      persisted w' "refreshToken" = persisted w "refreshToken" /\
      persisted w' "user" = persisted w "user" /\
      isRefreshing (cl w') = false /\
      refreshSubscribers (cl w') = [] /\
      location_href <$> win w' = location_href <$> win w.
Proof.
  intros Htk Hst Hnone Hfine.
  destruct (refresh_succeeds_returns r w Hfine)
    as (resp & data & -> & Hok & Hjson & Hnull & Hret).
  set (tok := get data "access_token") in *.
  destruct (setItem_throws tok w) eqn:Hthrows.
  - exists (refresh_failed t TypeError (clearToken w)), resp, data.
    fold tok. rewrite Hthrows.
    split; [done|]. split; [done|]. split.
    { simpl. rewrite Htk, Hst. unfold request_refresh_settled. by rewrite Hret. }
    split.
    { eexists. split.
      { simpl. rewrite Htk, Hst, Hnone. unfold refresh_arrived. by rewrite Hret. }
      split; [|split; [apply lookup_insert_eq|]].
      - unfold session, refresh_failed, redirect, clearToken, with_storage. simpl.
        by destruct (win w).
      - split; [done|]. split; [done|]. split; [|done].
        unfold clearToken, with_storage. simpl. by destruct (win w). }
    destruct (refresh_failed_effects t tk TypeError w Htk)
      as (? & ? & ? & ? & ? & ? & ? & ? & ?).
    repeat (split; [done|]). done.
  - set (w1 := set_isRefreshing false (setToken tok w)).
    assert (Htk1 : tasks w1 !! t = Some tk) by exact Htk.
    exists (request_again t (t_endpoint tk) (t_options tk) (onTokenRefreshed tok w1)),
           resp, data.
    fold tok. rewrite Hthrows.
    split; [done|]. split; [done|]. split.
    { simpl. rewrite Htk, Hst. unfold request_refresh_settled. by rewrite Hret. }
    destruct (onTokenRefreshed_frame tok w1)
      as (Hwin & _ & Htoken & Hrt & Hflag & _ & Hsubs & _).
    split.
    { eexists. split.
      { simpl. rewrite Htk, Hst, Hnone. unfold refresh_arrived. by rewrite Hret. }
      split; [|split; [apply lookup_insert_eq|]].
      - unfold session. rewrite !cl_request_again, win_request_again, Hwin, Htoken, Hrt.
        done.
      - split; [done|]. split; [done|]. split; [|done].
        unfold setToken, with_storage. simpl. by destruct (win w). }
    split.
    { unfold stage_of. rewrite (refresh_success_tasks t tk tok w1 t Htk1).
      change (tasks w1) with (tasks w). rewrite Htk.
      rewrite decide_True; [done|].
      rewrite fmap_app. apply elem_of_app. right. apply list_elem_of_here. }
    rewrite !cl_request_again. unfold persisted. rewrite win_request_again, Hwin.
    rewrite Htoken, Hrt, Hflag, Hsubs.
    unfold w1, setToken, set_isRefreshing, with_storage, with_client. simpl.
    destruct (win w) as [b|]; simpl.
    + rewrite lookup_insert_eq, !lookup_insert_ne by done.
      repeat (split; [done|]). done.
    + split; [done|]. split; [by intros [? ?]|]. repeat (split; [done|]). done.
Qed.

Lemma session_request_fetch_settled t tk retry r w :
  session (request_fetch_settled t tk retry r w) = session w.
Proof.
  unfold request_fetch_settled.
  destruct r as [|resp]; [reflexivity|].
  destruct (_ && truthy _); [|reflexivity].
  destruct (negb _); [|reflexivity]. cbv zeta.
  unfold attemptTokenRefresh_begin.
  destruct (refreshToken _) as [rt|]; [destruct (truthy_json rt)|];
    try reflexivity;
    unfold session, refresh_failed, redirect; simpl; by destruct (win w).
Qed.

(** ** Further properties of [login] and [logout] *)

Lemma stage_of_request_new endpoint o retry w :
  stage_of (request endpoint o retry w) (length (tasks w))
  = Some (if sendable (token (cl w)) then AwaitFetch retry
          else Settled (Rejected TypeError)).
Proof.
  rewrite request_cases. unfold stage_of.
  destruct (sendable _); simpl; by rewrite lookup_app_r, Nat.sub_diag by lia.
Qed.

Lemma net_request endpoint o retry w :
  net (request endpoint o retry w)
  = net w ++ (if sendable (token (cl w))
              then [OpFetch (length (tasks w)) (baseURL (cl w) +:+ endpoint)
                      (build_config (token (cl w)) o)]
              else []).
Proof.
  rewrite request_cases. destruct (sendable _); simpl; [done|].
  by rewrite app_nil_r.
Qed.

Lemma session_request endpoint o retry w :
  session (request endpoint o retry w) = session w.
Proof. unfold session. by rewrite cl_request, win_request. Qed.

Lemma login_settled_cases r w :
  (exists e, login_settled r w = (w, Rejected e)) \/
  (exists data,
     login_settled r w
     = (with_storage (insert "user" (stringify_stored (get data "user")))
          (if truthy (get data "refresh_token")
           then setRefreshToken (get data "refresh_token")
                  (setToken (get data "access_token") w)
           else setToken (get data "access_token") w),
        Resolved data)) \/
  (exists tok, login_settled r w = (assign_token tok w, Rejected TypeError)) \/
  (exists tok rt,
     login_settled r w
     = (assign_refreshToken rt (setToken tok w), Rejected TypeError)).
Proof.
  unfold login_settled. destruct r as [|resp]; [by eauto|].
  destruct (response_json resp) as [data|]; [|by eauto].
  destruct data; try (by eauto);
    (destruct (negb (ok resp)); [by eauto|];
     destruct (setItem_throws _ w); [by eauto 6|];
     destruct (truthy _ && setItem_throws _ _); by eauto 8).
Qed.

(** X13. A login that throws before it stores anything (the network, a
    body that is not JSON or is [null], a status outside the success
    range) changes nothing: the client, the storage, the pending calls
    and the page are as before.  A login in the success range throws
    after it began to store only in a browser, with a TypeError, and in
    two ways: its [access_token] has no string, and then the token of
    the client is that value already and nothing else has changed; or
    its [refresh_token] is truthy and has no string, and then the access
    token is in the client and in the storage, the refresh token of the
    client is that value already and nothing else has changed. *)
Theorem failed_login_effects r w w' e :
  login_settled r w = (w', Rejected e) ->
  ((r = FetchRejected \/
    exists resp, r = FetchResponse resp /\
      (ok resp = false \/ response_json resp = None \/
       response_json resp = Some JNull)) ->
   w' = w) /\
  (forall resp data,
     r = FetchResponse resp -> ok resp = true ->
     response_json resp = Some data -> data <> JNull ->
     is_Some (win w) /\ e = TypeError /\
     ((stringable (get data "access_token") = false /\
       w' = assign_token (get data "access_token") w) \/
      (stringable (get data "access_token") = true /\
       truthy (get data "refresh_token") = true /\
       stringable (get data "refresh_token") = false /\
       w' = assign_refreshToken (get data "refresh_token")
              (setToken (get data "access_token") w)))).
Proof.
  unfold login_settled. intros Hlogin. split.
  - intros [->|(resp & -> & Hbad)]; [by injection Hlogin as <-|].
    destruct (response_json resp) as [data|]; [|by injection Hlogin as <-].
    destruct (ok resp).
    + destruct Hbad as [?|[?|Hnull]]; try done.
      injection Hnull as ->. by injection Hlogin as <-.
    + simpl in Hlogin. destruct data; by injection Hlogin as <-.
  - intros resp data -> Hok Hjson Hnull.
    rewrite Hjson, Hok in Hlogin. simpl in Hlogin.
    assert (Hthrown :
      (if setItem_throws (get data "access_token") w
       then (assign_token (get data "access_token") w, Rejected TypeError)
       else if truthy (get data "refresh_token")
               && setItem_throws (get data "refresh_token")
                    (setToken (get data "access_token") w)
       then (assign_refreshToken (get data "refresh_token")
               (setToken (get data "access_token") w), Rejected TypeError)
       else (with_storage (insert "user" (stringify_stored (get data "user")))
               (if truthy (get data "refresh_token")
                then setRefreshToken (get data "refresh_token")
                       (setToken (get data "access_token") w)
                else setToken (get data "access_token") w),
             Resolved data))
      = (w', Rejected e)) by (by destruct data).
    clear Hlogin. revert Hthrown.
    unfold setItem_throws at 1 2. cbn [win setToken with_storage with_client].
    destruct (win w) as [b|]; cbn [fmap option_fmap option_map].
    + destruct (stringable (get data "access_token")); cbn [negb].
      * destruct (truthy (get data "refresh_token")); cbn [andb]; [|done].
        destruct (stringable (get data "refresh_token")); cbn [negb]; [done|].
        intros [= <- <-]. split; [by eauto|]. split; [done|]. right. done.
      * intros [= <- <-]. split; [by eauto|]. split; [done|]. by left.
    + rewrite andb_false_r. done.
Qed.

(** X14. A login whose response carries both tokens as strings, the
    refresh token not empty, puts both into the client and into the
    storage, so that a reload of the page starts with the same two
    tokens; it touches neither the refresh flag, nor the waiter list, nor
    the pending calls. *)
Theorem login_then_restart API_URL r w w' data access refresh :
  login_settled r w = (w', Resolved data) ->
  is_Some (win w) ->
  get data "access_token" = Some (JStr access) ->
  get data "refresh_token" = Some (JStr refresh) -> refresh <> "" ->
  token (cl w') = Some (JStr access) /\
  refreshToken (cl w') = Some (JStr refresh) /\
  token (cl (new_ApiClient API_URL (win w'))) = Some (JStr access) /\
  refreshToken (cl (new_ApiClient API_URL (win w'))) = Some (JStr refresh) /\
  isRefreshing (cl w') = isRefreshing (cl w) /\
  refreshSubscribers (cl w') = refreshSubscribers (cl w) /\
  tasks w' = tasks w /\ net w' = net w.
Proof.
  intros Hlogin [b Hb] Ha Hr Hne.
  destruct (login_settled_cases r w)
    as [[e' Hl]|[[d Hl]|[[tok Hl]|(tok & rt & Hl)]]];
    rewrite Hl in Hlogin; try done.
  injection Hlogin as <- ->. rewrite Ha, Hr. simpl.
  apply String.eqb_neq in Hne. rewrite Hne. simpl.
  unfold setRefreshToken, setToken, with_storage, with_client. simpl.
  rewrite Hb. simpl. unfold getItem. simpl.
  rewrite !(lookup_insert_ne _ "user") by done.
  rewrite lookup_insert_eq, lookup_insert_ne, lookup_insert_eq by done.
  done.
Qed.

(** X15. [logout] sends a POST without body to [/auth/logout] and clears
    nothing yet; where the token of the client has no string, the call
    throws a TypeError before anything is sent.  [logout] clears the
    session exactly when that call of [request] resolves.  When the
    response (one that neither starts nor joins a refresh) is in the
    success range and its body reads, [logout] returns and both tokens
    and the three stored entries are gone; when the status is outside
    the success range or the body does not read, [logout] throws the
    error of [request] and the session, tokens and storage, is exactly
    as before the response. *)
Theorem logout_clears_iff_resolved w t tk retry resp :
  tasks w !! t = Some tk -> t_stage tk = AwaitFetch retry ->
  (status resp =? 401)%N && retry && truthy (refreshToken (cl w)) = false ->
  (forall w0,
     session (logout_begin w0) = session w0 /\
     if sendable (token (cl w0))
     then
       stage_of (logout_begin w0) (length (tasks w0)) = Some (AwaitFetch true) /\
       exists config,
         net (logout_begin w0)
         = net w0 ++ [OpFetch (length (tasks w0))
                        (baseURL (cl w0) +:+ "/auth/logout") config] /\
         opt_method config = Some "POST" /\ opt_body config = BodyAbsent
     else
       stage_of (logout_begin w0) (length (tasks w0))
       = Some (Settled (Rejected TypeError)) /\
       net (logout_begin w0) = net w0 /\
       logout_resume (Rejected TypeError) (logout_begin w0)
       = (logout_begin w0, Some TypeError)) /\
  exists w' o,
    step w (FetchSettled t (FetchResponse resp)) = Some w' /\
    stage_of w' t = Some (Settled o) /\
    (ok resp = true -> is_Some (read_data resp) ->
     snd (logout_resume o w') = None /\
     token (cl (fst (logout_resume o w'))) = null /\
     refreshToken (cl (fst (logout_resume o w'))) = null /\
     forall k, k ∈ session_keys -> persisted (fst (logout_resume o w')) k = None) /\
    (ok resp = false \/ read_data resp = None ->
     (exists e, o = Rejected e /\ snd (logout_resume o w') = Some e) /\
     fst (logout_resume o w') = w' /\
     session (fst (logout_resume o w')) = session w).
Proof.
  intros Htk Hst Hno. split.
  { intros w0. unfold logout_begin. split; [apply session_request|].
    rewrite stage_of_request_new, net_request.
    destruct (sendable _).
    - split; [done|]. eexists. split; [reflexivity|]. done.
    - split; [done|]. split; [apply app_nil_r|done]. }
  destruct (step_decodes w t tk retry resp Htk Hst Hno) as [Hstep Hstage].
  exists (set_stage t (Settled (decode resp)) w), (decode resp).
  split; [exact Hstep|]. split; [exact Hstage|]. split.
  - intros Hok [d Hd].
    assert (Hdec : decode resp = Resolved d) by (by apply decode_resolved_iff).
    rewrite Hdec. simpl. repeat split. apply persisted_clearToken.
  - intros Hbad.
    assert (Hdec : exists e, decode resp = Rejected e).
    { unfold decode. destruct (read_data resp) as [data|]; [|by eauto].
      destruct (ok resp); [by destruct Hbad|]. destruct data; by eauto. }
    destruct Hdec as [e ->]. simpl. split; [by eauto|]. done.
Qed.

(** ** [createAssetRelationship] *)

Lemma or_json_truthy a b :
  truthy_json b = true -> truthy_json (or_json a b) = true.
Proof.
  intros Hb. unfold or_json. destruct a as [j|]; [|done].
  by destruct (truthy_json j) eqn:Hj.
Qed.

(** X16. The body [createAssetRelationship] builds: the criticality that
    is sent is never falsy, a criticality of 0 (or none) is replaced by
    3; a description that is empty or missing is sent as [null], so the
    empty string is never sent; the target and the type are sent as
    given. *)
Theorem relationship_body_defaults target type opts :
  let sent := relationship_body target type opts in
  (exists c, get sent "criticality" = Some c /\ truthy_json c = true /\
             (truthy (get opts "criticality") = true ->
              Some c = get opts "criticality") /\
             (truthy (get opts "criticality") = false -> c = JNum "3")) /\
  (exists d, get sent "description" = Some d /\ d <> JStr "" /\
             (truthy (get opts "description") = false -> d = JNull)) /\
  get sent "target_asset_id" = Some target /\
  get sent "relationship_type" = Some type.
Proof.
  simpl. split; [|split; [|done]].
  - eexists. split; [reflexivity|]. split; [by apply or_json_truthy|].
    unfold or_json. destruct (get opts "criticality") as [j|]; simpl; [|done].
    destruct (truthy_json j); split; congruence.
  - eexists. split; [reflexivity|].
    unfold or_json. destruct (get opts "description") as [j|]; simpl; [|done].
    destruct (truthy_json j) eqn:Hj; [|done].
    split; [|done]. by intros ->.
Qed.

(** X17. [createAssetRelationship] makes one call of [fetch]: a POST to
    [/assets/<source>/relationships] under the base URL whose body is the
    JSON text of the object of X16, announced as [application/json], with
    the bearer token when the client has one; the new call may be retried
    once.  With [null] for the options, or with a source id that has no
    string, it throws before [request] is called; and where the token of
    the client has no string, the call of [request] throws and nothing is
    sent.  The session is left as it was in every case. *)
Theorem createAssetRelationship_sends source target type opts w :
  match createAssetRelationship source target type opts w with
  | inl e => (opts = JNull \/ stringable source = false) /\ e = TypeError
  | inr w' =>
      opts <> JNull /\ stringable source = true /\
      session w' = session w /\
      if sendable (token (cl w))
      then
        exists config,
          net w' = net w ++
            [OpFetch (length (tasks w))
               (baseURL (cl w) +:+ "/assets/" +:+ to_string source +:+ "/relationships")
               config] /\
          opt_method config = Some "POST" /\
          opt_body config
          = BodyValue (JStr (JSON_stringify (relationship_body target type opts))) /\
          opt_headers config !! "Content-Type" = Some "application/json" /\
          (truthy (token (cl w)) = true ->
           opt_headers config !! "Authorization"
           = Some ("Bearer " +:+ to_string (token (cl w)))) /\
          stage_of w' (length (tasks w)) = Some (AwaitFetch true)
      else
        net w' = net w /\
        stage_of w' (length (tasks w)) = Some (Settled (Rejected TypeError))
  end.
Proof.
  unfold createAssetRelationship.
  destruct (stringable source); simpl; [|by eauto].
  destruct opts eqn:Hopts; try (by eauto); rewrite <- Hopts;
    (split; [by rewrite Hopts|]; split; [done|];
     split; [apply session_request|];
     rewrite stage_of_request_new, net_request;
     destruct (sendable _); [|split; [apply app_nil_r|done]];
     exists (build_config (token (cl w))
               (mkOptions (Some "POST") ∅
                  (BodyValue (relationship_body target type opts))));
     split; [reflexivity|];
     split; [reflexivity|]; split; [reflexivity|];
     split; [by rewrite lookup_outgoing_headers|];
     split; [intros Htok; by rewrite lookup_outgoing_headers, Htok|];
     done).
Qed.

(** ** [getTypeColor] of the relationships page *)

Lemma getTypeColor_string s :
  getTypeColor (Some (JStr s))
  = if String.eqb "depends_on" s then "orange"
    else if String.eqb "parent_of" s then "blue"
    else if String.eqb "child_of" s then "purple"
    else if String.eqb "connected_to" s then "cyan"
    else if String.eqb "runs_on" s then "green"
    else if String.eqb "backs_up_to" s then "yellow"
    else "slate".
Proof.
  unfold getTypeColor, relationshipTypes, is_string. cbn [List.find fst snd].
  repeat match goal with
  | |- context [String.eqb ?a s] => destruct (String.eqb a s); [reflexivity|]
  end. reflexivity.
Qed.

(** X18. [getTypeColor] gives each of the six relationship types of the
    page its own colour, and [slate] to everything else (another string,
    a value that is not a string, [undefined]) and to nothing else: the
    class name built from it is always one of seven. *)
Theorem getTypeColor_total type :
  (forall v label colour,
     (v, label, colour) ∈ relationshipTypes ->
     getTypeColor (Some (JStr v)) = colour) /\
  (getTypeColor type = "slate" <->
   forall v label colour,
     (v, label, colour) ∈ relationshipTypes -> type <> Some (JStr v)) /\
  getTypeColor type
  ∈ ["orange"; "blue"; "purple"; "cyan"; "green"; "yellow"; "slate"].
Proof.
  split; [|split].
  - intros v label colour Hin. unfold relationshipTypes in Hin.
    repeat (apply elem_of_cons in Hin as [[= -> -> ->]|Hin]; [reflexivity|]).
    by apply elem_of_nil in Hin.
  - split.
    + intros Hslate v label colour Hin ->. unfold relationshipTypes in Hin.
      repeat (apply elem_of_cons in Hin as [[= -> -> ->]|Hin]; [done|]).
      by apply elem_of_nil in Hin.
    + intros Hnone.
      destruct type as [[| | |s| |]|]; try reflexivity.
      rewrite getTypeColor_string.
      repeat match goal with
      | |- context [String.eqb ?a s] =>
          destruct (String.eqb_spec a s) as [<-|?];
          [exfalso; eapply (Hnone a); [|reflexivity]; unfold relationshipTypes;
           repeat first [apply list_elem_of_here | apply list_elem_of_further] |]
      end. reflexivity.
  - destruct type as [[| | |s| |]|];
      try (by vm_compute; repeat first [apply list_elem_of_here | apply list_elem_of_further]).
    rewrite getTypeColor_string.
    repeat match goal with
    | |- context [String.eqb ?a s] => destruct (String.eqb a s)
    end; repeat first [apply list_elem_of_here | apply list_elem_of_further].
Qed.

(** ** More of what every reachable state satisfies *)

Lemma stage_of_request endpoint o retry w t :
  stage_of (request endpoint o retry w) t
  = if decide (t = length (tasks w))
    then Some (if sendable (token (cl w)) then AwaitFetch retry
               else Settled (Rejected TypeError))
    else stage_of w t.
Proof.
  destruct (decide (t = length (tasks w))) as [->|Hne];
    [apply stage_of_request_new|].
  rewrite request_cases. unfold stage_of.
  destruct (sendable _); simpl;
    (destruct (decide (t < length (tasks w))) as [Hlt|Hge];
     [by rewrite lookup_app_l
     |rewrite !(proj2 (lookup_ge_None _ _)); [done|lia|];
      rewrite length_app; simpl; lia]).
Qed.

Lemma stage_of_set_stage t s w u :
  stage_of (set_stage t s w) u
  = if decide (u = t) then (fun _ => s) <$> tasks w !! t else stage_of w u.
Proof.
  unfold stage_of, set_stage. simpl.
  destruct (decide (u = t)) as [->|Hne].
  - rewrite list_lookup_alter_eq. by destruct (tasks w !! t).
  - by rewrite list_lookup_alter_ne.
Qed.

Lemma stage_of_Some w t s :
  stage_of w t = Some s <-> exists tk, tasks w !! t = Some tk /\ t_stage tk = s.
Proof.
  unfold stage_of. destruct (tasks w !! t) as [tk|]; simpl.
  - split; [intros [= <-]; by eauto|]. by intros (? & [= <-] & <-).
  - split; [done|]. by intros (? & ? & _).
Qed.

Lemma refreshes_of_log t c w :
  refreshes_of t (log c w) = refreshes_of t w + (if refresh_for t c then 1 else 0).
Proof.
  unfold refreshes_of, log. simpl. by rewrite count_calls_app, count_calls_one.
Qed.

Lemma resends_are_not_refreshes t c cbs :
  count_calls (refresh_for t) (resends c cbs) = 0.
Proof.
  unfold resends. destruct (sendable _); [|done].
  induction cbs as [|cb cbs IH]; [done|].
  rewrite fmap_cons, count_calls_cons, IH. reflexivity.
Qed.

(** A change of state that keeps the base URL and the operation of every
    call keeps the provenance of what was sent. *)
Lemma well_sourced_kept w w' c :
  baseURL (cl w') = baseURL (cl w) ->
  (forall t tk, tasks w !! t = Some tk ->
     exists s, tasks w' !! t = Some (mkTask (t_endpoint tk) (t_options tk) s)) ->
  well_sourced w c -> well_sourced w' c.
Proof.
  intros Hbase Hops. destruct c as [t url config|t url b]; simpl.
  - intros (tk & tok & Htk & -> & ->).
    destruct (Hops t tk Htk) as [s Hs].
    eexists _, tok. split; [exact Hs|]. by rewrite Hbase.
  - intros [[tk Htk] ->]. destruct (Hops t tk Htk) as [s Hs].
    split; [by eauto|]. by rewrite Hbase.
Qed.

Lemma set_stage_keeps_operations t s w0 w :
  tasks w0 = tasks w ->
  forall u tk, tasks w !! u = Some tk ->
    exists s', tasks (set_stage t s w0) !! u
               = Some (mkTask (t_endpoint tk) (t_options tk) s').
Proof.
  intros Htasks u tk Hu. unfold set_stage. simpl. rewrite Htasks.
  destruct (decide (t = u)) as [->|Hne].
  - rewrite list_lookup_alter_eq, Hu. simpl. by eauto.
  - rewrite list_lookup_alter_ne, Hu by done. destruct tk. by eauto.
Qed.

Lemma coordinated_new API_URL window : coordinated (new_ApiClient API_URL window).
Proof.
  split; simpl; try done.
  all: try (by intros c ?%elem_of_nil).
  all: intros; unfold stage_of in *; by rewrite ?lookup_nil in *.
Qed.

Lemma coordinated_frame w w' :
  isRefreshing (cl w') = isRefreshing (cl w) ->
  refreshSubscribers (cl w') = refreshSubscribers (cl w) ->
  baseURL (cl w') = baseURL (cl w) ->
  tasks w' = tasks w -> net w' = net w ->
  coordinated w -> coordinated w'.
Proof.
  intros Hr Hs Hb Ht Hn [A B C D E F G].
  split; unfold stage_of, refreshes_of in *; rewrite ?Hr, ?Hs, ?Ht, ?Hn; auto.
  intros c Hc. apply (well_sourced_kept w); [done| |by apply G].
  intros t tk Htk. rewrite Ht, Htk. destruct tk. by eauto.
Qed.

Lemma coordinated_request endpoint o retry w :
  coordinated w -> coordinated (request endpoint o retry w).
Proof.
  intros [A B C D E F G].
  set (s0 := if sendable (token (cl w)) then AwaitFetch retry
             else Settled (Rejected TypeError)).
  assert (Hs0 : s0 <> AwaitRefresh /\ s0 <> Subscribed)
    by (unfold s0; by destruct (sendable _)).
  assert (Hold : forall t s, s <> s0 ->
            stage_of (request endpoint o retry w) t = Some s -> stage_of w t = Some s).
  { intros t s Hs. rewrite stage_of_request. fold s0. case_decide; [congruence|done]. }
  assert (Hnew : forall t s, stage_of w t = Some s ->
            stage_of (request endpoint o retry w) t = Some s).
  { intros t s Ht. rewrite stage_of_request. rewrite decide_False; [done|].
    apply stage_of_Some in Ht as (tk & Htk%lookup_lt_Some & _). lia. }
  assert (Htasks : tasks (request endpoint o retry w) = tasks w ++ [mkTask endpoint o s0]).
  { rewrite request_cases. unfold s0. by destruct (sendable _). }
  assert (Hkeep : forall t tk, tasks w !! t = Some tk ->
            exists s, tasks (request endpoint o retry w) !! t
                      = Some (mkTask (t_endpoint tk) (t_options tk) s)).
  { intros t tk Htk. rewrite Htasks.
    rewrite lookup_app_l by (by eapply lookup_lt_Some).
    rewrite Htk. destruct tk. by eauto. }
  assert (Hrefreshes : forall t, refreshes_of t (request endpoint o retry w)
                                 = refreshes_of t w).
  { intros t. unfold refreshes_of. rewrite net_request, count_calls_app.
    destruct (sendable _); [rewrite count_calls_one|]; apply Nat.add_0_r. }
  split.
  - intros Hidle t Ht. rewrite cl_request in Hidle. apply (A Hidle t).
    apply Hold; [|done]. intros Heq. by apply (proj1 Hs0).
  - rewrite cl_request. intros Hr. destruct (B Hr) as [t Ht]. exists t. by apply Hnew.
  - intros t u Ht Hu. apply C; (apply Hold; [|done]); intros Heq; by apply (proj1 Hs0).
  - intros t Ht. rewrite cl_request. apply D.
    apply Hold; [|done]. intros Heq. by apply (proj2 Hs0).
  - intros t tk Htk. rewrite Hrefreshes. rewrite Htasks in Htk.
    destruct (decide (t < length (tasks w))) as [Hlt|Hge].
    + rewrite lookup_app_l in Htk by done. by apply E.
    + rewrite F by lia. lia.
  - intros t Ht. rewrite Hrefreshes. rewrite Htasks, length_app in Ht.
    simpl in Ht. apply F. lia.
  - intros c Hc. rewrite net_request in Hc.
    apply elem_of_app in Hc as [Hc|Hc].
    + apply (well_sourced_kept w); [by rewrite cl_request|exact Hkeep|by apply G].
    + destruct (sendable _) eqn:Hsend; [|by apply elem_of_nil in Hc].
      apply list_elem_of_singleton in Hc as ->. simpl.
      exists (mkTask endpoint o s0), (token (cl w)).
      split; [|split; [by rewrite cl_request|reflexivity]].
      by rewrite Htasks, lookup_app_r, Nat.sub_diag by lia.
Qed.

Lemma may_refresh_bound s : (if may_refresh s then 0 else 1) <= 1.
Proof. destruct (may_refresh s); lia. Qed.

Lemma coordinated_settle t tk retry o w :
  coordinated w -> tasks w !! t = Some tk -> t_stage tk = AwaitFetch retry ->
  coordinated (set_stage t (Settled o) w).
Proof.
  intros [A B C D E F G] Htk Hst.
  assert (Ht : stage_of w t = Some (AwaitFetch retry))
    by (apply stage_of_Some; eauto).
  assert (Hold : forall u s, s <> Settled o ->
            stage_of (set_stage t (Settled o) w) u = Some s -> stage_of w u = Some s).
  { intros u s Hs. rewrite stage_of_set_stage, Htk. case_decide; [|done].
    simpl. congruence. }
  split.
  - intros Hidle u Hu. apply (A Hidle u). by apply Hold.
  - intros Hr. destruct (B Hr) as [u Hu]. exists u.
    rewrite stage_of_set_stage. rewrite decide_False; [done|]. congruence.
  - intros u v Hu Hv. apply C; by apply Hold.
  - intros u Hu. apply D. by apply Hold.
  - intros u tku. unfold set_stage, refreshes_of. simpl.
    destruct (decide (t = u)) as [<-|Hne].
    + rewrite list_lookup_alter_eq, Htk. simpl. intros [= <-]. simpl.
      etrans; [by apply E|]. apply may_refresh_bound.
    + rewrite list_lookup_alter_ne by done. apply E.
  - intros u. unfold set_stage, refreshes_of. simpl. rewrite length_alter. apply F.
  - intros c Hc. apply (well_sourced_kept w); [done| |by apply G].
    by apply set_stage_keeps_operations.
Qed.

Lemma coordinated_start t tk body w :
  coordinated w -> tasks w !! t = Some tk -> t_stage tk = AwaitFetch true ->
  isRefreshing (cl w) = false ->
  coordinated
    (set_stage t AwaitRefresh
       (log (RefreshFetch t (baseURL (cl w) +:+ "/auth/refresh") body)
            (set_isRefreshing true w))).
Proof.
  intros [A B C D E F G] Htk Hst Hidle.
  set (w0 := log _ (set_isRefreshing true w)).
  assert (Hstage : forall u, stage_of (set_stage t AwaitRefresh w0) u
            = if decide (u = t) then Some AwaitRefresh else stage_of w u).
  { intros u. rewrite stage_of_set_stage. case_decide; [|done].
    change (tasks w0) with (tasks w). by rewrite Htk. }
  split.
  - done.
  - intros _. exists t. rewrite Hstage. by rewrite decide_True.
  - intros u v. rewrite !Hstage.
    destruct (decide (u = t)) as [->|?], (decide (v = t)) as [->|?]; try done;
      intros Hu Hv; exfalso; by eapply (A Hidle).
  - intros u. rewrite Hstage. case_decide; [done|]. apply D.
  - intros u tku. unfold set_stage. cbn [tasks].
    change (tasks w0) with (tasks w).
    change (refreshes_of u (mkWorld (cl w0) (win w0)
              (alter (fun tk0 => mkTask (t_endpoint tk0) (t_options tk0) AwaitRefresh) t (tasks w))
              (net w0) (returned w0)))
      with (refreshes_of u w0).
    unfold w0. rewrite refreshes_of_log. simpl.
    change (refreshes_of u (set_isRefreshing true w)) with (refreshes_of u w).
    destruct (decide (t = u)) as [<-|Hne].
    + rewrite list_lookup_alter_eq, Htk. simpl. intros [= <-]. simpl.
      rewrite Nat.eqb_refl. specialize (E t tk Htk). rewrite Hst in E. simpl in E. lia.
    + rewrite list_lookup_alter_ne by done. intros Hu.
      apply Nat.eqb_neq in Hne. rewrite Hne, Nat.add_0_r. by apply E.
  - intros u Hu. unfold set_stage in Hu. simpl in Hu. rewrite length_alter in Hu.
    change (refreshes_of u (set_stage t AwaitRefresh w0)) with (refreshes_of u w0).
    unfold w0. rewrite refreshes_of_log. simpl.
    change (refreshes_of u (set_isRefreshing true w)) with (refreshes_of u w).
    rewrite F by done.
    assert (Hne : Nat.eqb t u = false).
    { apply Nat.eqb_neq. apply lookup_lt_Some in Htk. lia. }
    by rewrite Hne.
  - intros c Hc.
    change (net (set_stage t AwaitRefresh w0)) with (net w ++ [RefreshFetch t (baseURL (cl w) +:+ "/auth/refresh") body]) in Hc.
    apply elem_of_app in Hc as [Hc| ->%list_elem_of_singleton].
    + apply (well_sourced_kept w); [done| |by apply G].
      by apply set_stage_keeps_operations.
    + simpl. split; [|done]. rewrite list_lookup_alter_eq, Htk. simpl. eauto.
Qed.

Lemma coordinated_subscribe t tk w :
  coordinated w -> tasks w !! t = Some tk -> t_stage tk = AwaitFetch true ->
  coordinated
    (set_stage t Subscribed
       (subscribeTokenRefresh (mkWaiter (t_endpoint tk) (t_options tk) t) w)).
Proof.
  intros [A B C D E F G] Htk Hst.
  set (w0 := subscribeTokenRefresh _ w).
  assert (Ht : stage_of w t = Some (AwaitFetch true))
    by (apply stage_of_Some; eauto).
  assert (Hstage : forall u, stage_of (set_stage t Subscribed w0) u
            = if decide (u = t) then Some Subscribed else stage_of w u).
  { intros u. rewrite stage_of_set_stage. case_decide; [|done].
    change (tasks w0) with (tasks w). by rewrite Htk. }
  split.
  - intros Hidle u. rewrite Hstage. case_decide; [done|]. by apply A.
  - intros Hr. destruct (B Hr) as [u Hu]. exists u. rewrite Hstage.
    rewrite decide_False; [done|]. congruence.
  - intros u v. rewrite !Hstage. repeat case_decide; try done. apply C.
  - intros u. rewrite Hstage.
    change (refreshSubscribers (cl (set_stage t Subscribed w0)))
      with (refreshSubscribers (cl w) ++ [mkWaiter (t_endpoint tk) (t_options tk) t]).
    rewrite fmap_app, elem_of_app. case_decide as Hu.
    + intros _. right. rewrite Hu. apply list_elem_of_here.
    + intros Hs. left. by apply D.
  - intros u tku. unfold set_stage, refreshes_of. simpl.
    destruct (decide (t = u)) as [<-|Hne].
    + rewrite list_lookup_alter_eq, Htk. simpl. intros [= <-]. simpl.
      etrans; [by apply E|]. apply may_refresh_bound.
    + rewrite list_lookup_alter_ne by done. apply E.
  - intros u. unfold set_stage, refreshes_of. simpl. rewrite length_alter. apply F.
  - intros c Hc. apply (well_sourced_kept w); [done| |by apply G].
    by apply set_stage_keeps_operations.
Qed.

Lemma coordinated_refresh_failed t tk e w :
  coordinated w -> tasks w !! t = Some tk -> t_stage tk = AwaitRefresh ->
  coordinated (refresh_failed t e w).
Proof.
  intros [A B C D E F G] Htk Hst.
  assert (Ht : stage_of w t = Some AwaitRefresh) by (apply stage_of_Some; eauto).
  assert (Hstage : forall u, stage_of (refresh_failed t e w) u
            = if decide (u = t) then Some (Settled (Rejected e)) else stage_of w u).
  { intros u. unfold refresh_failed. rewrite stage_of_set_stage.
    case_decide; [|done]. simpl. by rewrite Htk. }
  assert (Hnone : forall u, stage_of (refresh_failed t e w) u
                            <> Some AwaitRefresh).
  { intros u. rewrite Hstage. case_decide as Hu; [done|].
    intros Hu'. apply Hu. by apply C. }
  split.
  - intros _. apply Hnone.
  - done.
  - intros u v Hu. by apply Hnone in Hu.
  - intros u. rewrite Hstage. case_decide; [done|]. apply D.
  - intros u tku. unfold refresh_failed, set_stage, refreshes_of. simpl.
    destruct (decide (t = u)) as [<-|Hne].
    + rewrite list_lookup_alter_eq, Htk. simpl. intros [= <-]. simpl.
      etrans; [by apply E|]. apply may_refresh_bound.
    + rewrite list_lookup_alter_ne by done. apply E.
  - intros u. unfold refresh_failed, set_stage, refreshes_of. simpl.
    rewrite length_alter. apply F.
  - intros c Hc. apply (well_sourced_kept w); [done| |by apply G].
    unfold refresh_failed. by apply set_stage_keeps_operations.
Qed.

Lemma coordinated_refresh_success t tk tok w0 w :
  consistent w0 -> coordinated w0 ->
  tasks w0 !! t = Some tk -> t_stage tk = AwaitRefresh ->
  tasks w = tasks w0 -> net w = net w0 ->
  refreshSubscribers (cl w) = refreshSubscribers (cl w0) ->
  baseURL (cl w) = baseURL (cl w0) ->
  isRefreshing (cl w) = false ->
  coordinated
    (request_again t (t_endpoint tk) (t_options tk) (onTokenRefreshed tok w)).
Proof.
  intros Hc0 [_ _ C0 D0 E0 F0 G0] Htk0 Hst Htasks Hnet Hsubs0 Hbase0 Hidle.
  assert (Hc : consistent w) by (by apply (consistent_frame w0)).
  assert (Htk : tasks w !! t = Some tk) by (by rewrite Htasks).
  assert (C : forall t u, stage_of w t = Some AwaitRefresh ->
                          stage_of w u = Some AwaitRefresh -> t = u).
  { unfold stage_of in *. rewrite Htasks. apply C0. }
  assert (D : forall t, stage_of w t = Some Subscribed ->
                        t ∈ w_promise <$> refreshSubscribers (cl w)).
  { unfold stage_of in *. rewrite Htasks, Hsubs0. apply D0. }
  assert (E : forall t tk, tasks w !! t = Some tk ->
                refreshes_of t w <= (if may_refresh (t_stage tk) then 0 else 1)).
  { unfold refreshes_of in *. rewrite Htasks, Hnet. apply E0. }
  assert (F : forall t, length (tasks w) <= t -> refreshes_of t w = 0).
  { unfold refreshes_of in *. rewrite Htasks, Hnet. apply F0. }
  assert (G : forall c, c ∈ net w -> well_sourced w c).
  { intros c Hin. rewrite Hnet in Hin. apply (well_sourced_kept w0); [done| |by apply G0].
    intros u tku Hu. rewrite Htasks, Hu. destruct tku. by eauto. }
  clear C0 D0 E0 F0 G0.
  set (waiting := refreshSubscribers (cl w) ++ [mkWaiter (t_endpoint tk) (t_options tk) t]).
  set (w' := request_again t (t_endpoint tk) (t_options tk) (onTokenRefreshed tok w)).
  destruct (onTokenRefreshed_frame tok w)
    as (_ & _ & _ & _ & Hflag & Hbase & Hsubs & Hlen).
  assert (Ht : stage_of w t = Some AwaitRefresh) by (apply stage_of_Some; eauto).
  assert (Hstage : forall u, stage_of w' u
            = if decide (u ∈ w_promise <$> waiting)
              then (fun _ => resent_stage (token (cl w))) <$> tasks w !! u
              else stage_of w u).
  { intros u. unfold stage_of, w'. rewrite (refresh_success_tasks t tk tok w u Htk).
    fold waiting. case_decide; by destruct (tasks w !! u). }
  assert (Hrefreshes : forall u, refreshes_of u w' = refreshes_of u w).
  { intros u. unfold refreshes_of, w'.
    rewrite refresh_success_net, count_calls_app, resends_are_not_refreshes. lia. }
  assert (Hin_t : t ∈ w_promise <$> waiting).
  { unfold waiting. rewrite fmap_app. apply elem_of_app. right. apply list_elem_of_here. }
  assert (Hresent : resent_stage (token (cl w)) <> AwaitRefresh /\
                    resent_stage (token (cl w)) <> Subscribed)
    by (unfold resent_stage; by destruct (sendable _)).
  assert (Hnone : forall u, stage_of w' u <> Some AwaitRefresh).
  { intros u. rewrite Hstage. case_decide as Hu.
    - destruct (tasks w !! u); [|done]. simpl. intros [= Heq].
      by apply (proj1 Hresent).
    - intros Hu'. apply Hu. by rewrite (C u t Hu' Ht). }
  assert (Hflag' : isRefreshing (cl w') = false).
  { unfold w'. by rewrite cl_request_again, Hflag. }
  assert (Hkeep : forall u tku, tasks w !! u = Some tku ->
            exists s, tasks w' !! u = Some (mkTask (t_endpoint tku) (t_options tku) s)).
  { intros u tku Hu. unfold w'. rewrite (refresh_success_tasks t tk tok w u Htk), Hu.
    case_decide; simpl; [by eauto|]. destruct tku. by eauto. }
  assert (Hbase' : baseURL (cl w') = baseURL (cl w)).
  { unfold w'. by rewrite cl_request_again. }
  split.
  - intros _. apply Hnone.
  - by rewrite Hflag'.
  - intros u v Hu. by apply Hnone in Hu.
  - intros u. rewrite Hstage. case_decide as Hu.
    + destruct (tasks w !! u); [|done]. simpl. intros [= Heq].
      by destruct (proj2 Hresent).
    + intros Hs. exfalso. apply Hu. unfold waiting.
      rewrite fmap_app. apply elem_of_app. left. by apply D.
  - intros u tku Hu. rewrite Hrefreshes.
    revert Hu. unfold w'. rewrite (refresh_success_tasks t tk tok w u Htk).
    destruct (tasks w !! u) as [tk0|] eqn:Hu0; [|done].
    case_decide; simpl; intros [= <-]; simpl.
    + etrans; [by apply E|].
      unfold resent_stage. destruct (sendable _); simpl; apply may_refresh_bound.
    + by apply E.
  - intros u Hu. rewrite Hrefreshes. apply F.
    unfold w' in Hu. by rewrite tasks_request_again, length_alter, Hlen in Hu.
  - intros c Hc'. unfold w' in Hc'. rewrite refresh_success_net in Hc'.
    apply elem_of_app in Hc' as [Hc'|Hc'].
    + apply (well_sourced_kept w); [done|exact Hkeep|by apply G].
    + unfold resends in Hc'.
      destruct (sendable _); [|by apply elem_of_nil in Hc'].
      apply list_elem_of_fmap in Hc' as (cb & -> & Hcb).
      assert (Hop : tasks w !! w_promise cb
                    = Some (mkTask (w_endpoint cb) (w_options cb) (t_stage (mkTask (w_endpoint cb) (w_options cb) Subscribed)))
                    \/ (cb = mkWaiter (t_endpoint tk) (t_options tk) t)).
      { apply elem_of_app in Hcb as [Hcb| ->%list_elem_of_singleton]; [left|by right].
        by apply (waiters_subscribed w Hc). }
      unfold resend, well_sourced. destruct Hop as [Hop| ->].
      * destruct (Hkeep _ _ Hop) as [s Hs]. cbn [t_endpoint t_options] in Hs.
        exists (mkTask (w_endpoint cb) (w_options cb) s), (token (cl w)).
        split; [exact Hs|]. split; [by rewrite Hbase'|reflexivity].
      * destruct (Hkeep _ _ Htk) as [s Hs]. cbn [w_promise w_endpoint w_options].
        exists (mkTask (t_endpoint tk) (t_options tk) s), (token (cl w)).
        split; [exact Hs|]. split; [by rewrite Hbase'|reflexivity].
Qed.

(** What the [fetch] of a call settling does, case by case. *)
Lemma fetch_settled_cases t tk retry r w :
  (exists o, request_fetch_settled t tk retry r w = set_stage t (Settled o) w) \/
  (retry = true /\ isRefreshing (cl w) = false /\
   exists body,
     request_fetch_settled t tk retry r w
     = set_stage t AwaitRefresh
         (log (RefreshFetch t (baseURL (cl w) +:+ "/auth/refresh") body)
              (set_isRefreshing true w))) \/
  (retry = true /\ isRefreshing (cl w) = true /\
   request_fetch_settled t tk retry r w
   = set_stage t Subscribed
       (subscribeTokenRefresh (mkWaiter (t_endpoint tk) (t_options tk) t) w)).
Proof.
  unfold request_fetch_settled.
  destruct r as [|resp]; [by eauto|].
  destruct (_ && truthy _) eqn:Hcond; [|by eauto].
  apply andb_true_iff in Hcond as [[_ ->]%andb_true_iff Hrt].
  right. destruct (isRefreshing (cl w)) eqn:Hflag; simpl; [by right|].
  left. split; [done|]. split; [done|].
  unfold attemptTokenRefresh_begin. simpl.
  destruct (refreshToken (cl w)) as [rt|]; [|done].
  simpl in Hrt. rewrite Hrt. by eauto.
Qed.

(** What a refresh settling does, case by case. *)
Lemma refresh_settled_cases t tk r w :
  (exists e, request_refresh_settled t tk r w = refresh_failed t e (clearToken w)) \/
  (exists tok,
     request_refresh_settled t tk r w
     = request_again t (t_endpoint tk) (t_options tk)
         (onTokenRefreshed tok (set_isRefreshing false (setToken tok w)))).
Proof.
  unfold request_refresh_settled.
  destruct (attemptTokenRefresh_resume_cases r w) as [[e ->]|(tok & _ & ->)];
    by eauto.
Qed.

Lemma coordinated_resumed t tk res w :
  consistent w -> coordinated w ->
  tasks w !! t = Some tk -> t_stage tk = AwaitRefresh ->
  coordinated (request_refresh_resumed t tk res w).
Proof.
  intros Hc Hco Htk Hst. unfold request_refresh_resumed. destruct res as [e|tok].
  - by apply (coordinated_refresh_failed t tk).
  - by apply (coordinated_refresh_success t tk tok w).
Qed.

Lemma coordinated_step w e w' :
  consistent w -> coordinated w -> step w e = Some w' -> coordinated w'.
Proof.
  intros Hc Hco Hstep.
  destruct e as [endpoint o retry|t r|t r|t|t r|r|]; simpl in Hstep.
  - injection Hstep as <-. by apply coordinated_request.
  - destruct (tasks w !! t) as [tk|] eqn:Htk; [|done].
    destruct (t_stage tk) as [retry| | |] eqn:Hst; try done.
    injection Hstep as <-.
    destruct (fetch_settled_cases t tk retry r w)
      as [[o ->]|[(-> & Hidle & body & ->)|(-> & Hflag & ->)]].
    + by apply (coordinated_settle t tk retry).
    + by apply (coordinated_start t tk).
    + by apply (coordinated_subscribe t tk).
  - destruct (tasks w !! t) as [tk|] eqn:Htk; [|done].
    destruct (t_stage tk) eqn:Hst; try done.
    destruct (returned w !! t); [done|]. injection Hstep as <-.
    unfold refresh_arrived.
    destruct (attemptTokenRefresh_resume_cases r w) as [[e ->]|(tok & _ & ->)];
      by apply (coordinated_frame w).
  - destruct (tasks w !! t) as [tk|] eqn:Htk; [|done].
    destruct (t_stage tk) eqn:Hst; try done.
    destruct (returned w !! t) as [res|]; [|done]. injection Hstep as <-.
    apply coordinated_resumed; try done.
    + by apply (consistent_frame w).
    + by apply (coordinated_frame w).
  - destruct (tasks w !! t) as [tk|] eqn:Htk; [|done].
    destruct (t_stage tk) eqn:Hst; try done.
    injection Hstep as <-. unfold request_refresh_settled.
    destruct (attemptTokenRefresh_resume_cases r w) as [[e ->]|(tok & _ & ->)];
      (apply coordinated_resumed; try done;
       [by apply (consistent_frame w)|by apply (coordinated_frame w)]).
  - injection Hstep as <-.
    destruct (login_settled_keeps r w) as (? & ? & _ & ? & ? & ?).
    by apply (coordinated_frame w).
  - injection Hstep as <-. by apply (coordinated_frame w).
Qed.

Lemma coordinated_run trace : forall w w',
  consistent w -> coordinated w -> run w trace = Some w' -> coordinated w'.
Proof.
  induction trace as [|e trace IH]; intros w w' Hc Hco Hrun; simpl in Hrun.
  - by injection Hrun as <-.
  - destruct (step w e) as [w1|] eqn:Hstep; [|done].
    apply (IH w1); [by apply (consistent_step w e)| |done].
    by apply (coordinated_step w e).
Qed.

Lemma reachable_coordinated API_URL window trace w :
  run (new_ApiClient API_URL window) trace = Some w -> coordinated w.
Proof. apply coordinated_run; [apply consistent_new|apply coordinated_new]. Qed.

Lemma baseURL_request_refresh_resumed t tk res w :
  baseURL (cl (request_refresh_resumed t tk res w)) = baseURL (cl w).
Proof.
  unfold request_refresh_resumed. destruct res as [e|tok]; [done|].
  rewrite cl_request_again.
  by destruct (onTokenRefreshed_frame tok (set_isRefreshing false w))
    as (_ & _ & _ & _ & _ & -> & _).
Qed.

Lemma step_keeps_baseURL w e w' :
  step w e = Some w' -> baseURL (cl w') = baseURL (cl w).
Proof.
  intros Hstep.
  destruct e as [endpoint o retry|t r|t r|t|t r|r|]; simpl in Hstep.
  - injection Hstep as <-. by rewrite cl_request.
  - destruct (tasks w !! t) as [tk|] eqn:Htk; [|done].
    destruct (t_stage tk) as [retry| | |] eqn:Hst; try done.
    injection Hstep as <-.
    by destruct (fetch_settled_cases t tk retry r w)
      as [[o ->]|[(-> & Hidle & body & ->)|(-> & Hflag & ->)]].
  - destruct (tasks w !! t) as [tk|] eqn:Htk; [|done].
    destruct (t_stage tk) eqn:Hst; try done.
    destruct (returned w !! t); [done|]. injection Hstep as <-.
    unfold refresh_arrived.
    by destruct (attemptTokenRefresh_resume_cases r w) as [[e ->]|(tok & _ & ->)].
  - destruct (tasks w !! t) as [tk|] eqn:Htk; [|done].
    destruct (t_stage tk) eqn:Hst; try done.
    destruct (returned w !! t) as [res|]; [|done]. injection Hstep as <-.
    by rewrite baseURL_request_refresh_resumed.
  - destruct (tasks w !! t) as [tk|] eqn:Htk; [|done].
    destruct (t_stage tk) eqn:Hst; try done.
    injection Hstep as <-. unfold request_refresh_settled.
    destruct (attemptTokenRefresh_resume_cases r w) as [[e ->]|(tok & _ & ->)];
      by rewrite baseURL_request_refresh_resumed.
  - injection Hstep as <-.
    by destruct (login_settled_keeps r w) as (_ & _ & _ & -> & _).
  - by injection Hstep as <-.
Qed.

Lemma run_keeps_baseURL trace : forall w w',
  run w trace = Some w' -> baseURL (cl w') = baseURL (cl w).
Proof.
  induction trace as [|e trace IH]; intros w w' Hrun; simpl in Hrun.
  - by injection Hrun as <-.
  - destruct (step w e) as [w1|] eqn:Hstep; [|done].
    rewrite (IH w1 w' Hrun). by apply (step_keeps_baseURL w e).
Qed.

(** ** Further properties of every interleaving *)

(** X19. Along every interleaving at most one call is waiting for a
    refresh it started, and the refresh flag is set exactly while there
    is one: two refreshes started by [request] are never in flight
    together. *)
Theorem one_refresh_in_flight API_URL window trace w :
  run (new_ApiClient API_URL window) trace = Some w ->
  (forall t u, stage_of w t = Some AwaitRefresh ->
               stage_of w u = Some AwaitRefresh -> t = u) /\
  (isRefreshing (cl w) = true <-> exists t, stage_of w t = Some AwaitRefresh).
Proof.
  intros Hrun. destruct (reachable_coordinated _ _ _ _ Hrun) as [A B C _ _ _ _].
  split; [exact C|]. split; [exact B|].
  intros [t Ht]. destruct (isRefreshing (cl w)) eqn:Hflag; [done|].
  by destruct (A eq_refl t).
Qed.

(** X20. Along every interleaving a call of [request] calls
    [/auth/refresh] at most once, whatever the server answers, and not at
    all while it is at its first [fetch] or on the waiter list. *)
Theorem one_refresh_per_call API_URL window trace w t :
  run (new_ApiClient API_URL window) trace = Some w ->
  refreshes_of t w <= 1 /\
  (stage_of w t = Some (AwaitFetch true) -> refreshes_of t w = 0).
Proof.
  intros Hrun. destruct (reachable_coordinated _ _ _ _ Hrun) as [_ _ _ _ E F _].
  destruct (tasks w !! t) as [tk|] eqn:Htk.
  - split.
    + etrans; [by apply E|]. apply may_refresh_bound.
    + intros (tk' & Htk' & Hst)%stage_of_Some.
      assert (tk' = tk) as -> by congruence.
      specialize (E t tk Htk). rewrite Hst in E. simpl in E. lia.
  - rewrite F by (by apply lookup_ge_None). split; [lia|done].
Qed.

(** X21. Along every interleaving the waiter list holds exactly the calls
    that are subscribed, each once, with the endpoint and the options it
    was called with: no subscribed call is missing from the list. *)
Theorem subscribed_iff_listed API_URL window trace w :
  run (new_ApiClient API_URL window) trace = Some w ->
  NoDup (w_promise <$> refreshSubscribers (cl w)) /\
  (forall t, stage_of w t = Some Subscribed <->
             t ∈ w_promise <$> refreshSubscribers (cl w)) /\
  (forall cb, cb ∈ refreshSubscribers (cl w) ->
     exists tk, tasks w !! w_promise cb = Some tk /\
                t_endpoint tk = w_endpoint cb /\ t_options tk = w_options cb).
Proof.
  intros Hrun.
  pose proof (reachable_consistent _ _ _ _ Hrun) as Hc.
  destruct (reachable_coordinated _ _ _ _ Hrun) as [_ _ _ D _ _ _].
  split; [apply (waiters_distinct w Hc)|]. split.
  - intros t. split; [apply D|].
    intros (cb & -> & Hcb)%list_elem_of_fmap.
    apply stage_of_Some. eexists. split; [by apply (waiters_subscribed w Hc)|done].
  - intros cb Hcb. eexists. split; [by apply (waiters_subscribed w Hc)|done].
Qed.

(** X22. Along every interleaving every call of [fetch] the client has
    made goes to the base URL it was constructed with: an operation to
    the endpoint of its call of [request], with the options of that call
    and the token of some moment; a refresh to [/auth/refresh]. *)
Theorem every_call_sourced API_URL window trace w c :
  run (new_ApiClient API_URL window) trace = Some w ->
  c ∈ net w ->
  match c with
  | OpFetch t url config =>
      exists tk tok,
        tasks w !! t = Some tk /\
        url = API_URL +:+ t_endpoint tk /\
        config = build_config tok (t_options tk)
  | RefreshFetch t url _ =>
      is_Some (tasks w !! t) /\ url = API_URL +:+ "/auth/refresh"
  end.
Proof.
  intros Hrun Hc.
  destruct (reachable_coordinated _ _ _ _ Hrun) as [_ _ _ _ _ _ G].
  pose proof (run_keeps_baseURL _ _ _ Hrun) as Hbase. simpl in Hbase.
  specialize (G c Hc). unfold well_sourced in G. by rewrite Hbase in G.
Qed.

Lemma settled_resumed u tku res w t o :
  consistent w -> tasks w !! u = Some tku -> t_stage tku = AwaitRefresh ->
  stage_of w t = Some (Settled o) ->
  stage_of (request_refresh_resumed u tku res w) t = Some (Settled o).
Proof.
  intros Hc Hu Hst Ht.
  assert (Hne : t <> u).
  { intros ->. apply stage_of_Some in Ht as (tk & Htk & Hs). congruence. }
  unfold request_refresh_resumed. destruct res as [e|tok].
  - unfold refresh_failed. rewrite stage_of_set_stage. by rewrite decide_False.
  - set (w1 := set_isRefreshing false w).
    assert (Hu1 : tasks w1 !! u = Some tku) by exact Hu.
    unfold stage_of. rewrite (refresh_success_tasks u tku tok w1 t Hu1).
    apply stage_of_Some in Ht as (tk & Htk & Hs).
    rewrite decide_False.
    + change (tasks w1) with (tasks w). rewrite Htk. simpl. by rewrite Hs.
    + rewrite fmap_app.
      intros [Hin| ->%list_elem_of_singleton]%elem_of_app; [|done].
      revert Hin. apply (not_a_waiter t tk w); try done. by rewrite Hs.
Qed.

Lemma settled_step w e w' t o :
  consistent w -> step w e = Some w' ->
  stage_of w t = Some (Settled o) -> stage_of w' t = Some (Settled o).
Proof.
  intros Hc Hstep Ht.
  destruct e as [endpoint o' retry|u r|u r|u|u r|r|]; simpl in Hstep.
  - injection Hstep as <-. rewrite stage_of_request. rewrite decide_False; [done|].
    apply stage_of_Some in Ht as (tk & Htk%lookup_lt_Some & _). lia.
  - destruct (tasks w !! u) as [tku|] eqn:Hu; [|done].
    destruct (t_stage tku) as [retry| | |] eqn:Hst; try done.
    injection Hstep as <-.
    assert (Hne : t <> u).
    { intros ->. apply stage_of_Some in Ht as (tk & Htk & Hs). congruence. }
    destruct (fetch_settled_cases u tku retry r w)
      as [[o' ->]|[(-> & Hidle & body & ->)|(-> & Hflag & ->)]];
      rewrite stage_of_set_stage; by rewrite decide_False.
  - destruct (tasks w !! u) as [tku|] eqn:Hu; [|done].
    destruct (t_stage tku) eqn:Hst; try done.
    destruct (returned w !! u); [done|]. injection Hstep as <-.
    unfold refresh_arrived.
    by destruct (attemptTokenRefresh_resume_cases r w) as [[e ->]|(tok & _ & ->)].
  - destruct (tasks w !! u) as [tku|] eqn:Hu; [|done].
    destruct (t_stage tku) eqn:Hst; try done.
    destruct (returned w !! u) as [res|]; [|done]. injection Hstep as <-.
    apply settled_resumed; try done. by apply (consistent_frame w).
  - destruct (tasks w !! u) as [tku|] eqn:Hu; [|done].
    destruct (t_stage tku) eqn:Hst; try done.
    injection Hstep as <-. unfold request_refresh_settled.
    destruct (attemptTokenRefresh_resume_cases r w) as [[e ->]|(tok & _ & ->)];
      (apply settled_resumed; try done; by apply (consistent_frame w)).
  - injection Hstep as <-. unfold stage_of.
    by destruct (login_settled_keeps r w) as (-> & _).
  - by injection Hstep as <-.
Qed.

(** X23. Along every interleaving a call that has settled stays settled
    with the same result: no later response, refresh, login or
    [clearToken] resends it or changes what its caller received. *)
Theorem settled_is_final API_URL window trace w rest w' t o :
  run (new_ApiClient API_URL window) trace = Some w ->
  stage_of w t = Some (Settled o) ->
  run w rest = Some w' ->
  stage_of w' t = Some (Settled o) /\ sends_of t w' = sends_of t w.
Proof.
  intros Hrun Ht Hrest.
  pose proof (reachable_consistent _ _ _ _ Hrun) as Hc.
  split.
  - clear Hrun. revert w Hc Ht Hrest.
    induction rest as [|e rest IH]; intros w Hc Ht Hrest; simpl in Hrest.
    + by injection Hrest as <-.
    + destruct (step w e) as [w1|] eqn:Hstep; [|done].
      apply (IH w1); [by apply (consistent_step w e)| |done].
      by apply (settled_step w e).
  - apply stage_of_Some in Ht as (tk & Htk & Hs).
    apply (final_frozen_run rest w w' t tk); try done. by rewrite Hs.
Qed.

(** X12. Calling [request] and receiving the response of a pending call
    never change the session or the page: the access token, the refresh
    token, the whole storage and the location are the same afterwards,
    also when the response starts a refresh or joins one.  The session
    changes only when a refresh or a login settles or [clearToken]
    runs. *)
Theorem requests_leave_session w :
  (forall endpoint o retry,
     session (request endpoint o retry w) = session w /\
     win (request endpoint o retry w) = win w) /\
  (forall t r w',
     step w (FetchSettled t r) = Some w' ->
     session w' = session w /\ win w' = win w).
Proof.
  split; [intros; split; [apply session_request|apply win_request]|].
  intros t r w' Hstep. simpl in Hstep.
  destruct (tasks w !! t) as [tk|]; [|done].
  destruct (t_stage tk) as [retry| | |]; try done. injection Hstep as <-.
  split; [apply session_request_fetch_settled|].
  by destruct (fetch_settled_cases t tk retry r w)
    as [[o ->]|[(-> & Hidle & body & ->)|(-> & Hflag & ->)]].
Qed.

(** ** The await of line 115 *)

Lemma with_returned_id w m : m = returned w -> with_returned (fun _ => m) w = w.
Proof. intros ->. by destruct w. Qed.


(** X25. A call of [request] either sends or throws at once, by the
    token of that moment alone: it throws, a TypeError and before any
    call of [fetch], exactly when the token is truthy and has no string;
    otherwise it makes one call of [fetch], to the endpoint under the
    base URL, and waits for it.  In both cases the client, the browser
    and the calls made before are as they were. *)
Theorem request_sends_or_throws w endpoint o retry :
  let w' := request endpoint o retry w in
  let t := length (tasks w) in
  cl w' = cl w /\ win w' = win w /\ returned w' = returned w /\
  length (tasks w') = S t /\
  (forall u, u < t -> tasks w' !! u = tasks w !! u) /\
  (sendable (token (cl w)) = false <->
   truthy (token (cl w)) = true /\ ToString (token (cl w)) = None) /\
  if sendable (token (cl w))
  then
    net w' = net w ++ [OpFetch t (baseURL (cl w) +:+ endpoint)
                         (build_config (token (cl w)) o)] /\
    stage_of w' t = Some (AwaitFetch retry)
  else
    net w' = net w /\ stage_of w' t = Some (Settled (Rejected TypeError)).
Proof.
  intros w' t. subst w' t.
  split; [apply cl_request|]. split; [apply win_request|].
  split; [apply returned_request|].
  rewrite stage_of_request_new, net_request, request_cases. split; [|split; [|split]].
  - destruct (sendable _); simpl; rewrite length_app; simpl; lia.
  - intros u Hu. destruct (sendable _); simpl; by rewrite lookup_app_l.
  - unfold sendable, stringable.
    destruct (truthy (token (cl w))), (ToString (token (cl w))); simpl;
      split; try done; by intros [? ?].
  - destruct (sendable _); [done|]. by rewrite app_nil_r.
Qed.

(** X26. A call whose 401 arrives after the refresh has returned its
    token and before the call that started the refresh has resumed finds
    the refresh flag still set: it is put on the waiter list, sends
    nothing and starts no refresh; and the resumption resends it with
    the others, once, with the token the client holds then. *)
Theorem waiter_joins_before_resumption
    API_URL window trace w t tk newToken u tku resp :
  run (new_ApiClient API_URL window) trace = Some w ->
  tasks w !! t = Some tk -> t_stage tk = AwaitRefresh ->
  returned w !! t = Some (inr newToken) ->
  tasks w !! u = Some tku -> t_stage tku = AwaitFetch true ->
  truthy (refreshToken (cl w)) = true -> status resp = 401%N ->
  exists w1 w2,
    step w (FetchSettled u (FetchResponse resp)) = Some w1 /\
    stage_of w1 u = Some Subscribed /\ net w1 = net w /\
    step w1 (RefreshResumed t) = Some w2 /\
    stage_of w2 u
    = Some (if sendable (token (cl w)) then AwaitFetch false
            else Settled (Rejected TypeError)) /\
    sends_of u w2 = sends_of u w + (if sendable (token (cl w)) then 1 else 0) /\
    refresh_calls w2 = refresh_calls w /\
    refreshSubscribers (cl w2) = [] /\ isRefreshing (cl w2) = false.
Proof.
  intros Hrun Htk Hst Hret Hu Hstu Hrt H401.
  pose proof (reachable_consistent _ _ _ _ Hrun) as Hc.
  destruct (reachable_coordinated _ _ _ _ Hrun) as [A _ _ _ _ _ _].
  assert (Hflag : isRefreshing (cl w) = true).
  { destruct (isRefreshing (cl w)) eqn:Hflag; [done|].
    destruct (A eq_refl t). apply stage_of_Some. eauto. }
  assert (Hne : u <> t) by (intros ->; congruence).
  set (w1 := set_stage u Subscribed
               (subscribeTokenRefresh (mkWaiter (t_endpoint tku) (t_options tku) u) w)).
  assert (Hstep1 : step w (FetchSettled u (FetchResponse resp)) = Some w1)
    by (by apply join_refresh_in_flight).
  assert (Hc1 : consistent w1) by (by apply (consistent_step w _ w1 Hc Hstep1)).
  assert (Htk1 : tasks w1 !! t = Some tk).
  { unfold w1, set_stage. simpl. by rewrite list_lookup_alter_ne. }
  set (w0 := with_returned (delete t) w1).
  assert (Hc0 : consistent w0) by (by apply (consistent_frame w1)).
  destruct (fan_out_resumed t tk newToken w0 Hc0 Htk1 Hst)
    as (_ & Hidle & Hsubs & Hsent & _).
  assert (Hcb : mkWaiter (t_endpoint tku) (t_options tku) u
                ∈ refreshSubscribers (cl w0)
                  ++ [mkWaiter (t_endpoint tk) (t_options tk) t]).
  { apply elem_of_app. left. unfold w0, w1. simpl.
    apply elem_of_app. right. apply list_elem_of_here. }
  change (token (cl w0)) with (token (cl w)) in Hsent.
  exists w1, (request_refresh_resumed t tk (inr newToken) w0).
  split; [exact Hstep1|]. split.
  { unfold w1. apply stage_of_set_stage_eq. simpl. eauto. }
  split; [done|]. split.
  { unfold step. rewrite Htk1, Hst.
    change (returned w1) with (returned w). by rewrite Hret. }
  unfold refresh_calls.
  destruct (sendable (token (cl w))).
  - destruct Hsent as [Hnet Heach].
    destruct (Heach _ Hcb) as (_ & Hsends & Hstage).
    split; [exact Hstage|]. split; [exact Hsends|]. split; [|done].
    rewrite Hnet, count_calls_app, resends_are_not_refresh_calls.
    apply Nat.add_0_r.
  - destruct Hsent as [Hnet Heach].
    destruct (Heach _ Hcb) as (Hsends & Hstage).
    split; [exact Hstage|]. split; [by rewrite Nat.add_0_r|]. split; [|done].
    by rewrite Hnet.
Qed.

End Properties.

(** * The properties at concrete inputs *)

Example includes_charset :
  includes "application/json" "application/json; charset=utf-8" = true.
Proof. reflexivity. Qed.

Example to_string_array :
  to_string_json (JArr [JNum "1"; JNull; JArr [JStr "a"; JStr "b"]])
  = Some "1,,a,b".
Proof. reflexivity. Qed.

Example to_string_hidden :
  to_string_json no_string = None /\
  to_string_json (JArr [JNum "1"; no_string]) = None /\
  to_string_json (JObj [("valueOf", JNum "1")]) = Some "[object Object]".
Proof. repeat split. Qed.

Example empty_body_decodes :
  decode (mkResponse 204 None "") = Resolved (JObj []).
Proof. reflexivity. Qed.

Example malformed_body_throws :
  decode (mkResponse 200 (Some "text/html") "<html>") = Rejected SyntaxError.
Proof. reflexivity. Qed.

Example status_fallback :
  api_error_message (JObj []) 500 = "API request failed: 500".
Proof. reflexivity. Qed.

Example validation_detail_message :
  api_error (JObj [("detail", JArr [JObj [("msg", JStr "required")]])]) 422
  = Error "[object Object]".
Proof. reflexivity. Qed.

Example detail_without_string :
  api_error detail_no_string 422 = TypeError.
Proof. reflexivity. Qed.

Example small_letters_name_content_type :
  names_content_type "content-type" = true /\
  names_content_type "Content-Type" = true /\
  names_content_type "CONTENT-TYPE" = true /\
  names_content_type "Content-Length" = false.
Proof. repeat split. Qed.

Example bearer_header :
  opt_headers (build_config (Some (JStr "A1")) plain_get) !! "Authorization"
  = Some "Bearer A1".
Proof. by vm_compute. Qed.

Example first_fetch_sent :
  (fun w => length (net w)) <$> run demo_world two_calls = Some 2.
Proof. by vm_compute. Qed.

Example refresh_in_flight_state :
  (fun w => (isRefreshing (cl w), t_stage <$> tasks w, refresh_calls w))
    <$> run demo_world refresh_in_flight
  = Some (true, [AwaitRefresh; Subscribed], 1).
Proof. vm_compute. reflexivity. Qed.

(** C6, at the demo client whose storage holds all three entries. *)
Lemma clearToken_atomic_witness :
  persisted demo_world "refreshToken" = Some "R1" /\
  persisted (clearToken demo_world) "refreshToken" = None.
Proof.
  split; [reflexivity|].
  destruct (clearToken_atomic demo_world) as (_ & Hstep & Hatomic).
  apply (Hatomic ClearToken (clearToken demo_world) Hstep).
  - exists "user". split; [|split].
    + unfold session_keys. do 2 apply list_elem_of_further. apply list_elem_of_here.
    + exists "u". reflexivity.
    + reflexivity.
  - unfold session_keys. apply list_elem_of_further, list_elem_of_here.
Defined.

(** C7, as stated, fails: an object body sent with the caller's own
    [Content-Type: text/plain] is serialised, but the outgoing content
    type is the caller's, not [application/json]; and an upload whose
    caller names a content type in small letters goes out with that
    content type, since line 104 deletes the one spelling only. *)
Lemma caller_content_type_wins :
  opt_body (build_config null post_as_text) = BodyValue (JStr (show_json payload)) /\
  opt_headers (build_config null post_as_text) !! "Content-Type" = Some "text/plain" /\
  ~ structured_body_sent_as_json null post_as_text /\
  opt_headers (build_config null upload_as_form) !! "content-type"
  = Some "multipart/form-data" /\
  ~ form_data_passed_through null upload_as_form.
Proof.
  split; [reflexivity|]. split; [by vm_compute|]. split; [|split; [by vm_compute|]].
  - intros Hclaim.
    destruct (Hclaim payload) as [_ Hct]; try reflexivity.
    vm_compute in Hct. discriminate Hct.
  - intros Hclaim.
    destruct (Hclaim [("file", "po.pdf")]) as [_ Hnone]; [reflexivity|].
    specialize (Hnone "content-type" eq_refl).
    vm_compute in Hnone. discriminate Hnone.
Qed.

(** C7 (amended), at an upload, at an upload whose caller names a
    content type in small letters, and at an object body with the
    caller's own content type. *)
Lemma body_passthrough_witness :
  (opt_body (build_config null upload) = BodyFormData [("file", "po.pdf")] /\
   opt_headers (build_config null upload) !! "Content-Type" = None /\
   no_content_type_sent null upload) /\
  (opt_headers (build_config null upload_as_form) !! "Content-Type" = None /\
   opt_headers (build_config null upload_as_form) !! "content-type"
   = Some "multipart/form-data") /\
  (opt_body (build_config null post_as_text) = BodyValue (JStr (show_json payload)) /\
   opt_headers (build_config null post_as_text) !! "Content-Type" = Some "text/plain").
Proof.
  split; [|split].
  - destruct (proj1 (body_passthrough null upload) [("file", "po.pdf")])
      as (Hbody & Hnames & Hnone); [reflexivity|].
    split; [exact Hbody|]. split; [by rewrite (Hnames "Content-Type" eq_refl)|].
    apply Hnone. intros k _ _. reflexivity.
  - destruct (proj1 (body_passthrough null upload_as_form) [("file", "po.pdf")])
      as (_ & Hnames & _); [reflexivity|].
    split.
    + by rewrite (Hnames "Content-Type" eq_refl).
    + rewrite (Hnames "content-type" eq_refl). by vm_compute.
  - destruct (proj2 (body_passthrough null post_as_text) payload) as [Hbody Htype];
      [reflexivity | reflexivity | reflexivity |].
    split; [exact Hbody|]. rewrite (Htype "Content-Type" eq_refl). by vm_compute.
Defined.

(** C8, as stated, fails: a 404 whose body is [{detail: 'Not found'}]
    makes [request] throw [Error('Not found')], which does not carry the
    status code. *)
Lemma api_error_drops_status :
  stage_of (default one_call
              (step one_call (FetchSettled 0 (FetchResponse (reply 404 not_found))))) 0
  = Some (Settled (Rejected (Error "Not found"))) /\
  ~ carries_status_and_message (reply 404 not_found) (Rejected (Error "Not found")).
Proof.
  split; [by vm_compute|].
  intros [Hstatus _]. vm_compute in Hstatus. discriminate Hstatus.
Qed.

(** C8 (amended), at the same 404 and at a 422 whose [detail] is an
    object with a [toString] key of its own. *)
Lemma api_error_content_witness :
  (exists w',
     step one_call (FetchSettled 0 (FetchResponse (reply 404 not_found))) = Some w' /\
     stage_of w' 0 = Some (Settled (Rejected (Error "Not found")))) /\
  (exists w',
     step one_call (FetchSettled 0 (FetchResponse (reply 422 detail_no_string)))
     = Some w' /\
     stage_of w' 0 = Some (Settled (Rejected TypeError))).
Proof.
  split.
  - destruct (api_error_content one_call 0
                (mkTask "/assets/9" plain_get (AwaitFetch true)) true
                (reply 404 not_found))
      as (w' & Hstep & Hstage & _);
      [reflexivity | reflexivity | reflexivity | reflexivity |].
    exists w'. split; [exact Hstep|]. rewrite Hstage. reflexivity.
  - destruct (api_error_content one_call 0
                (mkTask "/assets/9" plain_get (AwaitFetch true)) true
                (reply 422 detail_no_string))
      as (w' & Hstep & Hstage & _);
      [reflexivity | reflexivity | reflexivity | reflexivity |].
    exists w'. split; [exact Hstep|]. rewrite Hstage. reflexivity.
Defined.

(** C9, at a 200 whose body is the JSON text of an object. *)
Lemma response_decoding_witness :
  exists w',
    step one_call (FetchSettled 0 (FetchResponse (reply 200 payload))) = Some w' /\
    stage_of w' 0 = Some (Settled (Resolved payload)).
Proof.
  destruct (response_decoding one_call 0
              (mkTask "/assets/9" plain_get (AwaitFetch true)) true
              (reply 200 payload))
    as (w' & o & Hstep & Hstage & _ & Hparsed & _);
    [reflexivity | reflexivity | reflexivity |].
  exists w'. split; [exact Hstep|].
  rewrite Hstage, Hparsed; [reflexivity | discriminate].
Defined.

(** C10, at a login whose response has an access token and a user and no
    refresh token: the stored refresh token [R1] stays. *)
Lemma login_keeps_refresh_token_witness :
  let w' := fst (login_settled (FetchResponse (reply 200 login_body)) demo_world) in
  refreshToken (cl w') = Some (JStr "R1") /\
  persisted w' "refreshToken" = Some "R1" /\
  token (cl w') = Some (JStr "A1").
Proof.
  intros w'.
  destruct (login_keeps_refresh_token
              (FetchResponse (reply 200 login_body)) demo_world w' login_body)
    as (Hmem & Hstored & Htoken & _);
    [by vm_compute | reflexivity |].
  rewrite Hmem, Hstored, Htoken. repeat split.
Defined.

(** C1, as stated, fails: two calls are issued while no refresh is in
    flight and both receive a 401 for the token they were sent with; the
    refresh started by the first 401 settles before the second 401
    arrives, and that one starts a refresh of its own. *)
Lemma late_401_refreshes_twice :
  (fun w => (isRefreshing (cl w), t_stage <$> tasks w, refresh_calls w))
    <$> run demo_world two_calls
  = Some (false, [AwaitFetch true; AwaitFetch true], 0) /\
  (fun w => (refresh_calls w, t_stage <$> tasks w))
    <$> run demo_world late_401
  = Some (2, [AwaitFetch false; AwaitRefresh]) /\
  ~ refreshed_once (after two_calls) late_replies.
Proof.
  split; [by vm_compute|]. split; [by vm_compute|].
  intros (w' & Hrun & Hcalls).
  vm_compute in Hrun. injection Hrun as <-.
  vm_compute in Hcalls. discriminate Hcalls.
Qed.

(** C1 (amended), at two pending calls whose 401 responses arrive one
    after the other, and at a third call that finds the refresh in
    flight. *)
Lemma single_flight_witness :
  (exists w',
     run (after two_calls) (deliver [(0, expired); (1, expired)]) = Some w' /\
     refresh_calls w' = 1 /\
     w_promise <$> refreshSubscribers (cl w') = [1]) /\
  (exists w',
     step (after third_call_pending)
          (FetchSettled 2 (FetchResponse expired)) = Some w' /\
     net w' = net (after third_call_pending) /\
     w_promise <$> refreshSubscribers (cl w') = [1; 2]).
Proof.
  destruct (@single_flight demo_runtime) as [Hfirst Hjoin]. split.
  - destruct (Hfirst (after two_calls) (0, expired) [(1, expired)])
      as (w' & Hrun & Hcalls & _ & _ & Hsubs).
    + reflexivity.
    + reflexivity.
    + apply (bool_decide_unpack _). vm_compute. exact I.
    + intros d' Hd'. repeat (apply elem_of_cons in Hd' as [->|Hd']);
        [by vm_compute | by vm_compute | by apply elem_of_nil in Hd'].
    + exists w'. split; [exact Hrun|]. split; [exact Hcalls|]. exact Hsubs.
  - destruct (Hjoin (after third_call_pending) 2
                (mkTask "/users/" plain_get (AwaitFetch true)) expired)
      as (w' & Hstep & Hnet & Hsubs & _).
    + reflexivity.
    + reflexivity.
    + by vm_compute.
    + reflexivity.
    + reflexivity.
    + exists w'. split; [exact Hstep|]. split; [exact Hnet|].
      rewrite Hsubs. by vm_compute.
Defined.

(** C3, as stated, fails: a call was retried after a successful refresh
    and the retry receives a 401 whose body is not JSON, as a gateway
    sends it; the caller receives the SyntaxError of the parser and not
    an error of the API. *)
Lemma second_401_not_surfaced :
  (fun w => (sends_of 0 w, stage_of w 0)) <$> run demo_world retried_once
  = Some (2, Some (AwaitFetch false)) /\
  stage_of (default (after retried_once)
              (step (after retried_once)
                    (FetchSettled 0 (FetchResponse html_401)))) 0
  = Some (Settled (Rejected SyntaxError)) /\
  surfaced_as_api_error (Rejected SyntaxError) = false.
Proof. split; [by vm_compute|]. split; [by vm_compute|reflexivity]. Qed.

(** C3 (amended), at a call that was retried after a successful refresh
    and whose retry receives a 401 again, with a JSON body and with a
    body that is not JSON. *)
Lemma retry_bound_witness :
  sends_of 0 (after retried_once) <= 2 /\
  (exists w',
     step (after retried_once) (FetchSettled 0 (FetchResponse expired)) = Some w' /\
     stage_of w' 0 = Some (Settled (Rejected (Error "Not found"))) /\
     net w' = net (after retried_once) /\
     cl w' = cl (after retried_once)) /\
  (exists w',
     step (after retried_once) (FetchSettled 0 (FetchResponse html_401)) = Some w' /\
     stage_of w' 0 = Some (Settled (Rejected SyntaxError)) /\
     net w' = net (after retried_once)).
Proof.
  destruct (retry_bound "http://api" (Some demo_browser) retried_once
              (after retried_once))
    as [Hbound Hsurfaced]; [by vm_compute|].
  split; [apply Hbound|]. split.
  - destruct (Hsurfaced 0 (mkTask "/assets/" plain_get (AwaitFetch false)) expired)
      as (w' & Hstep & Hstage & Hnet & Hcl);
      [by vm_compute | reflexivity | reflexivity |].
    exists w'. split; [exact Hstep|]. split; [by rewrite Hstage|].
    split; [exact Hnet|]. exact Hcl.
  - destruct (Hsurfaced 0 (mkTask "/assets/" plain_get (AwaitFetch false)) html_401)
      as (w' & Hstep & Hstage & Hnet & _);
      [by vm_compute | reflexivity | reflexivity |].
    exists w'. split; [exact Hstep|]. split; [by rewrite Hstage|]. exact Hnet.
Defined.

(** C4, as stated, fails.  A refresh answered 200 with the body [{}] is
    a success for the code: the token becomes [undefined] and the waiter
    and the call that started the refresh are resent without
    [Authorization].  And when the refresh has returned the new token
    [A2] and [clearToken] runs before the call that started it resumes,
    the two are resent without [Authorization] as well. *)
Lemma fan_out_without_bearer :
  let w := after refresh_in_flight in
  let waiting := [mkWaiter "/tickets/" plain_get 1; mkWaiter "/assets/" plain_get 0] in
  refreshSubscribers (cl w) ++ [mkWaiter "/assets/" plain_get 0] = waiting /\
  (exists w',
     step w (RefreshSettled 0 (FetchResponse (reply 200 (JObj [])))) = Some w' /\
     token (cl w') = undefined /\
     authorization <$> calls_since w w' = [None; None] /\
     ~ resent_with_bearer undefined waiting w w') /\
  (exists w',
     run w [RefreshArrived 0 (FetchResponse (reply 200 new_access));
            ClearToken; RefreshResumed 0] = Some w' /\
     authorization <$> calls_since w w' = [None; None] /\
     ~ resent_with_bearer (Some (JStr "A2")) waiting w w').
Proof.
  intros w waiting. split; [by vm_compute|]. split.
  - eexists. split; [by vm_compute|]. split; [by vm_compute|].
    split; [by vm_compute|].
    intros Hclaim.
    destruct (Hclaim (mkWaiter "/tickets/" plain_get 1))
      as (c & Hin & _ & Hauth); [apply list_elem_of_here|].
    assert (Hnone : Forall (fun c => authorization c = None)
                      (calls_since w
                         (default w (step w (RefreshSettled 0
                            (FetchResponse (reply 200 (JObj []))))))))
      by (vm_compute; repeat constructor).
    rewrite Forall_forall in Hnone. apply Hnone in Hin. congruence.
  - eexists. split; [by vm_compute|]. split; [by vm_compute|].
    intros Hclaim.
    destruct (Hclaim (mkWaiter "/tickets/" plain_get 1))
      as (c & Hin & _ & Hauth); [apply list_elem_of_here|].
    assert (Hnone : Forall (fun c => authorization c = None)
                      (calls_since w
                         (default w (run w
                            [RefreshArrived 0 (FetchResponse (reply 200 new_access));
                             ClearToken; RefreshResumed 0]))))
      by (vm_compute; repeat constructor).
    rewrite Forall_forall in Hnone. apply Hnone in Hin. congruence.
Qed.

(** C4 (amended), at a refresh that succeeds with the token [A2] while
    one call is on the waiter list: the waiter is sent a second time,
    with the new token, and never a third; and at the same refresh when
    [clearToken] runs before the call that started it resumes: the
    waiter is sent a second time without [Authorization]. *)
Lemma fan_out_success_witness :
  (exists w',
     step (after refresh_in_flight)
          (RefreshSettled 0 (FetchResponse (reply 200 new_access))) = Some w' /\
     token (cl w') = Some (JStr "A2") /\
     opt_headers (build_config (token (cl w')) plain_get) !! "Authorization"
     = Some "Bearer A2" /\
     sends_of 1 w' = 2 /\
     stage_of w' 1 = Some (AwaitFetch false)) /\
  (exists w',
     step (after cleared_before_resuming) (RefreshResumed 0) = Some w' /\
     token (cl w') = null /\
     opt_headers (build_config (token (cl w')) plain_get) !! "Authorization" = None /\
     sends_of 1 w' = 2 /\
     stage_of w' 1 = Some (AwaitFetch false)).
Proof.
  split.
  - destruct (fan_out_success "http://api" (Some demo_browser) refresh_in_flight
                (after refresh_in_flight) 0
                (mkTask "/assets/" plain_get AwaitRefresh))
      as (_ & _ & _ & Hfused); [by vm_compute | by vm_compute | reflexivity |].
    destruct (Hfused (reply 200 new_access) new_access)
      as (w' & Hstep & Htoken & _ & _ & Hsent & _);
      [reflexivity | reflexivity | reflexivity | discriminate | reflexivity |].
    change (sendable (get new_access "access_token")) with true in Hsent.
    destruct Hsent as [_ Heach].
    destruct (Heach (mkWaiter "/tickets/" plain_get 1))
      as (Hauth & Hsends & Hstage).
    { vm_compute. apply list_elem_of_here. }
    cbn [w_promise w_options] in Hauth, Hsends, Hstage.
    exists w'. split; [exact Hstep|]. split; [exact Htoken|].
    split; [by rewrite Htoken, Hauth|]. split; [|by rewrite Hstage].
    rewrite Hsends. by vm_compute.
  - destruct (fan_out_success "http://api" (Some demo_browser)
                cleared_before_resuming
                (after cleared_before_resuming) 0
                (mkTask "/assets/" plain_get AwaitRefresh))
      as (_ & _ & Hresumed & _); [by vm_compute | by vm_compute | reflexivity |].
    destruct (Hresumed (Some (JStr "A2")))
      as (w' & Hstep & Htoken & _ & _ & Hsent & _); [by vm_compute|].
    change (sendable (token (cl (after cleared_before_resuming))))
      with true in Hsent.
    destruct Hsent as [_ Heach].
    destruct (Heach (mkWaiter "/tickets/" plain_get 1))
      as (Hauth & Hsends & Hstage).
    { vm_compute. apply list_elem_of_here. }
    cbn [w_promise w_options] in Hauth, Hsends, Hstage.
    exists w'. split; [exact Hstep|]. split; [by rewrite Htoken|].
    split; [by rewrite Htoken, Hauth|]. split; [|by rewrite Hstage].
    rewrite Hsends. by vm_compute.
Defined.

(** C2: what the code does when the refresh fails while a call is on the
    waiter list.  The call that started the refresh throws, the session
    is cleared and the page is sent to [/login], but the waiter is neither
    resolved nor rejected: it stays subscribed. *)
Lemma failed_refresh_strands_waiter :
  (fun w => (t_stage <$> tasks w,
             (token (cl w), refreshToken (cl w)),
             (fun k => persisted w k) <$> session_keys,
             location_href <$> win w))
    <$> run demo_world refresh_rejected
  = Some ([Settled (Rejected (Error "Token refresh failed")); Subscribed],
          (null, null), [None; None; None], Some "/login").
Proof. vm_compute. reflexivity. Qed.

(** C5: after the same failed refresh, no refresh is in flight and the
    waiter list still holds the second call. *)
Lemma waiters_outlive_failed_refresh :
  (fun w => (isRefreshing (cl w), w_promise <$> refreshSubscribers (cl w)))
    <$> run demo_world refresh_rejected
  = Some (false, [1]).
Proof. vm_compute. reflexivity. Qed.

(** * The further properties at concrete inputs *)


(** X3, at an entry of the storage that is not of the session. *)
Lemma clearToken_frame_witness :
  persisted (clearToken demo_world) "theme" = persisted demo_world "theme".
Proof.
  destruct (clearToken_frame demo_world) as (Hother & _).
  apply Hother. unfold session_keys.
  apply (bool_decide_unpack _). by vm_compute.
Defined.

(** X6, at the content type of a [GET]. *)
Lemma resend_same_but_authorization_witness :
  opt_headers (build_config (Some (JStr "A1")) plain_get) !! "Content-Type"
  = opt_headers (build_config (Some (JStr "A2")) plain_get) !! "Content-Type".
Proof.
  destruct (resend_same_but_authorization (Some (JStr "A1")) (Some (JStr "A2")) plain_get)
    as (_ & _ & Hheaders).
  by apply Hheaders.
Defined.

(** X7, at a 404 with a JSON body: the call does not resolve. *)
Lemma resolves_iff_ok_witness :
  exists w' o,
    step one_call (FetchSettled 0 (FetchResponse (reply 404 not_found))) = Some w' /\
    stage_of w' 0 = Some (Settled o) /\
    exists e, o = Rejected e.
Proof.
  destruct (resolves_iff_ok one_call 0
              (mkTask "/assets/9" plain_get (AwaitFetch true)) true
              (reply 404 not_found))
    as (w' & o & Hstep & Hstage & _ & Hrejected);
    [reflexivity | reflexivity | reflexivity |].
  exists w', o. split; [exact Hstep|]. split; [exact Hstage|].
  apply Hrejected. by left.
Defined.

(** X8, at a client without tokens whose call is answered 401. *)
Lemma no_refresh_token_no_refresh_witness :
  exists w' o,
    step anonymous_call (FetchSettled 0 (FetchResponse expired)) = Some w' /\
    stage_of w' 0 = Some (Settled o) /\
    net w' = net anonymous_call.
Proof.
  destruct (no_refresh_token_no_refresh anonymous_call 0
              (mkTask "/reference/roles" plain_get (AwaitFetch true)) true
              (FetchResponse expired))
    as (w' & o & Hstep & Hstage & Hnet & _);
    [reflexivity | reflexivity | reflexivity |].
  exists w', o. split; [exact Hstep|]. split; [exact Hstage|]. exact Hnet.
Defined.

(** X9, at a refresh answered 401 while a call is on the waiter list. *)
Lemma refresh_failure_effects_witness :
  exists w',
    step (after refresh_in_flight) (RefreshSettled 0 (FetchResponse expired)) = Some w' /\
    stage_of w' 0 = Some (Settled (Rejected (Error "Token refresh failed"))) /\
    token (cl w') = null /\ refreshToken (cl w') = null /\
    isRefreshing (cl w') = false.
Proof.
  destruct (refresh_failure_effects (after refresh_in_flight) 0
              (mkTask "/assets/" plain_get AwaitRefresh) (FetchResponse expired))
    as (w' & e & Hstep & Hstage & _ & He & Htoken & Hrefresh & _ & Hflag & _);
    [by vm_compute | reflexivity | reflexivity |].
  exists w'. split; [exact Hstep|].
  rewrite Hstage, (He expired eq_refl eq_refl). done.
Defined.

(** X10, at a third call that is still pending when the refresh fails and
    is then answered 401 itself. *)
Lemma failed_refresh_not_retried_witness :
  exists w' w'',
    step (after third_call_pending) (RefreshSettled 0 (FetchResponse expired)) = Some w' /\
    step w' (FetchSettled 2 (FetchResponse expired)) = Some w'' /\
    refresh_calls w'' = 1.
Proof.
  destruct (failed_refresh_not_retried (after third_call_pending) 0
              (mkTask "/assets/" plain_get AwaitRefresh) (FetchResponse expired))
    as (w' & Hstep & Hlater);
    [by vm_compute | reflexivity | reflexivity |].
  destruct (Hlater 2 (mkTask "/users/" plain_get (AwaitFetch true)) true
              (FetchResponse expired))
    as (w'' & o & Hstep' & _ & _ & Hcalls).
  { vm_compute in Hstep. injection Hstep as <-. by vm_compute. }
  { reflexivity. }
  exists w', w''. split; [exact Hstep|]. split; [exact Hstep'|].
  rewrite Hcalls. by vm_compute.
Defined.

(** X11, at a refresh that succeeds with the token [A2], and at a
    refresh answered 200 with an [access_token] that has no string. *)
Lemma refresh_success_effects_witness :
  (exists w',
     step (after refresh_in_flight)
          (RefreshSettled 0 (FetchResponse (reply 200 new_access))) = Some w' /\
     token (cl w') = Some (JStr "A2") /\
     persisted w' "accessToken" = Some "A2" /\
     refreshToken (cl w') = Some (JStr "R1") /\
     refreshSubscribers (cl w') = []) /\
  (exists w',
     step (after refresh_in_flight)
          (RefreshSettled 0 (FetchResponse (reply 200 access_no_string))) = Some w' /\
     stage_of w' 0 = Some (Settled (Rejected TypeError)) /\
     token (cl w') = null /\ persisted w' "user" = None /\
     w_promise <$> refreshSubscribers (cl w') = [1]).
Proof.
  split.
  - destruct (refresh_success_effects (after refresh_in_flight) 0
                (mkTask "/assets/" plain_get AwaitRefresh)
                (FetchResponse (reply 200 new_access)))
      as (w' & resp & data & Hr & Hjson & Hstep & _ & Heffects);
      [by vm_compute | reflexivity | reflexivity | reflexivity |].
    injection Hr as <-.
    vm_compute in Hjson. injection Hjson as <-.
    change (setItem_throws (get new_access "access_token") (after refresh_in_flight))
      with false in Heffects.
    destruct Heffects as (_ & Htoken & Hstored & Hrefresh & _ & _ & _ & Hsubs & _).
    exists w'. split; [exact Hstep|]. split; [exact Htoken|].
    split; [apply Hstored; by eexists|]. split; [|exact Hsubs].
    rewrite Hrefresh. by vm_compute.
  - destruct (refresh_success_effects (after refresh_in_flight) 0
                (mkTask "/assets/" plain_get AwaitRefresh)
                (FetchResponse (reply 200 access_no_string)))
      as (w' & resp & data & Hr & Hjson & Hstep & _ & Heffects);
      [by vm_compute | reflexivity | reflexivity | reflexivity |].
    injection Hr as <-.
    vm_compute in Hjson. injection Hjson as <-.
    change (setItem_throws (get access_no_string "access_token")
              (after refresh_in_flight))
      with true in Heffects.
    destruct Heffects as (Hstage & Htoken & _ & Hgone & _ & _ & _ & Hsubs).
    exists w'. split; [exact Hstep|]. split; [exact Hstage|].
    split; [exact Htoken|]. split.
    + apply Hgone. unfold session_keys.
      do 2 apply list_elem_of_further. apply list_elem_of_here.
    + rewrite Hsubs. by vm_compute.
Defined.

(** X12, at a 401 that starts a refresh. *)
Lemma requests_leave_session_witness :
  exists w',
    step (after two_calls) (FetchSettled 0 (FetchResponse expired)) = Some w' /\
    session w' = session (after two_calls).
Proof.
  destruct (requests_leave_session (after two_calls)) as [_ Hfetch].
  eexists. split; [reflexivity|].
  by apply (proj1 (Hfetch 0 (FetchResponse expired) _ eq_refl)).
Defined.

(** X13, at a login answered 401, and at a login answered 200 with an
    [access_token] that has no string. *)
Lemma failed_login_effects_witness :
  fst (login_settled (FetchResponse expired) demo_world) = demo_world /\
  fst (login_settled (FetchResponse (reply 200 access_no_string)) demo_world)
  = assign_token (Some no_string) demo_world.
Proof.
  split.
  - apply (failed_login_effects (FetchResponse expired) demo_world _
             (Error "Not found")); [by vm_compute|].
    right. exists expired. split; [reflexivity|]. by left.
  - destruct (failed_login_effects (FetchResponse (reply 200 access_no_string))
                demo_world
                (fst (login_settled (FetchResponse (reply 200 access_no_string))
                        demo_world))
                TypeError) as [_ Hthrows]; [by vm_compute|].
    destruct (Hthrows (reply 200 access_no_string) access_no_string)
      as (_ & _ & [[_ Hw]|(Hs & _)]);
      [reflexivity | reflexivity | reflexivity | discriminate | exact Hw
      | discriminate Hs].
Defined.

(** X14, at a login that returns the tokens [A3] and [R3]. *)
Lemma login_then_restart_witness :
  let w' := fst (@login_settled login_runtime
                   (FetchResponse (reply 200 login_both)) demo_world) in
  token (cl (new_ApiClient "http://api" (win w'))) = Some (JStr "A3") /\
  refreshToken (cl (new_ApiClient "http://api" (win w'))) = Some (JStr "R3").
Proof.
  intros w'.
  destruct (@login_then_restart login_runtime "http://api"
              (FetchResponse (reply 200 login_both)) demo_world w' login_both
              "A3" "R3")
    as (_ & _ & Htoken & Hrefresh & _);
    [by vm_compute | by eexists | reflexivity | reflexivity | discriminate |].
  split; [exact Htoken|exact Hrefresh].
Defined.

(** X15, at a logout answered 404: the session stays. *)
Lemma logout_clears_iff_resolved_witness :
  exists w' o,
    step one_call (FetchSettled 0 (FetchResponse (reply 404 not_found))) = Some w' /\
    stage_of w' 0 = Some (Settled o) /\
    session (fst (logout_resume o w')) = session one_call.
Proof.
  destruct (logout_clears_iff_resolved one_call 0
              (mkTask "/assets/9" plain_get (AwaitFetch true)) true
              (reply 404 not_found))
    as (_ & w' & o & Hstep & Hstage & _ & Hkept);
    [reflexivity | reflexivity | reflexivity |].
  exists w', o. split; [exact Hstep|]. split; [exact Hstage|].
  destruct Hkept as (_ & _ & Hsession); [by left|]. exact Hsession.
Defined.

(** X16, at the form as the page opens with the slider at zero. *)
Lemma relationship_body_defaults_witness :
  get (relationship_body (JStr "7") (JStr "depends_on") empty_form) "criticality"
  = Some (JNum "3") /\
  get (relationship_body (JStr "7") (JStr "depends_on") empty_form) "description"
  = Some JNull.
Proof.
  destruct (relationship_body_defaults (JStr "7") (JStr "depends_on") empty_form)
    as ((c & Hc & _ & _ & Hdefault) & (d & Hd & _ & Hnull) & _).
  rewrite Hc, Hd, Hdefault, Hnull; done.
Defined.

(** X17, at a relationship created from the demo client. *)
Lemma createAssetRelationship_sends_witness :
  exists w',
    createAssetRelationship (Some (JStr "9")) (JStr "7") (JStr "depends_on")
                            empty_form demo_world = inr w' /\
    length (net w') = 1 /\ session w' = session demo_world.
Proof.
  pose proof (createAssetRelationship_sends (Some (JStr "9")) (JStr "7")
                (JStr "depends_on") empty_form demo_world) as Hsends.
  destruct (createAssetRelationship _ _ _ _ _) as [e|w'].
  { destruct Hsends as [[Hnull|Hsource] _]; discriminate. }
  destruct Hsends as (_ & _ & Hsession & Hsent).
  change (sendable (token (cl demo_world))) with true in Hsent.
  destruct Hsent as (config & Hnet & _).
  exists w'. split; [reflexivity|]. split; [by rewrite Hnet|exact Hsession].
Defined.

(** X18, at a listed type and at a value that is not a string. *)
Lemma getTypeColor_total_witness :
  getTypeColor (Some (JStr "runs_on")) = "green" /\
  getTypeColor (Some (JNum "4")) = "slate".
Proof.
  destruct (getTypeColor_total (Some (JNum "4"))) as (Hlisted & Hslate & _).
  split.
  - apply (Hlisted "runs_on" "Runs On" "green").
    unfold relationshipTypes. apply (bool_decide_unpack _). by vm_compute.
  - apply Hslate. by intros v label colour _.
Defined.

(** X19, at a state with one refresh in flight. *)
Lemma one_refresh_in_flight_witness :
  isRefreshing (cl (after refresh_in_flight)) = true <->
  exists t, stage_of (after refresh_in_flight) t = Some AwaitRefresh.
Proof.
  destruct (one_refresh_in_flight "http://api" (Some demo_browser)
              refresh_in_flight (after refresh_in_flight))
    as [_ Hiff]; [by vm_compute|].
  exact Hiff.
Defined.

(** X20, at the call that refreshed in the interleaving of two
    refreshes. *)
Lemma one_refresh_per_call_witness :
  refreshes_of 0 (after late_401) <= 1.
Proof.
  destruct (one_refresh_per_call "http://api" (Some demo_browser)
              late_401 (after late_401) 0)
    as [Hbound _]; [by vm_compute|].
  exact Hbound.
Defined.

(** X21, at a state with one waiter. *)
Lemma subscribed_iff_listed_witness :
  stage_of (after refresh_in_flight) 1 = Some Subscribed <->
  1 ∈ w_promise <$> refreshSubscribers (cl (after refresh_in_flight)).
Proof.
  destruct (subscribed_iff_listed "http://api" (Some demo_browser)
              refresh_in_flight (after refresh_in_flight))
    as (_ & Hiff & _); [by vm_compute|].
  apply Hiff.
Defined.

(** X22, at the first call of two. *)
Lemma every_call_sourced_witness :
  exists tk tok,
    tasks (after two_calls) !! 0 = Some tk /\
    "http://api/assets/" = "http://api" +:+ t_endpoint tk /\
    build_config (Some (JStr "A1")) plain_get = build_config tok (t_options tk).
Proof.
  apply (every_call_sourced "http://api" (Some demo_browser) two_calls
           (after two_calls) first_call).
  - by vm_compute.
  - vm_compute. apply list_elem_of_here.
Defined.

(** X23, at a call settled with a 404 before another call is made. *)
Lemma settled_is_final_witness :
  stage_of (after settled_then_more) 0
  = Some (Settled (Rejected (Error "Not found"))).
Proof.
  destruct (settled_is_final "http://api" (Some demo_browser)
              (take 2 settled_then_more) (after (take 2 settled_then_more))
              (drop 2 settled_then_more) (after settled_then_more) 0
              (Rejected (Error "Not found")))
    as [Hstage _]; [by vm_compute | by vm_compute | by vm_compute |].
  exact Hstage.
Defined.


(** X26, at a third call answered 401 after the refresh has returned the
    token [A2]: it is resent when the first call resumes. *)
Lemma waiter_joins_before_resumption_witness :
  exists w1 w2,
    step (after refresh_returned) (FetchSettled 2 (FetchResponse expired)) = Some w1 /\
    w_promise <$> refreshSubscribers (cl w1) = [1; 2] /\
    step w1 (RefreshResumed 0) = Some w2 /\
    stage_of w2 2 = Some (AwaitFetch false) /\
    sends_of 2 w2 = 2 /\ refresh_calls w2 = 1.
Proof.
  destruct (waiter_joins_before_resumption "http://api" (Some demo_browser)
              refresh_returned (after refresh_returned) 0
              (mkTask "/assets/" plain_get AwaitRefresh) (Some (JStr "A2")) 2
              (mkTask "/users/" plain_get (AwaitFetch true)) expired)
    as (w1 & w2 & Hstep1 & _ & _ & Hstep2 & Hstage & Hsends & Hcalls & _);
    [by vm_compute | by vm_compute | reflexivity | by vm_compute | by vm_compute
    | reflexivity | reflexivity | reflexivity |].
  exists w1, w2. split; [exact Hstep1|]. split.
  { vm_compute in Hstep1. injection Hstep1 as <-. by vm_compute. }
  split; [exact Hstep2|]. split; [by rewrite Hstage|].
  split; [rewrite Hsends|rewrite Hcalls]; by vm_compute.
Defined.
